(** * Spotter: the reconnaissance modules and the tree writers

    A shallow embedding of [modules/port_scanner.py],
    [modules/service_detector.py], [modules/subdomain_discovery.py],
    [modules/dns_enum.py], [modules/whois_lookup.py] and the two
    recursive writers of [utils/output_handler.py].

    Conventions of the embedding.
    - A Python [int] is a [Z]; a Python [str] is a [string], read as a
      sequence of ASCII characters (code points below 128): the
      character tests below are Python's on that range.
    - A call that may raise is a value of [result]: [Return v] or
      [Raise e].  Only subclasses of [Exception] are modelled, so an
      [except Exception] clause catches every [Raise].
    - The network, the resolver and the thread pool are parameters: an
      oracle gives the outcome of each socket/resolver call, and
      [as_completed] is any reordering of the submitted futures. *)

From Stdlib Require Import ZArith Ascii String List Lia Bool.
From Stdlib Require Import Decimal DecimalString DecimalPos DecimalZ.
From stdpp Require Import base list sorting gmap strings.

Local Open Scope string_scope.
Set Warnings "-clear-no-such-hyp,-register-all".

(** ** Exceptions and results *)

Inductive exn : Type :=
  | ValueError
  | TypeError
  | AttributeError
  | UnicodeError
  | OSError
  | ConnectionRefusedError
  | socket_timeout
  | socket_gaierror
  | DNSException
  | RequestException.

Inductive result (A : Type) : Type :=
  | Return (a : A)
  | Raise (e : exn).
Arguments Return {A} a.
Arguments Raise {A} e.

(** Sequencing: the first [Raise] leaves the block. *)
Global Instance result_bind : MBind result := fun A B k r =>
  match r with
  | Return a => k a
  | Raise e => Raise e
  end.

(** What a caller that does not look at the exception class sees. *)
Definition returned {A} (r : result A) : option A :=
  match r with
  | Return a => Some a
  | Raise _ => None
  end.

(** ** Python string primitives *)

Module Py.

(** [c in s] for a one-character [c]. *)
Fixpoint has_char (c : ascii) (s : string) : bool :=
  match s with
  | EmptyString => false
  | String d s' => Ascii.eqb d c || has_char c s'
  end.

(** [s.split(sep)] for a one-character separator: never empty. *)
Fixpoint split (sep : ascii) (s : string) : list string :=
  match s with
  | EmptyString => [EmptyString]
  | String c s' =>
      if Ascii.eqb c sep then EmptyString :: split sep s'
      else match split sep s' with
           | h :: t => String c h :: t
           | [] => [String c EmptyString]
           end
  end.

(** [sep.join(parts)]. *)
Fixpoint join (sep : string) (parts : list string) : string :=
  match parts with
  | [] => ""
  | [p] => p
  | p :: rest => p ++ sep ++ join sep rest
  end.

(** [needle in hay]. *)
Fixpoint contains (needle hay : string) : bool :=
  String.prefix needle hay ||
  match hay with
  | EmptyString => false
  | String _ hay' => contains needle hay'
  end.

Definition lower_char (c : ascii) : ascii :=
  let n := N_of_ascii c in
  if ((65 <=? n) && (n <=? 90))%N then ascii_of_N (n + 32) else c.

(** [s.lower()]. *)
Fixpoint lower (s : string) : string :=
  match s with
  | EmptyString => EmptyString
  | String c s' => String (lower_char c) (lower s')
  end.

(** [str.isspace] on one character: TAB..CR, FS..US and the space. *)
Definition isspace (c : ascii) : bool :=
  let n := N_of_ascii c in
  ((9 <=? n) && (n <=? 13) || (28 <=? n) && (n <=? 32))%N.

Fixpoint lstrip (s : string) : string :=
  match s with
  | EmptyString => EmptyString
  | String c s' => if isspace c then lstrip s' else s
  end.

Fixpoint all_space (s : string) : bool :=
  match s with
  | EmptyString => true
  | String c s' => isspace c && all_space s'
  end.

Fixpoint rstrip (s : string) : string :=
  match s with
  | EmptyString => EmptyString
  | String c s' => if all_space s then EmptyString else String c (rstrip s')
  end.

(** [s.strip()]. *)
Definition strip (s : string) : string := rstrip (lstrip s).

(** [s.endswith(suffix)]. *)
Fixpoint endswith (s suffix : string) : bool :=
  String.eqb s suffix ||
  match s with
  | EmptyString => false
  | String _ s' => endswith s' suffix
  end.

(** [s[:n]]. *)
Fixpoint take (n : nat) (s : string) : string :=
  match n, s with
  | S n', String c s' => String c (take n' s')
  | _, _ => EmptyString
  end.

(** [str(z)]. *)
Definition str (z : Z) : string := NilZero.string_of_int (Z.to_int z).

(** [range(start, stop)] as a list. *)
Definition range (start stop : Z) : list Z :=
  map (fun i => (start + Z.of_nat i)%Z) (seq 0 (Z.to_nat (stop - start))).

(** *** [int(s)]

    The C routine behind [int(str)] in base 10: skip the whitespace of
    [Py_ISSPACE] (TAB..CR and the space), read one optional sign, refuse
    a leading underscore, scan digits with single underscores between
    them, require at least one digit, and allow only whitespace after.
    The interpreter's limit on the number of digits of a literal (4300
    by default) is left out: a port token is a few digits long. *)

Definition c_isspace (c : ascii) : bool :=
  let n := N_of_ascii c in
  ((9 <=? n) && (n <=? 13) || (n =? 32))%N.

Definition digit_value (c : ascii) : option Z :=
  let n := N_of_ascii c in
  if ((48 <=? n) && (n <=? 57))%N then Some (Z.of_N (n - 48)) else None.

Definition isdigit (c : ascii) : bool :=
  match digit_value c with Some _ => true | None => false end.

Fixpoint skip_c_space (s : string) : string :=
  match s with
  | EmptyString => EmptyString
  | String c s' => if c_isspace c then skip_c_space s' else s
  end.

Fixpoint all_c_space (s : string) : bool :=
  match s with
  | EmptyString => true
  | String c s' => c_isspace c && all_c_space s'
  end.

(** The digit scan: [prev_us] says that the previous character was an
    underscore, [acc] is the value read so far and [ndigits] the number
    of digits read.  [None] is the scan's error return. *)
Fixpoint scan_digits (s : string) (prev_us : bool) (acc : Z) (ndigits : nat)
  : option (Z * nat * string) :=
  match s with
  | EmptyString => if prev_us then None else Some (acc, ndigits, EmptyString)
  | String c s' =>
      if Ascii.eqb c "_" then
        if prev_us then None else scan_digits s' true acc ndigits
      else
        match digit_value c with
        | Some d => scan_digits s' false (10 * acc + d)%Z (S ndigits)
        | None => if prev_us then None else Some (acc, ndigits, s)
        end
  end.

Definition int (s : string) : result Z :=
  let s1 := skip_c_space s in
  let '(sign, s2) :=
    match s1 with
    | String c r =>
        if Ascii.eqb c "+" then (1%Z, r)
        else if Ascii.eqb c "-" then ((-1)%Z, r)
        else (1%Z, s1)
    | EmptyString => (1%Z, s1)
    end in
  if String.prefix "_" s2 then Raise ValueError else
  match scan_digits s2 false 0 0 with
  | Some (v, S _, rest) =>
      if all_c_space rest then Return (sign * v)%Z else Raise ValueError
  | _ => Raise ValueError
  end.

End Py.

(** ** Python's [sorted] *)

(** [sorted] is stable: an element goes before the first element that
    is not smaller, and the list is built from its right end. *)
Fixpoint insort {A} (le : A -> A -> bool) (x : A) (l : list A) : list A :=
  match l with
  | [] => [x]
  | y :: l' => if le x y then x :: l else y :: insort le x l'
  end.

Definition sorted {A} (le : A -> A -> bool) (l : list A) : list A :=
  foldr (insort le) [] l.

(** [sorted(l, key=key)] for an integer key. *)
Definition sorted_by_key {A} (key : A -> Z) : list A -> list A :=
  sorted (fun x y => (key x <=? key y)%Z).

(** ** port_scanner.py *)

Module PortScanner.

(** One comma-separated part of [_parse_port_range].  The unpacking
    [start, end = map(int, part.split('-'))] raises [ValueError] both
    when a piece is not an integer literal and when there are not
    exactly two pieces. *)
Definition parse_part (part : string) : result (list Z) :=
  if Py.has_char "-" part then
    match Py.split "-" part with
    | [a; b] =>
        start ← Py.int a;
        stop ← Py.int b;
        Return (Py.range start (stop + 1))
    | _ => Raise ValueError
    end
  else
    p ← Py.int part;
    Return [p].

Fixpoint parse_parts (parts : list string) (port_list : list Z)
  : result (list Z) :=
  match parts with
  | [] => Return port_list
  | part :: rest =>
      ps ← parse_part part;
      parse_parts rest (port_list ++ ps)
  end.

Definition _parse_port_range (ports : string) : result (list Z) :=
  parse_parts (Py.split "," ports) [].

Record port_entry : Type := {
  port : Z;
  protocol : string;
  state : string;
  service : string
}.

(** The socket calls of one probe, as the network sees them. *)
Inductive net_call : Type :=
  | Connect (p : Z)
  | SendTo (p : Z)
  | RecvFrom (p : Z).

(** The outcome of each socket call of the [i]-th submitted probe. *)
Record network : Type := {
  new_socket : nat -> result unit;
  connect_ex : nat -> Z -> result Z;
  sendto : nat -> Z -> result unit;
  recvfrom : nat -> Z -> result (list Byte.byte)
}.

Definition common_ports : gmap Z string :=
  list_to_map
    [ (20, "ftp-data"); (21, "ftp"); (22, "ssh"); (23, "telnet");
      (25, "smtp"); (53, "dns"); (80, "http"); (110, "pop3");
      (143, "imap"); (443, "https"); (445, "smb"); (3306, "mysql");
      (3389, "rdp"); (5432, "postgresql"); (5900, "vnc");
      (8080, "http-proxy"); (8443, "https-alt"); (27017, "mongodb");
      (6379, "redis") ]%Z.

Definition _get_service_name (p : Z) : string :=
  default "unknown" (common_ports !! p).

(** [_scan_port]: the finding, if any, and the socket calls made.
    Every exception ends in [return None]: the timeout of the UDP
    exchange through its own handler, the others through
    [except Exception: pass]. *)
Definition _scan_port (net : network) (i : nat) (p : Z) (scan_type : string)
  : option port_entry * list net_call :=
  if String.eqb scan_type "tcp" || String.eqb scan_type "syn" then
    match new_socket net i with
    | Raise _ => (None, [])
    | Return _ =>
        match connect_ex net i p with
        | Raise _ => (None, [Connect p])
        | Return code =>
            (if (code =? 0)%Z
             then Some {| port := p; protocol := "tcp"; state := "open";
                          service := _get_service_name p |}
             else None,
             [Connect p])
        end
    end
  else if String.eqb scan_type "udp" then
    match new_socket net i with
    | Raise _ => (None, [])
    | Return _ =>
        match sendto net i p with
        | Raise socket_timeout => (None, [SendTo p])
        | Raise _ => (None, [SendTo p])
        | Return _ =>
            match recvfrom net i p with
            | Return _ =>
                (Some {| port := p; protocol := "udp"; state := "open";
                         service := _get_service_name p |},
                 [SendTo p; RecvFrom p])
            | Raise socket_timeout => (None, [SendTo p; RecvFrom p])
            | Raise _ => (None, [SendTo p; RecvFrom p])
            end
        end
    end
  else (None, []).

(** One future per element of [port_list], in submission order. *)
Definition submit_all (net : network) (port_list : list Z) (scan_type : string)
  : list (option port_entry * list net_call) :=
  imap (fun i p => _scan_port net i p scan_type) port_list.

(** [_custom_scan]: the value returned (or the exception raised) and
    the socket calls made, listed probe by probe in submission order;
    how the calls of different probes interleave is not modelled.
    [as_completed] is the order in which the futures are yielded. *)
Definition _custom_scan (net : network)
    (as_completed : list (option port_entry) -> list (option port_entry))
    (ports scan_type : string)
  : result (list port_entry) * list net_call :=
  match _parse_port_range ports with
  | Raise e => (Raise e, [])
  | Return port_list =>
      let futures := submit_all net port_list scan_type in
      let open_ports := omap id (as_completed (map fst futures)) in
      (Return (sorted_by_key port open_ports), concat (map snd futures))
  end.

(** How [subprocess.run(['nmap', '--version'], capture_output=True,
    check=True)] ends: it returns, or raises [CalledProcessError] (a
    non-zero exit status), [FileNotFoundError] (no such program), or
    another exception, such as [PermissionError]. *)
Inductive version_run : Type :=
  | Ran
  | CalledProcessError
  | FileNotFoundError
  | OtherError (e : exn).

(** [_check_nmap]: only the two exceptions named in its handler are
    caught. *)
Definition _check_nmap (run : version_run) : result bool :=
  match run with
  | Ran => Return true
  | CalledProcessError | FileNotFoundError => Return false
  | OtherError e => Raise e
  end.

(** The host: how the [k]-th run of [nmap --version] ends, and the
    entries [_nmap_scan] returns for a port specification. *)
Record host : Type := {
  nmap_version : nat -> version_run;
  nmap_scan : string -> list port_entry
}.

(** The dictionary returned by [scan], without its target and
    timestamp. *)
Record scan_results : Type := {
  scan_type : string;
  port_range : string;
  open_ports : list port_entry;
  scan_method : string;
  total_open_ports : nat
}.

(** [scan]: [_check_nmap] is called twice, first for the
    ['scan_method'] of the dictionary and then to choose the backend; an
    exception it lets through leaves [scan] before any socket call. *)
Definition scan (h : host) (net : network)
    (as_completed : list (option port_entry) -> list (option port_entry))
    (ports scan_type : string)
  : result scan_results * list net_call :=
  match _check_nmap (nmap_version h 0) with
  | Raise e => (Raise e, [])
  | Return found_first =>
      let method := if found_first then "nmap" else "custom" in
      match _check_nmap (nmap_version h 1) with
      | Raise e => (Raise e, [])
      | Return found_nmap =>
          let '(found, calls) :=
            if found_nmap && String.eqb scan_type "syn"
            then (Return (nmap_scan h ports), [])
            else _custom_scan net as_completed ports scan_type in
          (open_ports ← found;
           Return {| scan_type := scan_type;
                     port_range := ports;
                     open_ports := open_ports;
                     scan_method := method;
                     total_open_ports := length open_ports |},
           calls)
      end
  end.

End PortScanner.

(** ** Regular expressions of [_extract_version]

    The four patterns are sequences of one-character classes, each
    taken once or one-or-more times (greedy), with one capturing group.
    [match_here] is the backtracking matcher of [re] on that fragment:
    a [+] first tries to take one more character and gives it back if
    the rest of the pattern then fails; [search] returns group 1 of the
    leftmost match. *)

Module Re.

Inductive quant : Type := One | Plus.

Record atom : Type := {
  cls : ascii -> bool;
  rep : quant;
  grp : bool
}.

Definition capture (a : atom) (c : ascii) (g : string) : string :=
  if grp a then String c g else g.

Fixpoint match_here (pat : list atom) (s : string) : option string :=
  match pat with
  | [] => Some EmptyString
  | a :: rest =>
      match rep a with
      | One =>
          match s with
          | String c s' =>
              if cls a c then capture a c <$> match_here rest s' else None
          | EmptyString => None
          end
      | Plus =>
          (fix plus (s : string) : option string :=
             match s with
             | String c s' =>
                 if cls a c then
                   match plus s' with
                   | Some g => Some (capture a c g)
                   | None => capture a c <$> match_here rest s'
                   end
                 else None
             | EmptyString => None
             end) s
      end
  end.

Fixpoint search (pat : list atom) (s : string) : option string :=
  match match_here pat s with
  | Some g => Some g
  | None =>
      match s with
      | EmptyString => None
      | String _ s' => search pat s'
      end
  end.

Definition chr (c : ascii) : ascii -> bool := Ascii.eqb c.
Definition one_of (c d : ascii) : ascii -> bool :=
  fun x => Ascii.eqb x c || Ascii.eqb x d.

(** [\d], [\s] and the classes of the patterns. *)
Definition d : ascii -> bool := Py.isdigit.
Definition s : ascii -> bool := Py.isspace.
Definition colon_or_s : ascii -> bool := fun x => Ascii.eqb x ":" || s x.
Definition not_s : ascii -> bool := fun x => negb (s x).
Definition digit_or_dot : ascii -> bool := fun x => d x || Ascii.eqb x ".".

Definition lit (c : ascii) : atom :=
  {| cls := chr c; rep := One; grp := false |}.

End Re.

(** ** service_detector.py *)

Module ServiceDetector.

Record service_info : Type := {
  port : Z;
  state : string;
  service : string;
  banner : string;
  version : string
}.

(** What the target answers: the return code of [connect_ex] in
    [_is_port_open] and the text received by [_grab_banner] (the
    connection, the request or TLS handshake and the [recv], decoded
    with [errors='ignore']), either of which may raise. *)
Record network : Type := {
  connect_ex : Z -> result Z;
  recv_banner : Z -> result string
}.

Definition _is_port_open (net : network) (p : Z) : bool :=
  match connect_ex net p with
  | Return code => (code =? 0)%Z
  | Raise _ => false
  end.

Definition _grab_banner (net : network) (p : Z) : string :=
  match recv_banner net p with
  | Return text =>
      if bool_decide (p ∈ [443; 8443]%Z) then text else Py.strip text
  | Raise _ => Py.strip ""
  end.

Definition port_services : gmap Z string :=
  list_to_map
    [ (21, "FTP"); (22, "SSH"); (23, "Telnet"); (25, "SMTP"); (53, "DNS");
      (80, "HTTP"); (110, "POP3"); (143, "IMAP"); (443, "HTTPS");
      (445, "SMB"); (3306, "MySQL"); (3389, "RDP"); (5432, "PostgreSQL");
      (5900, "VNC"); (6379, "Redis"); (8080, "HTTP-Proxy");
      (8443, "HTTPS-Alt"); (27017, "MongoDB") ]%Z.

Definition _identify_service (p : Z) (banner : string) : string :=
  let by_port := default "Unknown" (port_services !! p) in
  if String.eqb banner "" then by_port else
  let banner_lower := Py.lower banner in
  if Py.contains "ssh" banner_lower then "SSH"
  else if Py.contains "ftp" banner_lower then "FTP"
  else if Py.contains "smtp" banner_lower || Py.contains "mail" banner_lower
       then "SMTP"
  else if Py.contains "http" banner_lower || Py.contains "apache" banner_lower
          || Py.contains "nginx" banner_lower
       then "HTTP"
  else if Py.contains "mysql" banner_lower then "MySQL"
  else if Py.contains "postgresql" banner_lower
          || Py.contains "postgres" banner_lower
       then "PostgreSQL"
  else if Py.contains "redis" banner_lower then "Redis"
  else if Py.contains "mongodb" banner_lower || Py.contains "mongo" banner_lower
       then "MongoDB"
  else by_port.

Definition patterns : list (list Re.atom) :=
  let g c := {| Re.cls := c; Re.rep := Re.Plus; Re.grp := true |} in
  let dot := {| Re.cls := Re.chr "."; Re.rep := Re.One; Re.grp := true |} in
  let vV :=
    {| Re.cls := Re.one_of "v" "V"; Re.rep := Re.One; Re.grp := false |} in
  [ (* (\d+\.\d+\.\d+) *)
    [g Re.d; dot; g Re.d; dot; g Re.d];
    (* (\d+\.\d+) *)
    [g Re.d; dot; g Re.d];
    (* [vV]ersion[:\s]+([^\s]+) *)
    [vV; Re.lit "e"; Re.lit "r"; Re.lit "s"; Re.lit "i"; Re.lit "o"; Re.lit "n";
     {| Re.cls := Re.colon_or_s; Re.rep := Re.Plus; Re.grp := false |};
     g Re.not_s];
    (* [vV]([0-9.]+) *)
    [vV; g Re.digit_or_dot] ].

Fixpoint first_match (pats : list (list Re.atom)) (banner : string)
  : option string :=
  match pats with
  | [] => None
  | pat :: rest =>
      match Re.search pat banner with
      | Some g => Some g
      | None => first_match rest banner
      end
  end.

Definition _extract_version (banner : string) : string :=
  if String.eqb banner "" then "Unknown" else
  match first_match patterns banner with
  | Some g => g
  | None =>
      let first_line :=
        Py.take 50 (default "" (head (Py.split "010" banner))) in
      if String.eqb first_line "" then "Unknown" else first_line
  end.

Definition _detect_service (net : network) (p : Z) : option service_info :=
  if negb (_is_port_open net p) then None else
  let banner := _grab_banner net p in
  Some {| port := p;
          state := "open";
          service := _identify_service p banner;
          banner := banner;
          version := _extract_version banner |}.

Record detect_results : Type := {
  services : list service_info;
  total_services : nat
}.

Definition default_ports : list Z :=
  [21; 22; 23; 25; 53; 80; 110; 143; 443; 445; 3306; 3389; 5432; 8080; 8443]%Z.

Definition detect (net : network) (ports : option (list Z)) : detect_results :=
  let ports := default default_ports ports in
  let services := omap (_detect_service net) ports in
  {| services := services; total_services := length services |}.

End ServiceDetector.

(** ** subdomain_discovery.py *)

Module SubdomainDiscovery.

Record subdomain_entry : Type := {
  subdomain : string;
  ip_address : string
}.

(** One element of the JSON array of crt.sh: an object, with its
    [name_value] if it has one, or something the loop body raises on. *)
Inductive ct_entry : Type :=
  | CtObject (name_value : option string)
  | CtMalformed.

(** The collaborators.  [lookup i name] is [socket.gethostbyname] in the
    [i]-th brute-force probe and [resolve name] the same call in
    [_resolve_subdomain]; [read_wordlist] gives the lines of the file;
    [resolve_ns] is the NS query; [xfr ns] is the outcome of
    [dns.zone.from_xfr(dns.query.xfr(ns, target))], the node names of
    the zone or the exception raised.  The module imports
    [dns.resolver] only: where that import does not load [dns.zone] and
    [dns.query], every [xfr] raises [AttributeError], which is one of
    the outcomes that the oracle ranges over.  [crt_sh] is the HTTP
    status of the certificate-transparency query with the outcome of
    [response.json()]. *)
Record network : Type := {
  lookup : nat -> string -> result string;
  resolve : string -> result string;
  read_wordlist : string -> result (list string);
  resolve_ns : result (list string);
  xfr : string -> result (list string);
  crt_sh : result (Z * result (list ct_entry))
}.

Definition default_subdomains : list string :=
  [ "www"; "mail"; "ftp"; "localhost"; "webmail"; "smtp"; "pop"; "ns1"; "ns2";
    "webdisk"; "ns"; "cpanel"; "whm"; "autodiscover"; "autoconfig"; "mx"; "mx1";
    "mx2"; "imap"; "pop3"; "admin"; "portal"; "api"; "dev"; "staging"; "test";
    "vpn"; "remote"; "blog"; "shop"; "store"; "mobile"; "m"; "cdn"; "static";
    "assets"; "img"; "images"; "video"; "media"; "download"; "downloads"; "app";
    "apps"; "cloud"; "secure"; "login"; "sso"; "auth"; "support"; "help";
    "docs"; "documentation"; "wiki"; "forum"; "community"; "chat"; "beta";
    "alpha"; "demo" ].

(** [_test_subdomain]: only [socket.gaierror] is handled. *)
Definition _test_subdomain (net : network) (target : string) (i : nat)
    (sub : string) : result (option string) :=
  let full_domain := sub ++ "." ++ target in
  match lookup net i full_domain with
  | Return _ => Return (Some full_domain)
  | Raise socket_gaierror => Return None
  | Raise e => Raise e
  end.

Definition load_wordlist (net : network) (wordlist : option string)
  : list string :=
  match wordlist with
  | Some path =>
      if String.eqb path "" then default_subdomains else
      match read_wordlist net path with
      | Return lines =>
          map Py.strip (filter (fun line => Py.strip line ≠ "") lines)
      | Raise _ => default_subdomains
      end
  | None => default_subdomains
  end.

(** The loop over [as_completed(futures)]: [future.result()] re-raises
    what the probe raised. *)
Fixpoint collect (completed : list (result (option string)))
    (found_subdomains : gset string) : result (gset string) :=
  match completed with
  | [] => Return found_subdomains
  | Return (Some d) :: rest =>
      if String.eqb d "" then collect rest found_subdomains
      else collect rest ({[ d ]} ∪ found_subdomains)
  | Return None :: rest => collect rest found_subdomains
  | Raise e :: _ => Raise e
  end.

Definition _brute_force_subdomains (net : network)
    (as_completed : list (result (option string)) ->
                    list (result (option string)))
    (target : string) (wordlist : option string)
    (found_subdomains : gset string) : result (gset string) :=
  let subdomains := load_wordlist net wordlist in
  let futures := imap (_test_subdomain net target) subdomains in
  collect (as_completed futures) found_subdomains.

(** The loop over the name servers: the set after it and the servers a
    transfer was asked from, in order. *)
Fixpoint transfer_from (net : network) (target : string)
    (ns_records : list string) (found_subdomains : gset string)
  : gset string * list string :=
  match ns_records with
  | [] => (found_subdomains, [])
  | ns_address :: rest =>
      let found' :=
        match xfr net ns_address with
        | Return names =>
            list_to_set (map (fun name => name ++ "." ++ target) names)
            ∪ found_subdomains
        | Raise _ => found_subdomains
        end in
      let '(found'', asked) := transfer_from net target rest found' in
      (found'', ns_address :: asked)
  end.

(** [try: body except Exception: handler]. *)
Definition try_except {A} (body : result A) (handler : exn -> result A)
  : result A :=
  match body with
  | Return a => Return a
  | Raise e => handler e
  end.

Definition _attempt_zone_transfer (net : network) (target : string)
    (found_subdomains : gset string) : result (gset string * list string) :=
  try_except
    (ns_records ← resolve_ns net;
     Return (transfer_from net target ns_records found_subdomains))
    (fun _ => Return (found_subdomains, [])).

Definition valid_names (target name_value : string) : list string :=
  filter (fun sub => Py.endswith sub target = true
                     ∧ Py.has_char "*" sub = false)
         (map Py.strip (Py.split "010" name_value)).

(** The loop over the entries: an exception leaves it, and the handler
    of [_check_cert_transparency] keeps what was added before. *)
Fixpoint add_certificates (target : string) (data : list ct_entry)
    (found_subdomains : gset string) : gset string :=
  match data with
  | [] => found_subdomains
  | CtObject nv :: rest =>
      add_certificates target rest
        (list_to_set (valid_names target (default "" nv)) ∪ found_subdomains)
  | CtMalformed :: _ => found_subdomains
  end.

Definition _check_cert_transparency (net : network) (target : string)
    (found_subdomains : gset string) : result (gset string) :=
  try_except
    ('(status_code, body) ← crt_sh net;
     if (status_code =? 200)%Z then
       data ← body;
       Return (add_certificates target data found_subdomains)
     else Return found_subdomains)
    (fun _ => Return found_subdomains).

Definition _resolve_subdomain (net : network) (sub : string) : string :=
  match resolve net sub with
  | Return ip => ip
  | Raise _ => "N/A"
  end.

Record discover_results : Type := {
  subdomains : list subdomain_entry;
  methods_used : list string;
  total_found : nat
}.

(** The last step of [discover]: [set_iter] is the order in which the
    interpreter iterates over the set. *)
Definition compile_results (net : network)
    (set_iter : gset string -> list string) (found_subdomains : gset string)
  : discover_results :=
  let subs :=
    map (fun sub => {| subdomain := sub;
                       ip_address := _resolve_subdomain net sub |})
        (sorted String.leb (set_iter found_subdomains)) in
  {| subdomains := subs;
     methods_used := ["brute_force"; "zone_transfer"; "cert_transparency"];
     total_found := length subs |}.

(** [discover], from the [found_subdomains] of the object, which
    [__init__] sets to [set()]. *)
Definition discover (net : network)
    (as_completed : list (result (option string)) ->
                    list (result (option string)))
    (set_iter : gset string -> list string)
    (target : string) (wordlist : option string)
    (found_subdomains : gset string) : result discover_results :=
  found1 ← _brute_force_subdomains net as_completed target wordlist
             found_subdomains;
  '(found2, _) ← _attempt_zone_transfer net target found1;
  found3 ← _check_cert_transparency net target found2;
  Return (compile_results net set_iter found3).

End SubdomainDiscovery.

(** * Definitions used in the statements *)

(** ** Port specifications, as the interface describes them *)

(** A port specification is a non-empty, comma-separated sequence of
    single ports and ranges ["a-b"], each number in decimal. *)
Inductive port_item : Type :=
  | Single (p : Z)
  | Span (a b : Z).

Definition render_item (it : port_item) : string :=
  match it with
  | Single p => Py.str p
  | Span a b => Py.str a ++ "-" ++ Py.str b
  end.

Definition render (items : list port_item) : string :=
  Py.join "," (map render_item items).

(** The ports an item stands for, as a predicate and as a list. *)
Definition covers (it : port_item) (p : Z) : Prop :=
  match it with
  | Single q => p = q
  | Span a b => (a <= p <= b)%Z
  end.

Definition implied (it : port_item) : list Z :=
  match it with
  | Single p => [p]
  | Span a b => seqZ a (b - a + 1)
  end.

Definition nonneg_item (it : port_item) : Prop :=
  match it with
  | Single p => (0 <= p)%Z
  | Span a b => (0 <= a)%Z /\ (0 <= b)%Z
  end.

Definition in_range_item (it : port_item) : Prop :=
  match it with
  | Single p => (1 <= p <= 65535)%Z
  | Span a b => (1 <= a)%Z /\ (b <= 65535)%Z
  end.

(** The characters an integer literal may contain. *)
Definition numeric_char (c : ascii) : bool :=
  Py.isdigit c || Py.c_isspace c || Ascii.eqb c "+" || Ascii.eqb c "-"
  || Ascii.eqb c "_".

(** The relation of a boolean order. *)
Definition le_rel {A} (le : A -> A -> bool) : relation A :=
  fun x y => le x y = true.

(** The entry of an open port: it is determined by the port and the
    scan type. *)
Definition entry_for (scan_type : string) (p : Z) : PortScanner.port_entry :=
  {| PortScanner.port := p;
     PortScanner.protocol :=
       if String.eqb scan_type "tcp" || String.eqb scan_type "syn"
       then "tcp" else "udp";
     PortScanner.state := "open";
     PortScanner.service := PortScanner._get_service_name p |}.

(** The keyword list of the banner match, in the order of the tests. *)
Definition keywords : list (string * string) :=
  [ ("ssh", "SSH"); ("ftp", "FTP"); ("smtp", "SMTP"); ("mail", "SMTP");
    ("http", "HTTP"); ("apache", "HTTP"); ("nginx", "HTTP");
    ("mysql", "MySQL"); ("postgresql", "PostgreSQL");
    ("postgres", "PostgreSQL"); ("redis", "Redis"); ("mongodb", "MongoDB");
    ("mongo", "MongoDB") ].

(** [kw] occurs in [banner], letter case apart. *)
Definition keyword_match (kw banner : string) : Prop :=
  exists pre w post, banner = pre ++ w ++ post /\ Py.lower w = kw.

(** Identification as the interface describes it: the first keyword of
    the list found in the banner, then the port table, then "Unknown". *)
Definition identify_by_table (p : Z) (banner : string) : string :=
  match list_find (fun kv => Py.contains kv.1 (Py.lower banner) = true)
                  keywords with
  | Some (_, (_, svc)) => svc
  | None => default "Unknown" (ServiceDetector.port_services !! p)
  end.

(** The value of a decimal numeral read after [acc], and the strings of
    digits. *)
Fixpoint all_digits (s : string) : bool :=
  match s with
  | EmptyString => true
  | String c s' => Py.isdigit c && all_digits s'
  end.

Fixpoint uint_val (d : uint) (acc : Z) : Z :=
  match d with
  | Nil => acc
  | D0 d => uint_val d (10 * acc + 0)
  | D1 d => uint_val d (10 * acc + 1)
  | D2 d => uint_val d (10 * acc + 2)
  | D3 d => uint_val d (10 * acc + 3)
  | D4 d => uint_val d (10 * acc + 4)
  | D5 d => uint_val d (10 * acc + 5)
  | D6 d => uint_val d (10 * acc + 6)
  | D7 d => uint_val d (10 * acc + 7)
  | D8 d => uint_val d (10 * acc + 8)
  | D9 d => uint_val d (10 * acc + 9)
  end%Z.

(** ** Test environments *)

(** A host on which only the ports in [open] accept connections and no
    datagram is ever answered. *)
Definition quiet_host (open : list Z) : PortScanner.network :=
  {| PortScanner.new_socket := fun _ => Return tt;
     PortScanner.connect_ex := fun _ p =>
       if bool_decide (p ∈ open) then Return 0%Z else Return 111%Z;
     PortScanner.sendto := fun _ _ => Return tt;
     PortScanner.recvfrom := fun _ _ => Raise socket_timeout |}.

(** A host without nmap. *)
Definition no_nmap : PortScanner.host :=
  {| PortScanner.nmap_version := fun _ => PortScanner.FileNotFoundError;
     PortScanner.nmap_scan := fun _ => [] |}.

(** A host on which the nmap program may not be executed. *)
Definition locked_nmap : PortScanner.host :=
  {| PortScanner.nmap_version := fun _ => PortScanner.OtherError OSError;
     PortScanner.nmap_scan := fun _ => [] |}.

(** A target that greets with [text] on port 22 and is closed elsewhere. *)
Definition ssh_host (text : string) : ServiceDetector.network :=
  {| ServiceDetector.connect_ex := fun p =>
       if (p =? 22)%Z then Return 0%Z else Return 111%Z;
     ServiceDetector.recv_banner := fun _ => Return text |}.

(** A zone with two name servers that refuse the transfer, where [www]
    resolves and crt.sh knows one more name. *)
Definition refusing_zone : SubdomainDiscovery.network :=
  {| SubdomainDiscovery.lookup := fun _ name =>
       if String.eqb name "www.example.org" then Return "192.0.2.1"
       else Raise socket_gaierror;
     SubdomainDiscovery.resolve := fun _ => Return "192.0.2.1";
     SubdomainDiscovery.read_wordlist := fun _ => Return ["www"; "mail"];
     SubdomainDiscovery.resolve_ns :=
       Return ["ns1.example.org."; "ns2.example.org."];
     SubdomainDiscovery.xfr := fun _ => Raise DNSException;
     SubdomainDiscovery.crt_sh :=
       Return
         (200%Z,
          Return [SubdomainDiscovery.CtObject (Some "api.example.org")]) |}.

(** The zone of [refusing_zone] with a word list of two lines, "www"
    and "dev.": the second gives the name "dev..example.org", whose
    empty label makes [socket.gethostbyname] raise [UnicodeError] (the
    IDNA codec refuses an empty label and a label of more than 63
    characters). *)
Definition dotted_wordlist : SubdomainDiscovery.network :=
  {| SubdomainDiscovery.lookup := fun _ name =>
       if String.eqb name "www.example.org" then Return "192.0.2.1"
       else if String.eqb name "dev..example.org" then Raise UnicodeError
       else Raise socket_gaierror;
     SubdomainDiscovery.resolve := fun name =>
       if String.eqb name "www.example.org" then Return "192.0.2.1"
       else if String.eqb name "dev..example.org" then Raise UnicodeError
       else Raise socket_gaierror;
     SubdomainDiscovery.read_wordlist := fun _ => Return ["www"; "dev."];
     SubdomainDiscovery.resolve_ns :=
       Return ["ns1.example.org."; "ns2.example.org."];
     SubdomainDiscovery.xfr := fun _ => Raise DNSException;
     SubdomainDiscovery.crt_sh :=
       Return
         (200%Z,
          Return [SubdomainDiscovery.CtObject (Some "api.example.org")]) |}.

(** ** port_scanner.py: the nmap backend *)

Module NmapBackend.

(** What the code reads from one [<port>] element of the XML: the
    [state] attribute of its [<state>] child, if there is such a child,
    its own [portid] and [protocol] attributes, and the [name] attribute
    of its [<service>] child.  An attribute that is not there is
    [None]. *)
Record port_elem : Type := {
  elem_state : option (option string);
  elem_portid : option string;
  elem_protocol : option string;
  elem_service : option (option string)
}.

(** [ET.fromstring(xml_output)] followed by [findall('.//port')]: the
    port elements in document order, or [ET.ParseError]. *)
Inductive xml_doc : Type :=
  | ParseError
  | Parsed (ports : list port_elem).

Record nmap_entry : Type := {
  port : Z;
  protocol : option string;
  state : string;
  service : option string
}.

Definition is_open (el : port_elem) : bool :=
  match elem_state el with
  | Some (Some st) => String.eqb st "open"
  | _ => false
  end.

(** [int(port_id)]: [int(None)] is a [TypeError]. *)
Definition int_portid (el : port_elem) : result Z :=
  match elem_portid el with
  | Some port_id => Py.int port_id
  | None => Raise TypeError
  end.

Definition service_name (el : port_elem) : option string :=
  match elem_service el with
  | Some name => name
  | None => Some "unknown"
  end.

(** The loop of [_parse_nmap_output]: an exception of [int] is not an
    [ET.ParseError] and leaves the function. *)
Fixpoint parse_ports (ports : list port_elem) (open_ports : list nmap_entry)
  : result (list nmap_entry) :=
  match ports with
  | [] => Return open_ports
  | el :: rest =>
      if is_open el then
        port_id ← int_portid el;
        parse_ports rest
          (open_ports ++ [ {| port := port_id;
                              protocol := elem_protocol el;
                              state := "open";
                              service := service_name el |} ])
      else parse_ports rest open_ports
  end.

Definition _parse_nmap_output (doc : xml_doc) : result (list nmap_entry) :=
  match doc with
  | ParseError => Return []
  | Parsed ports => parse_ports ports []
  end.

(** [subprocess.run] of nmap on a port specification. *)
Inductive run_outcome : Type :=
  | Completed (stdout : string)
  | TimeoutExpired
  | Failed (e : exn).

Record tool : Type := {
  run : string -> run_outcome;
  fromstring : string -> xml_doc
}.

Definition _nmap_scan (t : tool) (ports : string) : list nmap_entry :=
  match run t ports with
  | Completed stdout =>
      match _parse_nmap_output (fromstring t stdout) with
      | Return open_ports => open_ports
      | Raise _ => []
      end
  | TimeoutExpired => []
  | Failed _ => []
  end.

End NmapBackend.

(** ** dns_enum.py *)

Module DNSEnumerator.

Inductive field : Type :=
  | FStr (s : string)
  | FInt (z : Z).

(** A record dictionary, with its keys in insertion order. *)
Definition record : Type := list (string * field).

(** One answer of the resolver: [str(rdata)] and the attributes that
    [_parse_record] reads, each of which may be missing. *)
Record rdata : Type := {
  text : result string;
  preference : result Z;
  exchange : result string;
  mname : result string;
  rname : result string;
  serial : result Z;
  refresh : result Z;
  retry : result Z;
  expire : result Z;
  minimum : result Z
}.

Definition record_types : list string :=
  ["A"; "AAAA"; "MX"; "NS"; "TXT"; "SOA"; "CNAME"; "PTR"].

Definition parse_record_body (record_type : string) (rd : rdata)
  : result record :=
  if String.eqb record_type "A" then
    address ← text rd;
    Return [("type", FStr "A"); ("address", FStr address)]
  else if String.eqb record_type "AAAA" then
    address ← text rd;
    Return [("type", FStr "AAAA"); ("address", FStr address)]
  else if String.eqb record_type "MX" then
    priority ← preference rd;
    exch ← exchange rd;
    Return [("type", FStr "MX"); ("priority", FInt priority);
            ("exchange", FStr exch)]
  else if String.eqb record_type "NS" then
    nameserver ← text rd;
    Return [("type", FStr "NS"); ("nameserver", FStr nameserver)]
  else if String.eqb record_type "TXT" then
    txt ← text rd;
    Return [("type", FStr "TXT"); ("text", FStr txt)]
  else if String.eqb record_type "SOA" then
    mn ← mname rd;
    rn ← rname rd;
    se ← serial rd;
    rf ← refresh rd;
    rt ← retry rd;
    ex ← expire rd;
    mi ← minimum rd;
    Return [("type", FStr "SOA"); ("mname", FStr mn); ("rname", FStr rn);
            ("serial", FInt se); ("refresh", FInt rf); ("retry", FInt rt);
            ("expire", FInt ex); ("minimum", FInt mi)]
  else if String.eqb record_type "CNAME" then
    target ← text rd;
    Return [("type", FStr "CNAME"); ("target", FStr target)]
  else if String.eqb record_type "PTR" then
    ptrdname ← text rd;
    Return [("type", FStr "PTR"); ("ptrdname", FStr ptrdname)]
  else
    data ← text rd;
    Return [("type", FStr record_type); ("data", FStr data)].

(** [_parse_record]: any exception gives [None]. *)
Definition _parse_record (record_type : string) (rd : rdata)
  : option record :=
  returned (parse_record_body record_type rd).

(** [if record_data:] is the truth value of a dictionary. *)
Definition truthy (r : record) : bool :=
  match r with
  | [] => false
  | _ :: _ => true
  end.

(** [resolve record_type] is [dns.resolver.resolve(target, record_type)];
    [NoAnswer], [NXDOMAIN], [Timeout] and the other exceptions differ in
    the message logged only. *)
Definition _query_record_type (resolve : string -> result (list rdata))
    (record_type : string) : list record :=
  match resolve record_type with
  | Return answers =>
      omap (fun rd =>
              match _parse_record record_type rd with
              | Some record_data =>
                  if truthy record_data then Some record_data else None
              | None => None
              end) answers
  | Raise _ => []
  end.

(** [d[k] = v] on a dictionary kept in insertion order. *)
Fixpoint dict_set {V} (k : string) (v : V) (d : list (string * V))
  : list (string * V) :=
  match d with
  | [] => [(k, v)]
  | (k', v') :: d' =>
      if String.eqb k' k then (k, v) :: d' else (k', v') :: dict_set k v d'
  end.

Fixpoint query_all (resolve : string -> result (list rdata))
    (types : list string) (records : list (string * list record))
  : list (string * list record) :=
  match types with
  | [] => records
  | record_type :: rest =>
      let found := _query_record_type resolve record_type in
      query_all resolve rest
        (match found with
         | [] => records
         | _ :: _ => dict_set record_type found records
         end)
  end.

(** The dictionary returned by [enumerate], without its target and
    timestamp. *)
Record enumerate_results : Type := {
  records : list (string * list record);
  total_records : nat
}.

Definition enumerate (resolve : string -> result (list rdata))
  : enumerate_results :=
  let recs := query_all resolve record_types [] in
  {| records := recs;
     total_records := foldr Nat.add 0 (map (fun kv => length kv.2) recs) |}.

End DNSEnumerator.

(** ** whois_lookup.py *)

Module WhoisLookup.

(** The values the code tells apart: [None], a list, an object with an
    [isoformat] method (given by what the method returns), and any
    other object. *)
Inductive pyobj : Type :=
  | PNone
  | PList (items : list pyobj)
  | PDateTime (iso : string)
  | PStr (s : string)
  | PObj (id : string).

(** [_safe_get]: [attr key] is [getattr(whois_obj, key, None)]. *)
Definition _safe_get (attr : string -> result pyobj) (key : string) : pyobj :=
  match attr key with
  | Return (PList items) =>
      match items with
      | [] => PNone
      | [item] => item
      | _ => PList items
      end
  | Return value => value
  | Raise _ => PNone
  end.

(** The end of [_format_date]: [isoformat()] when the value has that
    method, [str()] otherwise.  [str] is the interpreter's [str()]. *)
Definition format_one (str : pyobj -> string) (date_value : pyobj) : pyobj :=
  match date_value with
  | PDateTime iso => PStr iso
  | _ => PStr (str date_value)
  end.

(** [_format_date].  With an empty list [date_value[0]] raises, and the
    handler returns [str] of the list. *)
Definition _format_date (str : pyobj -> string) (date_value : pyobj)
  : pyobj :=
  match date_value with
  | PNone => PNone
  | PList [] => PStr (str date_value)
  | PList (first :: _) => format_one str first
  | _ => format_one str date_value
  end.

Record lookup_results : Type := {
  whois_data : list (string * pyobj);
  error : option string
}.

Definition date_keys : list string :=
  ["creation_date"; "expiration_date"; "updated_date"].

Definition whois_keys : list string :=
  [ "domain_name"; "registrar"; "creation_date"; "expiration_date";
    "updated_date"; "name_servers"; "status"; "emails"; "org"; "address";
    "city"; "state"; "country"; "registrant_postal_code" ].

(** [lookup], without the target and timestamp of the dictionary.
    [whois] is the outcome of [whois.whois(target)], an object given by
    its attributes, and [exn_str] is [str] of an exception. *)
Definition lookup (str : pyobj -> string) (exn_str : exn -> string)
    (whois : result (string -> result pyobj)) : lookup_results :=
  match whois with
  | Return w =>
      {| whois_data :=
           map (fun key =>
                  (key,
                   if bool_decide (key ∈ date_keys)
                   then _format_date str (_safe_get w key)
                   else _safe_get w key))
               whois_keys;
         error := None |}
  | Raise e => {| whois_data := []; error := Some (exn_str e) |}
  end.

End WhoisLookup.

(** ** output_handler.py: the tree writers *)

Module OutputHandler.

(** The result tree: a dictionary with string keys, a list, or any
    other value, which the writers only pass to [str()]. *)
Inductive pyval : Type :=
  | VAtom (id : string)
  | VList (items : list pyval)
  | VDict (entries : list (string * pyval)).

(** An [xml.etree] element. *)
Inductive element : Type :=
  | Element (tag : string) (text : option string) (children : list element).

Definition tag_of (e : element) : string :=
  match e with Element tag _ _ => tag end.

Definition children_of (e : element) : list element :=
  match e with Element _ _ children => children end.

(** [ET.SubElement(parent, ...)], once the new element is complete. *)
Definition add_child (parent child : element) : element :=
  match parent with
  | Element tag text children => Element tag text (children ++ [child])
  end.

Definition set_text (parent : element) (text : string) : element :=
  match parent with
  | Element tag _ children => Element tag (Some text) children
  end.

(** [s.replace(old, new)] for one-character [old] and [new]. *)
Fixpoint replace_char (old new : ascii) (s : string) : string :=
  match s with
  | EmptyString => EmptyString
  | String c s' =>
      String (if Ascii.eqb c old then new else c) (replace_char old new s')
  end.

Definition sanitize (key : string) : string :=
  replace_char "-" "_" (replace_char " " "_" key).

(** [_dict_to_xml]: the parent after the call.  [str] is the
    interpreter's [str()]. *)
Fixpoint _dict_to_xml (str : pyval -> string) (parent : element)
    (data : pyval) {struct data} : element :=
  match data with
  | VDict entries =>
      fold_left
        (fun parent '(key, value) =>
           let key := sanitize key in
           match value with
           | VList items =>
               add_child parent
                 (fold_left
                    (fun list_elem item =>
                       add_child list_elem
                         (_dict_to_xml str (Element "item" None []) item))
                    items (Element key None []))
           | VDict _ =>
               add_child parent (_dict_to_xml str (Element key None []) value)
           | VAtom _ => add_child parent (Element key (Some (str value)) [])
           end)
        entries parent
  | _ => set_text parent (str data)
  end.

(** ["  " * indent]. *)
Fixpoint indent_str (indent : nat) : string :=
  match indent with
  | O => EmptyString
  | S n => "  " ++ indent_str n
  end.

Definition nl : string := String "010" EmptyString.

(** [_write_dict_as_text]: the strings passed to [f.write], in order. *)
Fixpoint _write_dict_as_text (str : pyval -> string) (data : pyval)
    (indent : nat) {struct data} : list string :=
  match data with
  | VDict entries =>
      flat_map
        (fun '(key, value) =>
           match value with
           | VDict _ =>
               (indent_str indent ++ key ++ ":" ++ nl)
               :: _write_dict_as_text str value (indent + 1)
           | VList items =>
               (indent_str indent ++ key ++ ":" ++ nl)
               :: (fix each (i : nat) (items : list pyval) : list string :=
                     match items with
                     | [] => []
                     | item :: rest =>
                         app
                           match item with
                           | VDict _ =>
                               (indent_str indent ++ "  ["
                                ++ Py.str (Z.of_nat i) ++ "]" ++ nl)
                               :: _write_dict_as_text str item (indent + 2)
                           | _ =>
                               [indent_str indent ++ "  - " ++ str item ++ nl]
                           end
                           (each (S i) rest)
                     end) 1 items
           | VAtom _ => [indent_str indent ++ key ++ ": " ++ str value ++ nl]
           end)
        entries
  | _ => [indent_str indent ++ str data ++ nl]
  end.

(** Induction on a tree, with the hypothesis for every item and every
    value. *)
Definition pyval_induction (P : pyval -> Prop)
    (Hatom : forall id, P (VAtom id))
    (Hlist : forall items, Forall P items -> P (VList items))
    (Hdict : forall entries, Forall (fun kv => P kv.2) entries ->
                             P (VDict entries))
  : forall v, P v :=
  fix go (v : pyval) : P v :=
    match v with
    | VAtom id => Hatom id
    | VList items =>
        Hlist items
          ((fix all (l : list pyval) : Forall P l :=
              match l with
              | [] => @List.Forall_nil _ P
              | x :: l' => @List.Forall_cons _ P x l' (go x) (all l')
              end) items)
    | VDict entries =>
        Hdict entries
          ((fix all (l : list (string * pyval)) : Forall (fun kv => P kv.2) l :=
              match l with
              | [] => @List.Forall_nil _ (fun kv => P kv.2)
              | (k, x) :: l' =>
                  @List.Forall_cons _ (fun kv => P kv.2) (k, x) l' (go x)
                    (all l')
              end) entries)
    end.

(** A property of the tags of an element and of all its descendants. *)
Fixpoint all_tags (ok : string -> bool) (e : element) : bool :=
  match e with
  | Element tag _ children => ok tag && forallb (all_tags ok) children
  end.

Definition clean_tag (tag : string) : bool :=
  negb (Py.has_char " " tag) && negb (Py.has_char "-" tag).

End OutputHandler.

(** ** Definitions used in the further properties *)

(** Shapes of a pattern: no atom in the group; the atoms of the group
    first; the atoms of the group in one block. *)
Definition no_group (pat : list Re.atom) : bool :=
  forallb (fun a => negb (Re.grp a)) pat.

Fixpoint group_first (pat : list Re.atom) : bool :=
  match pat with
  | [] => true
  | a :: rest => if Re.grp a then group_first rest else no_group (a :: rest)
  end.

Fixpoint one_group (pat : list Re.atom) : bool :=
  match pat with
  | [] => true
  | a :: rest => if Re.grp a then group_first rest else one_group rest
  end.

(** The characters of the group are not line feeds. *)
Definition group_on_one_line (pat : list Re.atom) : Prop :=
  Forall (fun a => Re.grp a = true ->
                   forall c, Re.cls a c = true -> c ≠ "010"%char) pat.

(** Whitespace at the two ends of a string. *)
Definition starts_space (s : string) : bool :=
  match s with
  | EmptyString => false
  | String c _ => Py.isspace c
  end.

Fixpoint ends_space (s : string) : bool :=
  match s with
  | EmptyString => false
  | String c EmptyString => Py.isspace c
  | String _ s' => ends_space s'
  end.

(** The port number of an open element, when it has one. *)
Definition open_portid (el : NmapBackend.port_elem) : option Z :=
  if NmapBackend.is_open el then returned (NmapBackend.int_portid el)
  else None.

(** An nmap run whose XML has the given port elements. *)
Definition nmap_run (elems : list NmapBackend.port_elem) : NmapBackend.tool :=
  {| NmapBackend.run := fun _ => NmapBackend.Completed "<nmaprun/>";
     NmapBackend.fromstring := fun _ => NmapBackend.Parsed elems |}.

Definition port_element (st portid : string) : NmapBackend.port_elem :=
  {| NmapBackend.elem_state := Some (Some st);
     NmapBackend.elem_portid := Some portid;
     NmapBackend.elem_protocol := Some "tcp";
     NmapBackend.elem_service := None |}.

(** The record a type is stored with, if any. *)
Definition stored_records (resolve : string -> result (list DNSEnumerator.rdata))
    (record_type : string) : option (string * list DNSEnumerator.record) :=
  match DNSEnumerator._query_record_type resolve record_type with
  | [] => None
  | found => Some (record_type, found)
  end.

(** An answer with the given text and no other attribute. *)
Definition plain_rdata (txt : string) : DNSEnumerator.rdata :=
  {| DNSEnumerator.text := Return txt;
     DNSEnumerator.preference := Raise AttributeError;
     DNSEnumerator.exchange := Raise AttributeError;
     DNSEnumerator.mname := Raise AttributeError;
     DNSEnumerator.rname := Raise AttributeError;
     DNSEnumerator.serial := Raise AttributeError;
     DNSEnumerator.refresh := Raise AttributeError;
     DNSEnumerator.retry := Raise AttributeError;
     DNSEnumerator.expire := Raise AttributeError;
     DNSEnumerator.minimum := Raise AttributeError |}.

(** A zone with one address and one name server, and nothing else. *)
Definition small_zone (record_type : string)
  : result (list DNSEnumerator.rdata) :=
  if String.eqb record_type "A" then Return [plain_rdata "192.0.2.1"]
  else if String.eqb record_type "NS" then Return [plain_rdata "ns1.example.org."]
  else Raise DNSException.

(** * Sanity checks *)

Example parse_mixed :
  PortScanner._parse_port_range "22,80,1000-1003"
  = Return [22; 80; 1000; 1001; 1002; 1003]%Z.
Proof. reflexivity. Qed.

Example parse_dup : PortScanner._parse_port_range "80,80" = Return [80; 80]%Z.
Proof. reflexivity. Qed.

Example parse_rev : PortScanner._parse_port_range "30-20" = Return [].
Proof. reflexivity. Qed.

Example parse_big :
  PortScanner._parse_port_range "0,70000" = Return [0; 70000]%Z.
Proof. reflexivity. Qed.

Example parse_bad : PortScanner._parse_port_range "80,http" = Raise ValueError.
Proof. reflexivity. Qed.

Example parse_neg : PortScanner._parse_port_range "-5" = Raise ValueError.
Proof. reflexivity. Qed.

Example parse_ws :
  PortScanner._parse_port_range " 2_2 ,+80" = Return [22; 80]%Z.
Proof. reflexivity. Qed.

Example scan_one_open :
  PortScanner._custom_scan (quiet_host [22]%Z) (@rev _) "20-22,80" "syn"
  = (Return [entry_for "syn" 22],
     [PortScanner.Connect 20; PortScanner.Connect 21; PortScanner.Connect 22;
      PortScanner.Connect 80]).
Proof. reflexivity. Qed.

Example scan_udp_silent :
  (PortScanner._custom_scan (quiet_host [22]%Z) id "22" "udp").1 = Return [].
Proof. reflexivity. Qed.

Example version_triple :
  ServiceDetector._extract_version "Apache/2.4.41 (Ubuntu)" = "2.4.41".
Proof. by vm_compute. Qed.

Example version_labelled :
  ServiceDetector._extract_version "server Version: abc-v7 x" = "abc-v7".
Proof. by vm_compute. Qed.

Example version_first_line :
  ServiceDetector._extract_version "hello
world" = "hello".
Proof. by vm_compute. Qed.

Example identify_by_port :
  ServiceDetector._identify_service 3306 "" = "MySQL".
Proof. by vm_compute. Qed.

Example discover_refusing :
  (fun r => SubdomainDiscovery.subdomain <$> SubdomainDiscovery.subdomains r)
    <$> returned (SubdomainDiscovery.discover refusing_zone (@rev _) elements
                    "example.org" None ∅)
  = Some ["api.example.org"; "www.example.org"].
Proof. by vm_compute. Qed.

(** * Facts about the string primitives *)

Lemma has_char_app c s t :
  Py.has_char c (s ++ t) = Py.has_char c s || Py.has_char c t.
Proof.
  induction s as [|d s IH]; simpl; [done|].
  by rewrite IH, orb_assoc.
Qed.

Lemma split_nonempty sep s : Py.split sep s ≠ [].
Proof.
  destruct s as [|c s]; simpl; [done|].
  destruct (Ascii.eqb c sep); [done|]. by destruct (Py.split sep s).
Qed.

Lemma split_no_sep sep s : Py.has_char sep s = false -> Py.split sep s = [s].
Proof.
  induction s as [|c s IH]; simpl; [done|].
  intros [Hc Hs]%orb_false_elim. rewrite Hc, (IH Hs). done.
Qed.

Lemma split_app_sep sep s t :
  Py.has_char sep s = false ->
  Py.split sep (s ++ String sep t) = s :: Py.split sep t.
Proof.
  induction s as [|c s IH]; simpl.
  - intros _. by rewrite Ascii.eqb_refl.
  - intros [Hc Hs]%orb_false_elim. rewrite Hc, (IH Hs). done.
Qed.

Lemma split_join sep parts :
  parts ≠ [] ->
  Forall (fun p => Py.has_char sep p = false) parts ->
  Py.split sep (Py.join (String sep "") parts) = parts.
Proof.
  intros Hne Hall. induction Hall as [|p rest Hp Hrest IH]; [done|].
  destruct rest as [|q rest].
  - simpl. by apply split_no_sep.
  - change (Py.join (String sep "") (p :: q :: rest))
      with (p ++ String sep (Py.join (String sep "") (q :: rest))).
    rewrite split_app_sep by done. f_equal. by apply IH.
Qed.

(** A character of [s] other than the separator is in a piece of [s]. *)
Lemma split_has_char sep c s :
  c ≠ sep -> Py.has_char c s = true ->
  Exists (fun p => Py.has_char c p = true) (Py.split sep s).
Proof.
  intros Hne. induction s as [|d s IH]; simpl; [done|].
  intros Hc. destruct (Ascii.eqb_spec d sep) as [->|Hd].
  - apply Exists_cons_tl, IH.
    destruct (Ascii.eqb_spec sep c); [congruence|done].
  - pose proof (split_nonempty sep s) as Hs.
    destruct (Py.split sep s) as [|h t]; [done|].
    destruct (Ascii.eqb_spec d c) as [->|Hdc].
    + apply Exists_cons_hd. simpl. by rewrite Ascii.eqb_refl.
    + simpl in Hc. apply IH in Hc. inversion Hc; subst.
      * apply Exists_cons_hd. simpl. rewrite orb_true_iff. by right.
      * by apply Exists_cons_tl.
Qed.

(** ** [int] on decimal literals *)

Lemma string_of_uint_digits d : all_digits (NilEmpty.string_of_uint d) = true.
Proof. induction d; simpl; try done; by rewrite IHd. Qed.

Lemma all_digits_has_char c s :
  Py.isdigit c = false -> all_digits s = true -> Py.has_char c s = false.
Proof.
  intros Hc. induction s as [|d s IH]; simpl; [done|].
  intros [Hd Hs]%andb_prop. rewrite (IH Hs), orb_false_r.
  destruct (Ascii.eqb_spec d c); [congruence|done].
Qed.

Lemma scan_uint d acc n :
  Py.scan_digits (NilEmpty.string_of_uint d) false acc n
  = Some (uint_val d acc, n + nb_digits d, EmptyString).
Proof.
  revert acc n. induction d; intros acc n;
    [ simpl; by rewrite Nat.add_0_r
    | cbn [NilEmpty.string_of_uint Py.scan_digits uint_val nb_digits];
      change (Ascii.eqb _ "_") with false; cbv iota;
      match goal with
      | |- context [Py.digit_value ?c] =>
          let v := eval vm_compute in (Py.digit_value c) in
          change (Py.digit_value c) with v
      end; cbv iota; rewrite IHd, Nat.add_succ_r; reflexivity .. ].
Qed.

Lemma uint_val_pos d p : uint_val d (Z.pos p) = Z.pos (Pos.of_uint_acc d p).
Proof.
  revert p. induction d; intros p; simpl; [done|..];
    match goal with
    | |- uint_val _ ?a = Z.pos (Pos.of_uint_acc _ ?b) =>
        replace a with (Z.pos b) by lia; apply IHd
    end.
Qed.

Lemma uint_val_0 d : uint_val d 0 = Z.of_N (Pos.of_uint d).
Proof.
  induction d; simpl; [done| apply IHd |..];
    match goal with
    | |- uint_val _ ?a = Z.pos (Pos.of_uint_acc _ ?b) =>
        change a with (Z.pos b); apply uint_val_pos
    end.
Qed.

Lemma int_uint d :
  d ≠ Nil ->
  Py.int (NilEmpty.string_of_uint d) = Return (Z.of_N (Pos.of_uint d)).
Proof.
  intros Hd. rewrite <- uint_val_0.
  pose proof (scan_uint d 0 0) as Hscan.
  destruct d; [done|..];
    unfold Py.int;
    cbn [NilEmpty.string_of_uint Py.skip_c_space] in *;
    match goal with
    | |- context [Py.c_isspace ?c] =>
        let v := eval vm_compute in (Py.c_isspace c) in
        change (Py.c_isspace c) with v
    end; cbv iota;
    change (Ascii.eqb _ "+") with false;
    change (Ascii.eqb _ "-") with false; cbv beta iota zeta;
    rewrite Hscan; cbn [nb_digits Nat.add Py.all_c_space];
    f_equal; lia.
Qed.

Lemma str_nonneg z :
  (0 <= z)%Z ->
  exists d, d ≠ Nil /\ Py.str z = NilEmpty.string_of_uint d
            /\ Z.of_N (Pos.of_uint d) = z.
Proof.
  intros Hz. destruct z as [|p|p]; [| |lia].
  - by exists (D0 Nil).
  - exists (Pos.to_uint p).
    pose proof (DecimalPos.Unsigned.to_uint_nonnil p) as Hnil.
    split; [done|]. split.
    + unfold Py.str. simpl. unfold NilZero.string_of_uint.
      by destruct (Pos.to_uint p).
    + by rewrite DecimalPos.Unsigned.of_to.
Qed.

Lemma int_str z : (0 <= z)%Z -> Py.int (Py.str z) = Return z.
Proof.
  intros (d & Hd & -> & Hv)%str_nonneg. by rewrite int_uint, Hv.
Qed.

Lemma str_has_char c z :
  (0 <= z)%Z -> Py.isdigit c = false -> Py.has_char c (Py.str z) = false.
Proof.
  intros (d & _ & -> & _)%str_nonneg Hc.
  apply all_digits_has_char; [done|apply string_of_uint_digits].
Qed.

Lemma range_seqZ a b : Py.range a b = seqZ a (b - a).
Proof.
  unfold Py.range, seqZ. apply map_ext. intros i. lia.
Qed.

Lemma implied_covers it p : p ∈ implied it <-> covers it p.
Proof.
  destruct it as [q|a b]; simpl.
  - by rewrite list_elem_of_singleton.
  - rewrite elem_of_seqZ. lia.
Qed.

Lemma render_item_no_comma it :
  nonneg_item it -> Py.has_char "," (render_item it) = false.
Proof.
  destruct it as [p|a b]; simpl.
  - intros Hp. by apply str_has_char.
  - intros [Ha Hb]. rewrite has_char_app.
    change ("-" ++ Py.str b) with (String "-" (Py.str b)). simpl.
    by rewrite !str_has_char by done.
Qed.

Lemma parse_part_render it :
  nonneg_item it ->
  PortScanner.parse_part (render_item it) = Return (implied it).
Proof.
  destruct it as [p|a b]; simpl; unfold PortScanner.parse_part.
  - intros Hp. rewrite str_has_char by done. by rewrite int_str.
  - intros [Ha Hb]. rewrite has_char_app.
    change ("-" ++ Py.str b) with (String "-" (Py.str b)).
    simpl. rewrite orb_true_r.
    rewrite split_app_sep, split_no_sep by by apply str_has_char.
    rewrite !int_str by done. simpl. rewrite range_seqZ.
    do 2 f_equal. lia.
Qed.

Lemma parse_parts_render items port_list :
  Forall nonneg_item items ->
  PortScanner.parse_parts (map render_item items) port_list
  = Return (port_list ++ (items ≫= implied))%list.
Proof.
  intros Hall. revert port_list.
  induction Hall as [|it items Hit _ IH]; intros port_list; simpl.
  - by rewrite app_nil_r.
  - rewrite parse_part_render by done. simpl. rewrite IH.
    by rewrite <- app_assoc.
Qed.

Lemma parse_render items :
  items ≠ [] -> Forall nonneg_item items ->
  PortScanner._parse_port_range (render items) = Return (items ≫= implied).
Proof.
  intros Hne Hall. unfold PortScanner._parse_port_range, render.
  rewrite split_join.
  - by rewrite parse_parts_render.
  - by destruct items.
  - apply Forall_fmap. eapply Forall_impl; [done|].
    intros it Hit. by apply render_item_no_comma.
Qed.

(** ** Literals that [int] refuses *)

Lemma skip_c_space_has_char c s :
  Py.has_char c s = true ->
  Py.c_isspace c = true \/ Py.has_char c (Py.skip_c_space s) = true.
Proof.
  induction s as [|d s IH]; simpl; [done|].
  destruct (Py.c_isspace d) eqn:Hd; [|by right].
  destruct (Ascii.eqb_spec d c) as [->|_]; [by left|]. simpl. apply IH.
Qed.

Lemma all_c_space_has_char c s :
  Py.all_c_space s = true -> Py.has_char c s = true -> Py.c_isspace c = true.
Proof.
  induction s as [|d s IH]; simpl; [done|].
  intros [Hd Hs]%andb_prop.
  destruct (Ascii.eqb_spec d c) as [->|_]; [done|]. simpl. by apply IH.
Qed.

Lemma scan_digits_has_char c s prev_us acc n v n' rest :
  Py.scan_digits s prev_us acc n = Some (v, n', rest) ->
  Py.has_char c s = true ->
  Py.isdigit c = true \/ Ascii.eqb c "_" = true \/ Py.has_char c rest = true.
Proof.
  revert prev_us acc n. induction s as [|d s IH]; intros prev_us acc n; [done|].
  cbn [Py.scan_digits Py.has_char].
  destruct (Ascii.eqb_spec d c) as [->|_]; cbn [orb].
  - destruct (Ascii.eqb c "_") eqn:Hus; [by auto|].
    unfold Py.isdigit. destruct (Py.digit_value c); [by auto|].
    destruct prev_us; [done|]. intros [= <- <- <-] _.
    right; right. simpl. by rewrite Ascii.eqb_refl.
  - destruct (Ascii.eqb d "_").
    + destruct prev_us; [done|]. apply IH.
    + destruct (Py.digit_value d); [apply IH|].
      destruct prev_us; [done|]. intros [= <- <- <-] Hc.
      right; right. simpl. by rewrite Hc, orb_true_r.
Qed.

Lemma int_numeric s v c :
  Py.int s = Return v -> Py.has_char c s = true -> numeric_char c = true.
Proof.
  unfold Py.int, numeric_char. intros Hint Hc.
  apply skip_c_space_has_char in Hc as [->|Hc]; [by rewrite !orb_true_r|].
  set (s1 := Py.skip_c_space s) in *. clearbody s1.
  assert (forall sign s2,
    (if String.prefix "_" s2 then Raise ValueError else
     match Py.scan_digits s2 false 0 0 with
     | Some (v, S _, rest) =>
         if Py.all_c_space rest then Return (sign * v)%Z else Raise ValueError
     | _ => Raise ValueError
     end) = Return v ->
    Py.has_char c s2 = true ->
    Py.isdigit c || Py.c_isspace c || Ascii.eqb c "_" = true) as Hbody.
  { intros sign s2 H2 Hc2. destruct (String.prefix "_" s2); [done|].
    destruct (Py.scan_digits s2 false 0 0) as [[[v' [|n']] rest]|] eqn:Hscan;
      [done| |done].
    destruct (Py.all_c_space rest) eqn:Hrest; [|done].
    destruct (scan_digits_has_char c _ _ _ _ _ _ _ Hscan Hc2) as [->|[->|Hr]];
      [done|by rewrite orb_true_r|].
    by rewrite (all_c_space_has_char _ _ Hrest Hr), orb_true_r. }
  destruct s1 as [|d r]; [done|].
  destruct (Ascii.eqb_spec d "+") as [->|Hplus];
    [|destruct (Ascii.eqb_spec d "-") as [->|Hminus]].
  - cbn [Py.has_char] in Hc.
    destruct (Ascii.eqb_spec "+"%char c) as [<-|_]; [done|].
    cbn [orb] in Hc. pose proof (Hbody _ _ Hint Hc) as Hb.
    by destruct (Py.isdigit c), (Py.c_isspace c), (Ascii.eqb c "_"),
      (Ascii.eqb c "+"), (Ascii.eqb c "-").
  - cbn [Py.has_char] in Hc.
    destruct (Ascii.eqb_spec "-"%char c) as [<-|_]; [done|].
    cbn [orb] in Hc. pose proof (Hbody _ _ Hint Hc) as Hb.
    by destruct (Py.isdigit c), (Py.c_isspace c), (Ascii.eqb c "_"),
      (Ascii.eqb c "+"), (Ascii.eqb c "-").
  - pose proof (Hbody _ _ Hint Hc) as Hb.
    by destruct (Py.isdigit c), (Py.c_isspace c), (Ascii.eqb c "_"),
      (Ascii.eqb c "+"), (Ascii.eqb c "-").
Qed.

Lemma int_raises s e : Py.int s = Raise e -> e = ValueError.
Proof.
  unfold Py.int.
  destruct (Py.skip_c_space s) as [|c r];
    [|destruct (Ascii.eqb c "+"); [|destruct (Ascii.eqb c "-")]];
    (match goal with |- context [String.prefix "_" ?s2] =>
       destruct (String.prefix "_" s2); [congruence|];
       destruct (Py.scan_digits s2 false 0 0) as [[[v [|n]] rest]|];
         [congruence| |congruence];
       destruct (Py.all_c_space rest); congruence
     end).
Qed.

Lemma parse_part_raises part e :
  PortScanner.parse_part part = Raise e -> e = ValueError.
Proof.
  unfold PortScanner.parse_part. destruct (Py.has_char "-" part).
  - destruct (Py.split "-" part) as [|a [|b [|? ?]]]; try congruence.
    destruct (Py.int a) eqn:Ha; simpl;
      [|intros [= <-]; by eapply int_raises].
    destruct (Py.int b) eqn:Hb; simpl;
      [done|intros [= <-]; by eapply int_raises].
  - destruct (Py.int part) eqn:Hp; simpl;
      [done|intros [= <-]; by eapply int_raises].
Qed.

Lemma parse_part_numeric part ps c :
  PortScanner.parse_part part = Return ps -> Py.has_char c part = true ->
  numeric_char c = true.
Proof.
  unfold PortScanner.parse_part. destruct (Py.has_char "-" part) eqn:Hdash.
  - destruct (Py.split "-" part) as [|a [|b [|? ?]]] eqn:Hsplit; try done.
    destruct (Py.int a) eqn:Ha; simpl; [|done].
    destruct (Py.int b) eqn:Hb; simpl; [|done].
    intros _ Hc. destruct (Ascii.eqb_spec c "-") as [->|Hne]; [done|].
    pose proof (split_has_char "-" c part Hne Hc) as Hex.
    rewrite Hsplit in Hex.
    apply Exists_cons in Hex as [Hin|Hex]; [exact (int_numeric _ _ _ Ha Hin)|].
    apply Exists_cons in Hex as [Hin|Hex]; [exact (int_numeric _ _ _ Hb Hin)|].
    by apply Exists_nil in Hex.
  - destruct (Py.int part) eqn:Hp; simpl; [|done].
    intros _ Hc. exact (int_numeric _ _ _ Hp Hc).
Qed.

Lemma parse_parts_raise parts port_list :
  Exists (fun part => exists e, PortScanner.parse_part part = Raise e) parts ->
  PortScanner.parse_parts parts port_list = Raise ValueError.
Proof.
  intros Hex. revert port_list.
  induction parts as [|part rest IH]; intros port_list.
  - by apply Exists_nil in Hex.
  - simpl. destruct (PortScanner.parse_part part) as [ps|e] eqn:Hpart; simpl.
    + apply Exists_cons in Hex as [[e He]|Hex]; [congruence|]. by apply IH.
    + by rewrite (parse_part_raises _ _ Hpart).
Qed.

Lemma parse_non_numeric ports c :
  Py.has_char c ports = true -> numeric_char c = false -> c ≠ ","%char ->
  PortScanner._parse_port_range ports = Raise ValueError.
Proof.
  intros Hc Hnum Hne. unfold PortScanner._parse_port_range.
  apply parse_parts_raise.
  eapply Exists_impl; [by apply split_has_char|].
  intros part Hpart. simpl in Hpart.
  destruct (PortScanner.parse_part part) as [ps|e] eqn:Hparse; [|by eexists].
  pose proof (parse_part_numeric _ _ _ Hparse Hpart). congruence.
Qed.

(** * Claims about the port specification *)

(** C1, as the code has it.  For every port specification written as a
    non-empty comma-separated sequence of single ports and ranges
    ["a-b"] of non-negative numbers, [PortScanner._parse_port_range] returns the
    implied ports item by item, in the order written and with
    duplicates kept: a single port once, a range as [a..b] (nothing when
    [b < a]); these are exactly the ports the items cover, and they lie
    in [1, 65535] when the numbers written do.  A specification with a
    character that no integer literal contains, or with a part that
    the parser refuses, makes [_custom_scan] raise [ValueError] before
    any socket call. *)
Theorem parse_port_range_spec :
  (forall items : list port_item,
     items ≠ [] -> Forall nonneg_item items ->
     PortScanner._parse_port_range (render items) = Return (items ≫= implied)
     /\ (forall p, p ∈ (items ≫= implied)
                   <-> exists it, it ∈ items /\ covers it p)
     /\ (Forall in_range_item items ->
         Forall (fun p => 1 <= p <= 65535)%Z (items ≫= implied)))
  /\ (forall net as_completed ports scan_type c,
        Py.has_char c ports = true -> numeric_char c = false ->
        c ≠ ","%char ->
        PortScanner._custom_scan net as_completed ports scan_type
        = (Raise ValueError, []))
  /\ (forall net as_completed ports scan_type part e,
        part ∈ Py.split "," ports ->
        PortScanner.parse_part part = Raise e ->
        PortScanner._custom_scan net as_completed ports scan_type
        = (Raise ValueError, [])).
Proof.
  split; [|split].
  - intros items Hne Hall.
    assert (forall p, p ∈ (items ≫= implied)
                      <-> exists it, it ∈ items /\ covers it p) as Hcov.
    { intros p. rewrite list_elem_of_bind.
      split; intros (it & H1 & H2); exists it.
      - by rewrite <- implied_covers.
      - by rewrite implied_covers. }
    split; [by apply parse_render|]. split; [done|].
    intros Hrange. apply Forall_forall. intros p (it & Hit & Hp)%Hcov.
    rewrite Forall_forall in Hrange. specialize (Hrange _ Hit).
    destruct it as [q|a b]; simpl in *; lia.
  - intros net as_completed ports scan_type c Hc Hnum Hne.
    unfold PortScanner._custom_scan.
    by rewrite (parse_non_numeric _ _ Hc Hnum Hne).
  - intros net as_completed ports scan_type part e Hin Hpart.
    unfold PortScanner._custom_scan, PortScanner._parse_port_range.
    rewrite parse_parts_raise; [done|].
    apply Exists_exists. exists part. eauto.
Qed.

Lemma parse_port_range_spec_witness :
  (PortScanner._parse_port_range "22,80-82,22" = Return [22; 80; 81; 82; 22]%Z
   /\ Forall (fun p => 1 <= p <= 65535)%Z [22; 80; 81; 82; 22]%Z)
  /\ forall net as_completed,
       PortScanner._custom_scan net as_completed "80,http" "tcp"
       = (Raise ValueError, []).
Proof.
  destruct parse_port_range_spec as (Hvalid & Hbad & _). split.
  - destruct (Hvalid [Single 22; Span 80 82; Single 22]) as (H1 & _ & H3).
    + discriminate.
    + repeat constructor; simpl; lia.
    + split; [exact H1|]. apply H3. repeat constructor; simpl; lia.
  - intros net as_completed.
    apply (Hbad net as_completed "80,http" "tcp" "h"%char);
      [reflexivity|reflexivity|discriminate].
Defined.

(** C1 as stated fails: a port named twice is returned twice, and
    neither a port outside [1, 65535] nor a range with [b < a] is
    refused. *)
Lemma parse_port_range_keeps_all :
  (exists l, PortScanner._parse_port_range "80,80" = Return l /\ ~ NoDup l)
  /\ (exists l, PortScanner._parse_port_range "0,70000" = Return l
                /\ ~ Forall (fun p => 1 <= p <= 65535)%Z l)
  /\ (exists l, PortScanner._parse_port_range "30-20" = Return l).
Proof.
  split; [|split].
  - exists [80; 80]%Z. split; [reflexivity|].
    intros Hnd. apply NoDup_cons in Hnd as [Hnin _].
    apply Hnin. by apply list_elem_of_singleton.
  - exists [0; 70000]%Z. split; [reflexivity|].
    intros Hall. apply Forall_cons in Hall as [? _]. lia.
  - by exists [].
Qed.

(** * Facts about [sorted] *)

Section Sorted.
Context {A : Type} (le : A -> A -> bool).

Hypothesis le_total : forall x y, le x y = true \/ le y x = true.
Hypothesis le_trans : forall x y z,
  le x y = true -> le y z = true -> le x z = true.

Lemma insort_perm x l : insort le x l ≡ₚ x :: l.
Proof.
  induction l as [|y l IH]; simpl; [done|].
  destruct (le x y); [done|]. by rewrite IH, Permutation_swap.
Qed.

Lemma sorted_perm l : sorted le l ≡ₚ l.
Proof.
  induction l as [|x l IH]; simpl; [done|].
  by rewrite insort_perm, IH.
Qed.

Lemma insort_HdRel a x l :
  le_rel le a x -> HdRel (le_rel le) a l -> HdRel (le_rel le) a (insort le x l).
Proof.
  intros Hax Hal. destruct l as [|y l]; simpl; [by constructor|].
  destruct (le x y); constructor; [done|]. by inversion Hal.
Qed.

Lemma insort_Sorted x l :
  Sorted (le_rel le) l -> Sorted (le_rel le) (insort le x l).
Proof.
  induction 1 as [|y l Hl IH Hhd]; simpl; [by repeat constructor|].
  destruct (le x y) eqn:Hxy.
  - by repeat constructor.
  - constructor; [done|]. apply insort_HdRel; [|done].
    by destruct (le_total x y) as [Hle|Hle]; [congruence|].
Qed.

Lemma sorted_Sorted l : Sorted (le_rel le) (sorted le l).
Proof.
  induction l as [|x l IH]; simpl; [constructor|]. by apply insort_Sorted.
Qed.

(** The result depends on the elements only, when elements the order
    does not tell apart are equal. *)
Lemma sorted_unique l1 l2 :
  l1 ≡ₚ l2 ->
  (forall x y,
     x ∈ l1 -> y ∈ l1 -> le x y = true -> le y x = true -> x = y) ->
  sorted le l1 = sorted le l2.
Proof.
  intros Hperm Hanti.
  assert (Transitive (le_rel le)) by (intros x y z; apply le_trans).
  apply (Sorted_unique_strong (le_rel le)); [|apply sorted_Sorted..|].
  - intros x y Hx Hy. rewrite sorted_perm in Hx.
    rewrite sorted_perm, <- Hperm in Hy. by apply Hanti.
  - by rewrite !sorted_perm.
Qed.
End Sorted.

Lemma sorted_by_key_perm {A} (key : A -> Z) l : sorted_by_key key l ≡ₚ l.
Proof. apply sorted_perm. Qed.

Lemma sorted_by_key_Sorted {A} (key : A -> Z) l :
  Sorted Z.le (key <$> sorted_by_key key l).
Proof.
  apply (Sorted_fmap key (le_rel (fun x y => (key x <=? key y)%Z))).
  - intros x y. unfold le_rel. lia.
  - apply sorted_Sorted. intros x y. lia.
Qed.

Lemma sorted_by_key_unique {A} (key : A -> Z) l1 l2 :
  l1 ≡ₚ l2 ->
  (forall x y, x ∈ l1 -> y ∈ l1 -> key x = key y -> x = y) ->
  sorted_by_key key l1 = sorted_by_key key l2.
Proof.
  intros Hperm Hinj. apply sorted_unique; [lia|lia|done|].
  intros x y Hx Hy Hxy Hyx. apply Hinj; [done..|lia].
Qed.

(** ** The order of strings *)

Lemma string_leb_trans s1 s2 s3 :
  String.leb s1 s2 = true -> String.leb s2 s3 = true -> String.leb s1 s3 = true.
Proof.
  intros H12%Is_true_true H23%Is_true_true. apply Is_true_true.
  by apply (transitivity (R:=String.le) H12).
Qed.

(** Sorting a set of strings gives one list, whatever the order in
    which the set is iterated, and that list has no repetition. *)
Lemma sorted_set_unique (X : gset string) (l1 l2 : list string) :
  l1 ≡ₚ elements X -> l2 ≡ₚ elements X ->
  sorted String.leb l1 = sorted String.leb l2.
Proof.
  intros H1 H2. apply sorted_unique.
  - apply String.leb_total.
  - apply string_leb_trans.
  - by rewrite H1, H2.
  - intros x y _ _. apply String.leb_antisym.
Qed.

Lemma sorted_set_NoDup (X : gset string) (l : list string) :
  l ≡ₚ elements X -> NoDup (sorted String.leb l).
Proof.
  intros Hl. rewrite sorted_perm, Hl. apply NoDup_elements.
Qed.

(** * Facts about the port scanner *)

Lemma scan_port_Some net i p scan_type e :
  (PortScanner._scan_port net i p scan_type).1 = Some e ->
  e = entry_for scan_type p.
Proof.
  unfold PortScanner._scan_port, entry_for.
  destruct (String.eqb scan_type "tcp" || String.eqb scan_type "syn").
  - destruct (PortScanner.new_socket net i); [|done].
    destruct (PortScanner.connect_ex net i p) as [code|]; [|done].
    simpl. destruct (code =? 0)%Z; [|done]. by intros [= <-].
  - destruct (String.eqb scan_type "udp"); [|done].
    destruct (PortScanner.new_socket net i); [|done].
    destruct (PortScanner.sendto net i p) as [|[]]; try done.
    destruct (PortScanner.recvfrom net i p) as [|[]]; try done.
    by intros [= <-].
Qed.

(** A probe makes each of its socket calls at most once. *)
Lemma scan_port_calls net i p scan_type :
  (PortScanner._scan_port net i p scan_type).2
  ∈ [ []; [PortScanner.Connect p]; [PortScanner.SendTo p];
      [PortScanner.SendTo p; PortScanner.RecvFrom p] ].
Proof.
  unfold PortScanner._scan_port.
  destruct (String.eqb scan_type "tcp" || String.eqb scan_type "syn").
  - destruct (PortScanner.new_socket net i); [|set_solver].
    destruct (PortScanner.connect_ex net i p); simpl; set_solver.
  - destruct (String.eqb scan_type "udp"); [|set_solver].
    destruct (PortScanner.new_socket net i); [|set_solver].
    destruct (PortScanner.sendto net i p) as [|[]]; try set_solver.
    destruct (PortScanner.recvfrom net i p) as [|[]]; set_solver.
Qed.

Lemma open_ports_elem net port_list scan_type e :
  e ∈ omap id ((PortScanner.submit_all net port_list scan_type).*1) ->
  exists i p, port_list !! i = Some p
              /\ (PortScanner._scan_port net i p scan_type).1 = Some e.
Proof.
  intros (o & Ho & Heq)%list_elem_of_omap. unfold id in Heq. subst o.
  apply list_elem_of_fmap in Ho as (fut & Hfut & Hin).
  apply elem_of_lookup_imap in Hin as (i & p & -> & Hp). eauto.
Qed.

Lemma open_ports_entry net port_list scan_type e :
  e ∈ omap id ((PortScanner.submit_all net port_list scan_type).*1) ->
  e = entry_for scan_type (PortScanner.port e).
Proof.
  intros (i & p & _ & ->%scan_port_Some)%open_ports_elem. done.
Qed.

Lemma open_ports_sublist
    (f : nat -> Z -> option PortScanner.port_entry * list PortScanner.net_call)
    (port_list : list Z) :
  (forall i p e, (f i p).1 = Some e -> PortScanner.port e = p) ->
  PortScanner.port <$> omap id ((imap f port_list).*1) `sublist_of` port_list.
Proof.
  revert f. induction port_list as [|p port_list IH]; intros f Hf; [done|].
  rewrite imap_cons. cbn [fmap list_fmap omap list_omap].
  specialize (IH (f ∘ S) (fun i => Hf (S i))).
  destruct (f 0 p).1 as [e|] eqn:He; simpl.
  - rewrite (Hf _ _ _ He). by apply sublist_skip.
  - by apply sublist_cons.
Qed.

(** With a port specification that parses, [_custom_scan] returns: the
    findings of the probes, whatever the other probes ran into, and the
    socket calls of each probe once. *)
Lemma custom_scan_returns net as_completed ports scan_type port_list :
  (forall l, as_completed l ≡ₚ l) ->
  PortScanner._parse_port_range ports = Return port_list ->
  exists l,
    PortScanner._custom_scan net as_completed ports scan_type
    = (Return l, concat ((PortScanner.submit_all net port_list scan_type).*2))
    /\ l ≡ₚ omap id ((PortScanner.submit_all net port_list scan_type).*1).
Proof.
  intros Hperm Hparse. unfold PortScanner._custom_scan. rewrite Hparse.
  eexists. split; [done|]. by rewrite sorted_by_key_perm, Hperm.
Qed.

Lemma custom_scan_order net as1 as2 ports scan_type :
  (forall l, as1 l ≡ₚ l) -> (forall l, as2 l ≡ₚ l) ->
  PortScanner._custom_scan net as1 ports scan_type
  = PortScanner._custom_scan net as2 ports scan_type.
Proof.
  intros H1 H2. unfold PortScanner._custom_scan.
  destruct (PortScanner._parse_port_range ports) as [port_list|]; [|done].
  do 2 f_equal. apply sorted_by_key_unique.
  - by rewrite H1, H2.
  - intros x y Hx Hy Hxy. rewrite H1 in Hx, Hy.
    rewrite (open_ports_entry _ _ _ _ Hx), (open_ports_entry _ _ _ _ Hy).
    by rewrite Hxy.
Qed.

Lemma custom_scan_Sorted net as_completed ports scan_type l :
  (PortScanner._custom_scan net as_completed ports scan_type).1 = Return l ->
  Sorted Z.le (PortScanner.port <$> l).
Proof.
  unfold PortScanner._custom_scan.
  destruct (PortScanner._parse_port_range ports); [|done].
  intros [= <-]. apply sorted_by_key_Sorted.
Qed.

(** * Facts about subdomain discovery *)

Lemma collect_perm completed1 completed2 found :
  completed1 ≡ₚ completed2 ->
  returned (SubdomainDiscovery.collect completed1 found)
  = returned (SubdomainDiscovery.collect completed2 found).
Proof.
  intros Hperm. revert found.
  induction Hperm as [|r l1 l2 _ IH|r1 r2 l|l1 l2 l3 _ IH1 _ IH2];
    intros found.
  - done.
  - destruct r as [[d|]|]; simpl; [destruct (String.eqb d "")|..];
      by rewrite ?IH.
  - destruct r1 as [[d1|]|], r2 as [[d2|]|]; simpl;
      repeat match goal with
             | |- context [String.eqb ?d ""] => destruct (String.eqb d "")
             end; try done.
    by rewrite !(assoc_L (∪)), (comm_L (∪) {[d2]}).
  - by rewrite IH1, IH2.
Qed.

(** When no probe raised, [collect] returns, with the names found. *)
Lemma collect_returns completed found :
  Forall (fun r => exists o, r = Return o) completed ->
  exists found',
    SubdomainDiscovery.collect completed found = Return found'
    /\ forall d, d ∈ found' <->
                 d ∈ found \/ (Return (Some d) ∈ completed /\ d ≠ "").
Proof.
  intros Hall. revert found.
  induction Hall as [|r completed [o ->] _ IH]; intros found.
  - exists found. split; [done|]. intros d. rewrite elem_of_nil. tauto.
  - destruct o as [d0|]; simpl.
    + destruct (String.eqb_spec d0 "") as [->|Hne].
      * destruct (IH found) as (found' & -> & Hfound').
        exists found'. split; [done|]. intros d. rewrite Hfound'.
        rewrite elem_of_cons. naive_solver.
      * destruct (IH ({[d0]} ∪ found)) as (found' & -> & Hfound').
        exists found'. split; [done|]. intros d. rewrite Hfound'.
        rewrite elem_of_cons, elem_of_union, elem_of_singleton.
        naive_solver.
    + destruct (IH found) as (found' & -> & Hfound').
      exists found'. split; [done|]. intros d. rewrite Hfound'.
      rewrite elem_of_cons. naive_solver.
Qed.

Lemma full_domain_nonempty sub target : sub ++ "." ++ target ≠ "".
Proof. by destruct sub. Qed.

Lemma test_subdomain_found net target i sub d :
  SubdomainDiscovery._test_subdomain net target i sub = Return (Some d)
  <-> d = sub ++ "." ++ target
      /\ exists ip, SubdomainDiscovery.lookup net i d = Return ip.
Proof.
  unfold SubdomainDiscovery._test_subdomain.
  destruct (SubdomainDiscovery.lookup net i (sub ++ "." ++ target))
    as [ip|e] eqn:Hl.
  - split.
    + intros [= <-]. eauto.
    + by intros [-> _].
  - split.
    + by destruct e.
    + intros [-> [ip Hip]]. congruence.
Qed.

Lemma brute_force_returns net as_completed target wordlist found :
  (forall l, as_completed l ≡ₚ l) ->
  (forall i name e, SubdomainDiscovery.lookup net i name = Raise e ->
                    e = socket_gaierror) ->
  exists found',
    SubdomainDiscovery._brute_force_subdomains net as_completed target
      wordlist found = Return found'
    /\ forall d, d ∈ found' <->
         d ∈ found \/
         exists i sub ip,
           SubdomainDiscovery.load_wordlist net wordlist !! i = Some sub
           /\ d = sub ++ "." ++ target
           /\ SubdomainDiscovery.lookup net i d = Return ip.
Proof.
  intros Hperm Hgai. unfold SubdomainDiscovery._brute_force_subdomains.
  set (subs := SubdomainDiscovery.load_wordlist net wordlist).
  set (futures := imap (SubdomainDiscovery._test_subdomain net target) subs).
  destruct (collect_returns (as_completed futures) found)
    as (found' & Hret & Hfound').
  { rewrite Hperm. apply Forall_forall. intros r Hr.
    apply elem_of_lookup_imap in Hr as (i & sub & -> & _).
    unfold SubdomainDiscovery._test_subdomain.
    destruct (SubdomainDiscovery.lookup net i (sub ++ "." ++ target))
      as [ip|e] eqn:Hl; [by eexists|].
    rewrite (Hgai _ _ _ Hl). by eexists. }
  exists found'. split; [done|]. intros d. rewrite Hfound', Hperm.
  unfold futures. rewrite elem_of_lookup_imap.
  split; (intros [?|H]; [by left|right]).
  - destruct H as [(i & sub & Ht & Hsub) _]. symmetry in Ht.
    apply test_subdomain_found in Ht as [-> [ip Hip]]. by exists i, sub, ip.
  - destruct H as (i & sub & ip & Hsub & -> & Hip). split.
    + exists i, sub. split; [|done]. symmetry.
      apply test_subdomain_found. eauto.
    + apply full_domain_nonempty.
Qed.

Lemma transfer_refused net target ns_records found :
  Forall (fun ns => exists e, SubdomainDiscovery.xfr net ns = Raise e)
         ns_records ->
  SubdomainDiscovery.transfer_from net target ns_records found
  = (found, ns_records).
Proof.
  induction 1 as [|ns rest [e He] _ IH]; simpl; [done|].
  by rewrite He, IH.
Qed.

Lemma transfer_from_grows net target ns_records found :
  found ⊆ (SubdomainDiscovery.transfer_from net target ns_records found).1.
Proof.
  revert found.
  induction ns_records as [|ns rest IH]; intros found; simpl; [done|].
  match goal with
  | |- context [SubdomainDiscovery.transfer_from net target rest ?f] =>
      specialize (IH f);
      destruct (SubdomainDiscovery.transfer_from net target rest f)
        as [found'' asked]
  end.
  simpl in *. destruct (SubdomainDiscovery.xfr net ns); set_solver.
Qed.

Lemma compile_results_names net set_iter found :
  SubdomainDiscovery.subdomain
    <$> SubdomainDiscovery.subdomains
          (SubdomainDiscovery.compile_results net set_iter found)
  = sorted String.leb (set_iter found).
Proof.
  unfold SubdomainDiscovery.compile_results. simpl.
  rewrite <- list_fmap_compose. apply list_fmap_id.
Qed.

Lemma compile_results_order net it1 it2 found :
  (forall X, it1 X ≡ₚ elements X) -> (forall X, it2 X ≡ₚ elements X) ->
  SubdomainDiscovery.compile_results net it1 found
  = SubdomainDiscovery.compile_results net it2 found.
Proof.
  intros H1 H2. unfold SubdomainDiscovery.compile_results.
  by rewrite (sorted_set_unique found (it1 found) (it2 found)).
Qed.

Lemma discover_order net as1 as2 it1 it2 target wordlist found :
  (forall l, as1 l ≡ₚ l) -> (forall l, as2 l ≡ₚ l) ->
  (forall X, it1 X ≡ₚ elements X) -> (forall X, it2 X ≡ₚ elements X) ->
  returned (SubdomainDiscovery.discover net as1 it1 target wordlist found)
  = returned (SubdomainDiscovery.discover net as2 it2 target wordlist found).
Proof.
  intros Ha1 Ha2 Hi1 Hi2. unfold SubdomainDiscovery.discover.
  unfold SubdomainDiscovery._brute_force_subdomains.
  set (futures := imap _ _).
  assert (as1 futures ≡ₚ as2 futures) as Hperm by by rewrite Ha1, Ha2.
  pose proof (collect_perm _ _ found Hperm) as Hc.
  destruct (SubdomainDiscovery.collect (as1 futures) found) as [f1|],
    (SubdomainDiscovery.collect (as2 futures) found) as [f2|];
    simpl in Hc; try done.
  injection Hc as <-. simpl.
  destruct (SubdomainDiscovery._attempt_zone_transfer net target f1)
    as [[f2 asked]|]; simpl; [|done].
  destruct (SubdomainDiscovery._check_cert_transparency net target f2)
    as [f3|]; simpl; [|done].
  by rewrite (compile_results_order net it1 it2).
Qed.

Lemma discover_names net as_completed set_iter target wordlist found r :
  (forall X, set_iter X ≡ₚ elements X) ->
  SubdomainDiscovery.discover net as_completed set_iter target wordlist found
  = Return r ->
  exists X : gset string,
    SubdomainDiscovery.subdomain <$> SubdomainDiscovery.subdomains r
    = sorted String.leb (set_iter X).
Proof.
  intros Hit. unfold SubdomainDiscovery.discover.
  destruct (SubdomainDiscovery._brute_force_subdomains _ _ _ _ _) as [f1|];
    simpl; [|done].
  destruct (SubdomainDiscovery._attempt_zone_transfer net target f1)
    as [[f2 asked]|]; simpl; [|done].
  destruct (SubdomainDiscovery._check_cert_transparency net target f2)
    as [f3|]; simpl; [|done].
  intros [= <-]. exists f3. apply compile_results_names.
Qed.

(** * Facts about service identification *)

Lemma append_assoc (a b c : string) : (a ++ b) ++ c = a ++ (b ++ c).
Proof.
  induction a as [|x a IH]; [done|].
  change (String x ((a ++ b) ++ c) = String x (a ++ b ++ c)). by rewrite IH.
Qed.

Lemma append_cons x (a b : string) : String x a ++ b = String x (a ++ b).
Proof. reflexivity. Qed.

Lemma append_nil (b : string) : "" ++ b = b.
Proof. reflexivity. Qed.

Lemma prefix_spec a b :
  String.prefix a b = true <-> exists post, b = a ++ post.
Proof.
  revert b. induction a as [|x a IH]; intros b.
  - split; [by exists b|by destruct b].
  - destruct b as [|y b]; [split; [done|by intros [? ?]]|].
    cbn [String.prefix]. destruct (ascii_dec x y) as [->|Hne].
    + rewrite IH. split; intros [post Hpost]; exists post.
      * by rewrite append_cons, Hpost.
      * rewrite append_cons in Hpost. congruence.
    + split; [done|]. intros [post Hpost].
      rewrite append_cons in Hpost. congruence.
Qed.

Lemma contains_spec needle hay :
  Py.contains needle hay = true
  <-> exists pre post, hay = pre ++ needle ++ post.
Proof.
  induction hay as [|c hay IH]; cbn [Py.contains].
  - rewrite orb_false_r, prefix_spec. split.
    + intros [post Hpost]. by exists "", post.
    + intros ([|? ?] & post & Hpost); [by exists post|done].
  - rewrite orb_true_iff, prefix_spec, IH. split.
    + intros [[post Hpost]|(pre & post & ->)].
      * by exists "", post.
      * by exists (String c pre), post.
    + intros ([|x pre] & post & Hpost).
      * left. by exists post.
      * right. rewrite append_cons in Hpost.
        injection Hpost as -> ->. by exists pre, post.
Qed.

Lemma lower_app a b : Py.lower (a ++ b) = Py.lower a ++ Py.lower b.
Proof.
  induction a as [|x a IH]; [done|].
  rewrite append_cons. cbn [Py.lower]. by rewrite append_cons, IH.
Qed.

Lemma lower_split s a b :
  Py.lower s = a ++ b ->
  exists a' b', s = a' ++ b' /\ Py.lower a' = a /\ Py.lower b' = b.
Proof.
  revert s. induction a as [|x a IH]; intros s.
  - intros Hs. by exists "", s.
  - destruct s as [|y s]; [done|]. rewrite append_cons. cbn [Py.lower].
    intros [= Hx Hs].
    destruct (IH _ Hs) as (a' & b' & -> & Ha & Hb).
    exists (String y a'), b'. cbn [Py.lower]. by rewrite Hx, Ha.
Qed.

(** The test of the code is the case-insensitive substring test. *)
Lemma contains_lower kw banner :
  Py.contains kw (Py.lower banner) = true <-> keyword_match kw banner.
Proof.
  rewrite contains_spec. unfold keyword_match. split.
  - intros (pre & post & (pre' & rest & -> & Hpre & Hrest)%lower_split).
    apply lower_split in Hrest as (w & post' & -> & Hw & Hpost).
    by exists pre', w, post'.
  - intros (pre & w & post & -> & <-).
    exists (Py.lower pre), (Py.lower post). by rewrite !lower_app.
Qed.

Lemma identify_service_table p banner :
  ServiceDetector._identify_service p banner = identify_by_table p banner.
Proof.
  unfold ServiceDetector._identify_service, identify_by_table.
  destruct (String.eqb_spec banner "") as [->|_]; [done|].
  unfold keywords. cbn [list_find fst].
  repeat match goal with
         | |- context [Py.contains ?kw (Py.lower banner)] =>
             destruct (Py.contains kw (Py.lower banner));
             cbn [orb]; [reflexivity|]
         end.
  reflexivity.
Qed.

(** * Claims about the probes *)

(** C2.  A UDP probe whose exchange times out returns no finding, and a
    UDP probe returns a finding, which has state "open", only when the
    datagram was sent and a response was received. *)
Theorem udp_timeout_not_open net i p :
  (PortScanner.recvfrom net i p = Raise socket_timeout ->
   (PortScanner._scan_port net i p "udp").1 = None)
  /\ (PortScanner.sendto net i p = Raise socket_timeout ->
      (PortScanner._scan_port net i p "udp").1 = None)
  /\ (forall e, (PortScanner._scan_port net i p "udp").1 = Some e ->
        PortScanner.state e = "open"
        /\ PortScanner.sendto net i p = Return tt
        /\ exists data, PortScanner.recvfrom net i p = Return data).
Proof.
  unfold PortScanner._scan_port. cbn [String.eqb Ascii.eqb Bool.eqb orb].
  split; [|split].
  - intros ->. destruct (PortScanner.new_socket net i); [|done].
    by destruct (PortScanner.sendto net i p) as [|[]].
  - intros ->. by destruct (PortScanner.new_socket net i).
  - intros e. destruct (PortScanner.new_socket net i); [|done].
    destruct (PortScanner.sendto net i p) as [[]|[]]; try done.
    destruct (PortScanner.recvfrom net i p) as [data|[]]; try done.
    intros [= <-]. eauto.
Qed.

Lemma udp_timeout_not_open_witness :
  (PortScanner._scan_port (quiet_host [53]%Z) 0 53 "udp").1 = None.
Proof.
  apply (proj1 (udp_timeout_not_open (quiet_host [53]%Z) 0 53)).
  reflexivity.
Defined.

(** C9.  On the raw-socket path "syn" is "tcp": a probe, a custom scan
    and, when nmap is not found, the open ports and socket calls of
    [scan] are the same for both scan types. *)
Theorem syn_is_tcp_connect :
  (forall net i p,
     PortScanner._scan_port net i p "syn"
     = PortScanner._scan_port net i p "tcp")
  /\ (forall net as_completed ports,
        PortScanner._custom_scan net as_completed ports "syn"
        = PortScanner._custom_scan net as_completed ports "tcp")
  /\ (forall h net as_completed ports,
        PortScanner._check_nmap (PortScanner.nmap_version h 1)
        = Return false ->
        (PortScanner.scan h net as_completed ports "syn").2
        = (PortScanner.scan h net as_completed ports "tcp").2
        /\ PortScanner.open_ports
             <$> returned
                   (PortScanner.scan h net as_completed ports "syn").1
           = PortScanner.open_ports
               <$> returned
                     (PortScanner.scan h net as_completed ports "tcp").1).
Proof.
  assert (forall net as_completed ports,
            PortScanner._custom_scan net as_completed ports "syn"
            = PortScanner._custom_scan net as_completed ports "tcp") as Hcustom.
  { intros net as_completed ports. unfold PortScanner._custom_scan.
    by destruct (PortScanner._parse_port_range ports). }
  split; [done|]. split; [done|].
  intros h net as_completed ports Hnmap. unfold PortScanner.scan.
  rewrite Hnmap.
  destruct (PortScanner._check_nmap (PortScanner.nmap_version h 0));
    [|done].
  cbn [andb]. rewrite Hcustom.
  destruct (PortScanner._custom_scan net as_completed ports "tcp")
    as [[l|e] calls];
    done.
Qed.

Lemma syn_is_tcp_connect_witness :
  PortScanner.open_ports
    <$> returned
          (PortScanner.scan no_nmap (quiet_host [22]%Z) id "20-25" "syn").1
  = PortScanner.open_ports
      <$> returned
            (PortScanner.scan no_nmap (quiet_host [22]%Z) id "20-25" "tcp").1.
Proof.
  apply (proj2 (proj2 syn_is_tcp_connect) no_nmap (quiet_host [22]%Z) id
           "20-25").
  reflexivity.
Defined.

(** C10.  Every entry that a probe, the custom scan or the service
    detector reports has state "open", and is reported for a port that
    was found open: a probe returns an entry only when its connection
    returned the code 0 (or, with UDP, a datagram came back), and
    returns none when the connection is refused, filtered or fails;
    every entry of the custom scan is the finding of such a probe of
    one of the ports named; the service detector has an entry for a
    port only when its connection test succeeded. *)
Theorem reported_entries_are_open :
  (forall net i p scan_type e,
     (PortScanner._scan_port net i p scan_type).1 = Some e ->
     PortScanner.state e = "open"
     /\ PortScanner.port e = p
     /\ PortScanner.new_socket net i = Return tt
     /\ ((String.eqb scan_type "tcp" || String.eqb scan_type "syn" = true
          /\ PortScanner.connect_ex net i p = Return 0%Z)
         \/ (scan_type = "udp"
             /\ PortScanner.sendto net i p = Return tt
             /\ exists data, PortScanner.recvfrom net i p = Return data)))
  /\ (forall net i p scan_type,
        String.eqb scan_type "tcp" || String.eqb scan_type "syn" = true ->
        PortScanner.connect_ex net i p ≠ Return 0%Z ->
        (PortScanner._scan_port net i p scan_type).1 = None)
  /\ (forall net i p,
        (exists e, PortScanner.sendto net i p = Raise e)
        \/ (exists e, PortScanner.recvfrom net i p = Raise e) ->
        (PortScanner._scan_port net i p "udp").1 = None)
  /\ (forall net i p scan_type e,
        PortScanner.new_socket net i = Raise e ->
        (PortScanner._scan_port net i p scan_type).1 = None)
  /\ (forall net as_completed ports scan_type l e,
        (forall l, as_completed l ≡ₚ l) ->
        (PortScanner._custom_scan net as_completed ports scan_type).1
        = Return l ->
        e ∈ l ->
        PortScanner.state e = "open"
        /\ exists port_list i,
             PortScanner._parse_port_range ports = Return port_list
             /\ port_list !! i = Some (PortScanner.port e)
             /\ (PortScanner._scan_port net i (PortScanner.port e)
                   scan_type).1 = Some e)
  /\ (forall net p e,
        ServiceDetector._detect_service net p = Some e ->
        ServiceDetector.state e = "open"
        /\ ServiceDetector._is_port_open net p = true)
  /\ (forall net p,
        ServiceDetector._is_port_open net p = false ->
        ServiceDetector._detect_service net p = None)
  /\ (forall net ports e,
        e ∈ ServiceDetector.services (ServiceDetector.detect net ports) ->
        ServiceDetector.state e = "open"
        /\ ServiceDetector.port e ∈ default ServiceDetector.default_ports ports
        /\ ServiceDetector._is_port_open net (ServiceDetector.port e) = true).
Proof.
  assert (forall net p e,
            ServiceDetector._detect_service net p = Some e ->
            ServiceDetector.state e = "open"
            /\ ServiceDetector.port e = p
            /\ ServiceDetector._is_port_open net p = true) as Hdet.
  { intros net p e. unfold ServiceDetector._detect_service.
    destruct (ServiceDetector._is_port_open net p); [|done].
    by intros [= <-]. }
  split; [|split; [|split; [|split; [|split; [|split; [|split]]]]]].
  - intros net i p scan_type e. unfold PortScanner._scan_port.
    destruct (String.eqb scan_type "tcp" || String.eqb scan_type "syn").
    + destruct (PortScanner.new_socket net i) as [[]|]; [|done].
      destruct (PortScanner.connect_ex net i p) as [code|]; [|done].
      simpl. destruct (Z.eqb_spec code 0) as [->|]; [|done].
      intros [= <-]. simpl. repeat split; try done. by left.
    + destruct (String.eqb_spec scan_type "udp") as [->|]; [|done].
      destruct (PortScanner.new_socket net i) as [[]|]; [|done].
      destruct (PortScanner.sendto net i p) as [[]|[]]; try done.
      destruct (PortScanner.recvfrom net i p) as [data|[]]; try done.
      intros [= <-]. simpl. repeat split; try done. right. eauto.
  - intros net i p scan_type Htcp Hfail. unfold PortScanner._scan_port.
    rewrite Htcp.
    destruct (PortScanner.new_socket net i); [|done].
    destruct (PortScanner.connect_ex net i p) as [code|]; [|done].
    simpl. destruct (Z.eqb_spec code 0) as [->|]; [|done]. done.
  - intros net i p Hraise. unfold PortScanner._scan_port.
    cbn [String.eqb Ascii.eqb Bool.eqb orb].
    destruct (PortScanner.new_socket net i); [|done].
    destruct (PortScanner.sendto net i p) as [[]|e1]; [|by destruct e1].
    destruct Hraise as [[e He]|[e He]]; [done|].
    rewrite He. by destruct e.
  - intros net i p scan_type e He. unfold PortScanner._scan_port. rewrite He.
    by repeat case_match.
  - intros net as_completed ports scan_type l e Hperm Hl He.
    unfold PortScanner._custom_scan in Hl.
    destruct (PortScanner._parse_port_range ports) as [port_list|]; [|done].
    injection Hl as <-. rewrite sorted_by_key_perm, Hperm in He.
    split; [by rewrite (open_ports_entry _ _ _ _ He)|].
    destruct (open_ports_elem _ _ _ _ He) as (i & q & Hq & Hscan).
    pose proof (scan_port_Some _ _ _ _ _ Hscan) as Heq.
    assert (PortScanner.port e = q) as Hport by (by rewrite Heq).
    exists port_list, i. by rewrite Hport.
  - intros net p e He. by destruct (Hdet _ _ _ He) as (? & _ & ?).
  - intros net p Hclosed. unfold ServiceDetector._detect_service.
    by rewrite Hclosed.
  - intros net ports e (p & Hin & Hp)%list_elem_of_omap.
    destruct (Hdet _ _ _ Hp) as (Hst & -> & Hopen). done.
Qed.

Lemma reported_entries_are_open_witness :
  PortScanner.state (entry_for "tcp" 22) = "open"
  /\ (PortScanner._scan_port (quiet_host [22]%Z) 1 21 "tcp").1 = None.
Proof.
  destruct reported_entries_are_open
    as (_ & Hclosed & _ & _ & Hscan & _). split.
  - apply (Hscan (quiet_host [22]%Z) id "20-25" "tcp" [entry_for "tcp" 22]).
    + intros l. reflexivity.
    + reflexivity.
    + apply list_elem_of_singleton. reflexivity.
  - apply (Hclosed (quiet_host [22]%Z) 1 21%Z "tcp"); [reflexivity|].
    discriminate.
Defined.

(** * Claims about service identification *)

(** C3, as the code has it.  The service is that of the first keyword
    of [keywords] that occurs in the banner, letter case apart; when
    none occurs it is the entry of the port table, or "Unknown".  In
    [keywords], which is the list below, "http" comes before "mysql": a
    banner in which "http" occurs is identified as HTTP unless "ssh",
    "ftp", "smtp" or "mail" occurs in it too, and is never identified as
    MySQL, whether or not "mysql" occurs in it. *)
Theorem identify_service_priority p banner :
  keywords
  = [ ("ssh", "SSH"); ("ftp", "FTP"); ("smtp", "SMTP"); ("mail", "SMTP");
      ("http", "HTTP"); ("apache", "HTTP"); ("nginx", "HTTP");
      ("mysql", "MySQL"); ("postgresql", "PostgreSQL");
      ("postgres", "PostgreSQL"); ("redis", "Redis"); ("mongodb", "MongoDB");
      ("mongo", "MongoDB") ]
  /\ (forall i kw svc,
        keywords !! i = Some (kw, svc) ->
        keyword_match kw banner ->
        (forall j kw' svc', j < i -> keywords !! j = Some (kw', svc') ->
                            ~ keyword_match kw' banner) ->
        ServiceDetector._identify_service p banner = svc)
  /\ ((forall kw svc, (kw, svc) ∈ keywords -> ~ keyword_match kw banner) ->
      ServiceDetector._identify_service p banner
      = default "Unknown" (ServiceDetector.port_services !! p))
  /\ (keyword_match "http" banner ->
      (forall kw, kw ∈ ["ssh"; "ftp"; "smtp"; "mail"] ->
                  ~ keyword_match kw banner) ->
      ServiceDetector._identify_service p banner = "HTTP")
  /\ (keyword_match "http" banner ->
      ServiceDetector._identify_service p banner
      ∈ ["SSH"; "FTP"; "SMTP"; "HTTP"]).
Proof.
  assert (forall i kw svc,
            keywords !! i = Some (kw, svc) ->
            keyword_match kw banner ->
            (forall j kw' svc', j < i -> keywords !! j = Some (kw', svc') ->
                                ~ keyword_match kw' banner) ->
            ServiceDetector._identify_service p banner = svc) as Hfirst.
  { rewrite identify_service_table. unfold identify_by_table.
    intros i kw svc Hi Hkw Hfirst.
    assert (list_find (fun kv => Py.contains kv.1 (Py.lower banner) = true)
                      keywords = Some (i, (kw, svc))) as ->; [|done].
    apply list_find_Some. split; [done|]. split.
    + by apply contains_lower.
    + intros j [kw' svc'] Hj Hlt. rewrite contains_lower. by eapply Hfirst. }
  split; [done|]. split; [exact Hfirst|]. split; [|split].
  - rewrite identify_service_table. unfold identify_by_table.
    intros Hnone.
    assert (list_find (fun kv => Py.contains kv.1 (Py.lower banner) = true)
                      keywords = None) as ->; [|done].
    apply list_find_None, Forall_forall. intros [kw svc] Hin.
    rewrite contains_lower. by eapply Hnone.
  - intros Hhttp Hearlier. apply (Hfirst 4 "http"); [done|done|].
    intros j kw' svc' Hj Hkw'. apply Hearlier.
    do 4 (destruct j as [|j];
          [injection Hkw' as <- _; rewrite !elem_of_cons; tauto|]).
    lia.
  - intros Hhttp%contains_lower. unfold ServiceDetector._identify_service.
    destruct (String.eqb_spec banner "") as [->|_]; [done|].
    cbn zeta. rewrite Hhttp. cbn [orb].
    repeat match goal with
           | |- context [Py.contains ?kw (Py.lower banner)] =>
               destruct (Py.contains kw (Py.lower banner)); cbn [orb]
           end;
      rewrite !elem_of_cons; tauto.
Qed.

Lemma identify_service_priority_witness :
  ServiceDetector._identify_service 8080 "Server: NGINX" = "HTTP"
  /\ ServiceDetector._identify_service 5900 "RFB 003.008" = "VNC"
  /\ ServiceDetector._identify_service 3306 "MySQL 8.0, see http://mysql.com"
     = "HTTP".
Proof.
  split; [|split].
  - apply (proj1 (proj2 (identify_service_priority 8080 "Server: NGINX"))
             6 "nginx").
    + reflexivity.
    + by exists "Server: ", "NGINX", "".
    + intros j kw' svc' Hj Hkw'. rewrite <- contains_lower.
      do 6 (destruct j as [|j]; [injection Hkw' as <- _; by vm_compute|]). lia.
  - apply (proj1 (proj2 (proj2
             (identify_service_priority 5900 "RFB 003.008")))).
    intros kw svc Hin. rewrite <- contains_lower.
    unfold keywords in Hin. rewrite !elem_of_cons, elem_of_nil in Hin.
    repeat (destruct Hin as [[= -> _]|Hin]; [by vm_compute|]). done.
  - apply (proj1 (proj2 (proj2 (proj2
             (identify_service_priority 3306
                "MySQL 8.0, see http://mysql.com"))))).
    + by exists "MySQL 8.0, see ", "http", "://mysql.com".
    + intros kw Hin. rewrite <- contains_lower.
      rewrite !elem_of_cons, elem_of_nil in Hin.
      repeat (destruct Hin as [->|Hin]; [by vm_compute|]). done.
Defined.

(** C3 as stated fails: "mysql" does not come before "http", so a
    MySQL banner that mentions an "http" address is reported as HTTP. *)
Lemma http_preempts_mysql :
  keyword_match "mysql" "5.7.33 MySQL Community Server, http://dev.mysql.com"
  /\ keyword_match "http" "5.7.33 MySQL Community Server, http://dev.mysql.com"
  /\ ServiceDetector._identify_service 3306
       "5.7.33 MySQL Community Server, http://dev.mysql.com" = "HTTP".
Proof.
  split; [|split].
  - by exists "5.7.33 ", "MySQL", " Community Server, http://dev.mysql.com".
  - by exists "5.7.33 MySQL Community Server, ", "http", "://dev.mysql.com".
  - reflexivity.
Qed.

(** C6, as the code has it.  For the banner "SSH-2.0-OpenSSH_8.2p1" the
    service is "SSH" on every port, by the keyword "ssh", and the
    version is "2.0": the pattern x.x.x matches nowhere, and the
    leftmost match of the pattern x.x is the "2.0" of the protocol
    version. *)
Theorem ssh_banner_record :
  (forall p,
     ServiceDetector._identify_service p "SSH-2.0-OpenSSH_8.2p1" = "SSH")
  /\ ServiceDetector.first_match (take 1 ServiceDetector.patterns)
       "SSH-2.0-OpenSSH_8.2p1" = None
  /\ ServiceDetector.first_match (take 2 ServiceDetector.patterns)
       "SSH-2.0-OpenSSH_8.2p1" = Some "2.0"
  /\ ServiceDetector._extract_version "SSH-2.0-OpenSSH_8.2p1" = "2.0"
  /\ ServiceDetector._detect_service (ssh_host "SSH-2.0-OpenSSH_8.2p1  ") 22
     = Some {| ServiceDetector.port := 22;
               ServiceDetector.state := "open";
               ServiceDetector.service := "SSH";
               ServiceDetector.banner := "SSH-2.0-OpenSSH_8.2p1";
               ServiceDetector.version := "2.0" |}.
Proof.
  split; [|split; [|split; [|split]]]; by vm_compute.
Qed.

(** C6 as stated fails: the version extracted is not "8.2". *)
Lemma ssh_banner_version_not_8_2 :
  ServiceDetector._extract_version "SSH-2.0-OpenSSH_8.2p1" ≠ "8.2".
Proof. by vm_compute. Qed.

(** * Claims about the batches *)

Lemma zone_transfer_returns net target found :
  exists found' asked,
    SubdomainDiscovery._attempt_zone_transfer net target found
    = Return (found', asked)
    /\ found ⊆ found'.
Proof.
  unfold SubdomainDiscovery._attempt_zone_transfer.
  destruct (SubdomainDiscovery.resolve_ns net) as [ns_records|e]; simpl.
  - pose proof (transfer_from_grows net target ns_records found) as Hsub.
    destruct (SubdomainDiscovery.transfer_from net target ns_records found)
      as [found' asked]. by exists found', asked.
  - by exists found, [].
Qed.

Lemma cert_transparency_returns net target found :
  exists found',
    SubdomainDiscovery._check_cert_transparency net target found = Return found'.
Proof.
  unfold SubdomainDiscovery._check_cert_transparency.
  destruct (SubdomainDiscovery.crt_sh net) as [[status [data|e]]|e]; simpl;
    try destruct (status =? 200)%Z; simpl; by eexists.
Qed.

Lemma discover_returns net as_completed set_iter target wordlist found found1 :
  SubdomainDiscovery._brute_force_subdomains net as_completed target wordlist
    found = Return found1 ->
  exists r,
    SubdomainDiscovery.discover net as_completed set_iter target wordlist found
    = Return r.
Proof.
  intros Hbrute. unfold SubdomainDiscovery.discover. rewrite Hbrute. simpl.
  destruct (zone_transfer_returns net target found1)
    as (found2 & asked & -> & _). simpl.
  destruct (cert_transparency_returns net target found2) as (found3 & ->).
  simpl. by eexists.
Qed.

Lemma discover_stages net as_completed set_iter target wordlist found r :
  SubdomainDiscovery.discover net as_completed set_iter target wordlist found
  = Return r ->
  exists found1 found2 asked found3,
    SubdomainDiscovery._brute_force_subdomains net as_completed target
      wordlist found = Return found1
    /\ SubdomainDiscovery._attempt_zone_transfer net target found1
       = Return (found2, asked)
    /\ SubdomainDiscovery._check_cert_transparency net target found2
       = Return found3
    /\ r = SubdomainDiscovery.compile_results net set_iter found3.
Proof.
  unfold SubdomainDiscovery.discover.
  destruct (SubdomainDiscovery._brute_force_subdomains _ _ _ _ _)
    as [found1|] eqn:Hb; simpl; [|done].
  destruct (SubdomainDiscovery._attempt_zone_transfer net target found1)
    as [[found2 asked]|] eqn:Hz; simpl; [|done].
  destruct (SubdomainDiscovery._check_cert_transparency net target found2)
    as [found3|] eqn:Hc; simpl; [|done].
  intros [= <-]. by exists found1, found2, asked, found3.
Qed.

(** C4.  The completion order of the probes, and the order in which the
    interpreter iterates over the set of names, do not show in what is
    returned.  The custom scan returns the same value for every
    completion order: the findings of all the probes, each as often as
    a probe found it, by ascending port.  [discover] returns the same
    value: one entry for each name of the set that the three methods
    leave, with the address that name resolves to, in the lexicographic
    order of the names. *)
Theorem result_order_deterministic :
  (forall net as1 as2 ports scan_type,
     (forall l, as1 l ≡ₚ l) -> (forall l, as2 l ≡ₚ l) ->
     PortScanner._custom_scan net as1 ports scan_type
     = PortScanner._custom_scan net as2 ports scan_type
     /\ (forall l,
           (PortScanner._custom_scan net as1 ports scan_type).1 = Return l ->
           Sorted Z.le (PortScanner.port <$> l))
     /\ (forall port_list,
           PortScanner._parse_port_range ports = Return port_list ->
           exists l,
             (PortScanner._custom_scan net as1 ports scan_type).1 = Return l
             /\ l ≡ₚ omap id
                      ((PortScanner.submit_all net port_list scan_type).*1)))
  /\ (forall net as1 as2 it1 it2 target wordlist found,
        (forall l, as1 l ≡ₚ l) -> (forall l, as2 l ≡ₚ l) ->
        (forall X, it1 X ≡ₚ elements X) -> (forall X, it2 X ≡ₚ elements X) ->
        returned (SubdomainDiscovery.discover net as1 it1 target wordlist found)
        = returned (SubdomainDiscovery.discover net as2 it2 target wordlist found)
        /\ forall r,
             SubdomainDiscovery.discover net as1 it1 target wordlist found
             = Return r ->
             Sorted (fun a b => String.leb a b = true)
                    (SubdomainDiscovery.subdomain
                       <$> SubdomainDiscovery.subdomains r)
             /\ SubdomainDiscovery.subdomains r
                = (fun d =>
                     {| SubdomainDiscovery.subdomain := d;
                        SubdomainDiscovery.ip_address :=
                          SubdomainDiscovery._resolve_subdomain net d |})
                    <$> (SubdomainDiscovery.subdomain
                           <$> SubdomainDiscovery.subdomains r)
             /\ SubdomainDiscovery.total_found r
                = length (SubdomainDiscovery.subdomains r)
             /\ exists found1 found2 asked found3,
                  SubdomainDiscovery._brute_force_subdomains net as1 target
                    wordlist found = Return found1
                  /\ SubdomainDiscovery._attempt_zone_transfer net target
                       found1 = Return (found2, asked)
                  /\ SubdomainDiscovery._check_cert_transparency net target
                       found2 = Return found3
                  /\ SubdomainDiscovery.subdomain
                       <$> SubdomainDiscovery.subdomains r
                     ≡ₚ elements found3).
Proof.
  split.
  - intros net as1 as2 ports scan_type H1 H2. split; [|split].
    + by apply custom_scan_order.
    + intros l. apply custom_scan_Sorted.
    + intros port_list Hparse.
      destruct (custom_scan_returns net as1 ports scan_type port_list H1
                  Hparse) as (l & Hl & Hlperm).
      exists l. by rewrite Hl.
  - intros net as1 as2 it1 it2 target wordlist found Ha1 Ha2 Hi1 Hi2. split.
    + by apply discover_order.
    + intros r Hr.
      destruct (discover_stages _ _ _ _ _ _ _ Hr)
        as (found1 & found2 & asked & found3 & Hb & Hz & Hc & ->).
      rewrite compile_results_names. split; [|split; [|split]].
      * apply (sorted_Sorted String.leb). apply String.leb_total.
      * unfold SubdomainDiscovery.compile_results.
        cbn [SubdomainDiscovery.subdomains]. reflexivity.
      * done.
      * exists found1, found2, asked, found3.
        split; [done|]. split; [done|]. split; [done|].
        by rewrite sorted_perm, Hi1.
Qed.

Lemma result_order_deterministic_witness :
  PortScanner._custom_scan (quiet_host [22; 80]%Z) id "80,22" "tcp"
  = PortScanner._custom_scan (quiet_host [22; 80]%Z) (@rev _) "80,22" "tcp"
  /\ (exists l,
        (PortScanner._custom_scan (quiet_host [22; 80]%Z) (@rev _) "80,22"
           "tcp").1 = Return l
        /\ l ≡ₚ [entry_for "tcp" 80; entry_for "tcp" 22])
  /\ returned (SubdomainDiscovery.discover refusing_zone id elements
                 "example.org" None ∅)
     = returned (SubdomainDiscovery.discover refusing_zone (@rev _)
                   (fun X => rev (elements X)) "example.org" None ∅).
Proof.
  destruct result_order_deterministic as [Hports Hsubs]. split; [|split].
  - apply (Hports (quiet_host [22; 80]%Z) id (@rev _) "80,22" "tcp").
    + intros l. reflexivity.
    + intros l. symmetry. apply Permutation_rev.
  - apply (proj2 (proj2 (Hports (quiet_host [22; 80]%Z) (@rev _) id "80,22"
                           "tcp"
                           (fun l => symmetry (Permutation_rev l))
                           (fun l => reflexivity l)))
             [80; 22]%Z).
    reflexivity.
  - apply (Hsubs refusing_zone id (@rev _) elements
             (fun X => rev (elements X)) "example.org" None ∅).
    + intros l. reflexivity.
    + intros l. symmetry. apply Permutation_rev.
    + intros X. reflexivity.
    + intros X. symmetry. apply Permutation_rev.
Defined.

(** C5, as the code has it.  The names of the subdomain list are
    pairwise distinct.  The ports of the custom scan are pairwise
    distinct when the parsed port list names no port twice. *)
Theorem no_duplicate_identity_keys :
  (forall net as_completed ports scan_type port_list,
     (forall l, as_completed l ≡ₚ l) ->
     PortScanner._parse_port_range ports = Return port_list ->
     NoDup port_list ->
     exists l,
       (PortScanner._custom_scan net as_completed ports scan_type).1 = Return l
       /\ NoDup (PortScanner.port <$> l))
  /\ (forall net as_completed set_iter target wordlist found r,
        (forall X, set_iter X ≡ₚ elements X) ->
        SubdomainDiscovery.discover net as_completed set_iter target wordlist
          found = Return r ->
        NoDup (SubdomainDiscovery.subdomain <$> SubdomainDiscovery.subdomains r)).
Proof.
  split.
  - intros net as_completed ports scan_type port_list Hperm Hparse Hnd.
    destruct (custom_scan_returns net as_completed ports scan_type port_list
                Hperm Hparse) as (l & Hl & Hlperm).
    exists l. split; [by rewrite Hl|]. rewrite Hlperm.
    apply (sublist_NoDup _ port_list); [done|]. apply open_ports_sublist.
    by intros i p e ->%scan_port_Some.
  - intros net as_completed set_iter target wordlist found r Hit.
    intros (X & ->)%discover_names; [|done]. by apply (sorted_set_NoDup X).
Qed.

Lemma no_duplicate_identity_keys_witness :
  exists l,
    (PortScanner._custom_scan (quiet_host [22; 80]%Z) id "80,22" "tcp").1
    = Return l
    /\ NoDup (PortScanner.port <$> l).
Proof.
  apply (proj1 no_duplicate_identity_keys (quiet_host [22; 80]%Z) id "80,22"
           "tcp" [80; 22]%Z).
  - intros l. reflexivity.
  - reflexivity.
  - apply NoDup_cons_2; [|apply NoDup_singleton].
    intros H%list_elem_of_singleton. discriminate H.
Defined.

(** C5 as stated fails: a port named twice is probed twice and, when
    open, reported twice, with the same port and protocol. *)
Lemma duplicate_port_reported_twice :
  exists l,
    (PortScanner._custom_scan (quiet_host [80]%Z) id "80,80" "tcp").1 = Return l
    /\ ~ NoDup ((fun e => (PortScanner.port e, PortScanner.protocol e)) <$> l).
Proof.
  exists [entry_for "tcp" 80; entry_for "tcp" 80]. split; [reflexivity|].
  intros Hnd. apply NoDup_cons in Hnd as [Hnin _]. apply Hnin.
  apply list_elem_of_singleton. reflexivity.
Qed.

(** C7.  [_attempt_zone_transfer] always returns, and never removes a
    name.  When every name server refuses the transfer it returns the
    set unchanged after asking each name server in turn, and [discover]
    is the brute force followed by the certificate-transparency query
    on the brute-force result. *)
Theorem zone_transfer_refused :
  (forall net target found,
     exists found' asked,
       SubdomainDiscovery._attempt_zone_transfer net target found
       = Return (found', asked)
       /\ found ⊆ found')
  /\ (forall net target found ns_records,
        SubdomainDiscovery.resolve_ns net = Return ns_records ->
        (forall ns, ns ∈ ns_records ->
                    exists e, SubdomainDiscovery.xfr net ns = Raise e) ->
        SubdomainDiscovery._attempt_zone_transfer net target found
        = Return (found, ns_records)
        /\ forall as_completed set_iter wordlist found0,
             SubdomainDiscovery.discover net as_completed set_iter target
               wordlist found0
             = (found1 ← SubdomainDiscovery._brute_force_subdomains net
                           as_completed target wordlist found0;
                found3 ← SubdomainDiscovery._check_cert_transparency net
                           target found1;
                Return (SubdomainDiscovery.compile_results net set_iter found3))).
Proof.
  split; [apply zone_transfer_returns|].
  intros net target found ns_records Hns Hrefused.
  assert (forall found,
            SubdomainDiscovery._attempt_zone_transfer net target found
            = Return (found, ns_records)) as Hzt.
  { intros found'. unfold SubdomainDiscovery._attempt_zone_transfer.
    rewrite Hns. simpl. rewrite transfer_refused; [done|].
    by apply Forall_forall. }
  split; [apply Hzt|].
  intros as_completed set_iter wordlist found0.
  unfold SubdomainDiscovery.discover.
  destruct (SubdomainDiscovery._brute_force_subdomains _ _ _ _ _) as [found1|];
    simpl; [|done].
  by rewrite Hzt.
Qed.

Lemma zone_transfer_refused_witness :
  SubdomainDiscovery._attempt_zone_transfer refusing_zone "example.org"
    {[ "www.example.org" ]}
  = Return ({[ "www.example.org" ]}, ["ns1.example.org."; "ns2.example.org."]).
Proof.
  apply (proj2 zone_transfer_refused refusing_zone "example.org"
           {[ "www.example.org" ]} ["ns1.example.org."; "ns2.example.org."]).
  - reflexivity.
  - intros ns _. exists DNSException. reflexivity.
Defined.

Lemma omap_id_all_None {A} (l : list (option A)) :
  Forall (fun o => o = None) l -> omap id l = [].
Proof. induction 1 as [|o l -> _ IH]; simpl; done. Qed.

(** The errors that the tasks do handle.  With a port specification
    that parses, [_custom_scan] returns whatever the probes ran into:
    its entries are the findings of the probes that found a port open,
    each probe made each of its socket calls at most once, and with no
    finding the result is the empty list.  A connection that raises, or
    returns a non-zero code, is no finding, and neither is a datagram
    exchange that raises.  When each failed lookup is a resolution
    failure, the brute force returns the names that resolved, and
    [discover] returns. *)
Lemma handled_errors_absorbed :
  (forall net as_completed ports scan_type port_list,
     (forall l, as_completed l ≡ₚ l) ->
     PortScanner._parse_port_range ports = Return port_list ->
     exists l,
       PortScanner._custom_scan net as_completed ports scan_type
       = (Return l, concat ((PortScanner.submit_all net port_list scan_type).*2))
       /\ l ≡ₚ omap id ((PortScanner.submit_all net port_list scan_type).*1)
       /\ (forall i p,
             (PortScanner._scan_port net i p scan_type).2
             ∈ [ []; [PortScanner.Connect p]; [PortScanner.SendTo p];
                 [PortScanner.SendTo p; PortScanner.RecvFrom p] ])
       /\ ((forall i p, (PortScanner._scan_port net i p scan_type).1 = None) ->
           l = []))
  /\ (forall net i p scan_type,
        String.eqb scan_type "tcp" || String.eqb scan_type "syn" = true ->
        (forall code,
           PortScanner.connect_ex net i p = Return code -> code ≠ 0%Z) ->
        (PortScanner._scan_port net i p scan_type).1 = None)
  /\ (forall net i p e,
        PortScanner.sendto net i p = Raise e
        \/ PortScanner.recvfrom net i p = Raise e ->
        (PortScanner._scan_port net i p "udp").1 = None)
  /\ (forall net as_completed set_iter target wordlist found,
        (forall l, as_completed l ≡ₚ l) ->
        (forall i name e, SubdomainDiscovery.lookup net i name = Raise e ->
                          e = socket_gaierror) ->
        (exists found',
           SubdomainDiscovery._brute_force_subdomains net as_completed target
             wordlist found = Return found'
           /\ forall d, d ∈ found' <->
                d ∈ found \/
                exists i sub ip,
                  SubdomainDiscovery.load_wordlist net wordlist !! i = Some sub
                  /\ d = sub ++ "." ++ target
                  /\ SubdomainDiscovery.lookup net i d = Return ip)
        /\ exists r,
             SubdomainDiscovery.discover net as_completed set_iter target
               wordlist found = Return r).
Proof.
  split; [|split; [|split]].
  - intros net as_completed ports scan_type port_list Hperm Hparse.
    destruct (custom_scan_returns net as_completed ports scan_type port_list
                Hperm Hparse) as (l & Hl & Hlperm).
    exists l. split; [done|]. split; [done|].
    split; [intros i p; apply scan_port_calls|].
    intros Hnone. apply Permutation_nil_r. rewrite Hlperm.
    rewrite omap_id_all_None; [done|].
    apply Forall_forall. intros o (fut & -> & Hfut)%list_elem_of_fmap.
    apply elem_of_lookup_imap in Hfut as (i & p & -> & _). apply Hnone.
  - intros net i p scan_type Htcp Hfail. unfold PortScanner._scan_port.
    rewrite Htcp.
    destruct (PortScanner.new_socket net i); [|done].
    destruct (PortScanner.connect_ex net i p) as [code|] eqn:Hc; [|done].
    simpl. destruct (Z.eqb_spec code 0) as [->|]; [|done].
    by destruct (Hfail 0%Z).
  - intros net i p e Hraise. unfold PortScanner._scan_port.
    cbn [String.eqb Ascii.eqb Bool.eqb orb].
    destruct (PortScanner.new_socket net i); [|done].
    destruct (PortScanner.sendto net i p) as [|[]]; try done.
    destruct (PortScanner.recvfrom net i p) as [|[]]; try done.
    by destruct Hraise.
  - intros net as_completed set_iter target wordlist found Hperm Hgai.
    destruct (brute_force_returns net as_completed target wordlist found
                Hperm Hgai) as (found' & Hbrute & Hfound').
    split; [by exists found'|]. by eapply discover_returns.
Qed.

Lemma handled_errors_absorbed_example :
  (exists l,
     PortScanner._custom_scan (quiet_host []) id "20-22" "tcp"
     = (Return l,
        concat ((PortScanner.submit_all (quiet_host []) [20; 21; 22]%Z "tcp").*2))
     /\ l = [])
  /\ exists r,
       SubdomainDiscovery.discover refusing_zone id elements "example.org"
         (Some "words.txt") ∅ = Return r.
Proof.
  destruct handled_errors_absorbed as (Hports & _ & _ & Hsubs). split.
  - destruct (Hports (quiet_host []) id "20-22" "tcp" [20; 21; 22]%Z)
      as (l & Hl & _ & _ & Hempty).
    + intros l. reflexivity.
    + reflexivity.
    + exists l. split; [exact Hl|]. apply Hempty. intros i p. reflexivity.
  - apply (Hsubs refusing_zone id elements "example.org" (Some "words.txt") ∅).
    + intros l. reflexivity.
    + intros i name e. simpl.
      destruct (String.eqb name "www.example.org"); [discriminate|].
      intros H. injection H as <-. reflexivity.
Defined.

Lemma collect_Raise completed found :
  (exists e, Raise e ∈ completed) ->
  exists e,
    Raise e ∈ completed /\ SubdomainDiscovery.collect completed found = Raise e.
Proof.
  revert found. induction completed as [|[[d|]|e0] completed IH];
    intros found [e He].
  - by apply elem_of_nil in He.
  - apply elem_of_cons in He as [[=]|He]. simpl.
    destruct (String.eqb d "");
      [destruct (IH found (ex_intro _ e He)) as (e' & Hin & ->)
      |destruct (IH ({[ d ]} ∪ found) (ex_intro _ e He)) as (e' & Hin & ->)];
      (exists e'; split; [by right|done]).
  - apply elem_of_cons in He as [[=]|He]. simpl.
    destruct (IH found (ex_intro _ e He)) as (e' & Hin & ->).
    exists e'. split; [by right|done].
  - exists e0. split; [by left|done].
Qed.

(** C8.  The brute force does not absorb every error of a lookup:
    [_test_subdomain] handles [socket.gaierror] only, so one lookup
    that raises another exception (the [UnicodeError] of the IDNA codec
    for an empty label or one of more than 63 characters) ends
    [_brute_force_subdomains] and [discover] with an exception of a
    lookup, whatever the other lookups found and in whatever order the
    probes complete.  [_resolve_subdomain], which makes the same call,
    turns the same exception into "N/A". *)
Theorem lookup_error_aborts_batch net as_completed set_iter target wordlist
    found i sub e :
  (forall l, as_completed l ≡ₚ l) ->
  SubdomainDiscovery.load_wordlist net wordlist !! i = Some sub ->
  SubdomainDiscovery.lookup net i (sub ++ "." ++ target) = Raise e ->
  e ≠ socket_gaierror ->
  (exists e' j sub',
     e' ≠ socket_gaierror
     /\ SubdomainDiscovery.load_wordlist net wordlist !! j = Some sub'
     /\ SubdomainDiscovery.lookup net j (sub' ++ "." ++ target) = Raise e'
     /\ SubdomainDiscovery._brute_force_subdomains net as_completed target
          wordlist found = Raise e'
     /\ SubdomainDiscovery.discover net as_completed set_iter target wordlist
          found = Raise e')
  /\ (forall d,
        SubdomainDiscovery.resolve net d = Raise e ->
        SubdomainDiscovery._resolve_subdomain net d = "N/A").
Proof.
  intros Hperm Hsub Hlookup Hne. split.
  - unfold SubdomainDiscovery.discover,
      SubdomainDiscovery._brute_force_subdomains.
    destruct (collect_Raise
                (as_completed
                   (imap (SubdomainDiscovery._test_subdomain net target)
                      (SubdomainDiscovery.load_wordlist net wordlist)))
                found) as (e' & Hin & Hcollect).
    { exists e. rewrite Hperm. apply elem_of_lookup_imap. exists i, sub.
      split; [|done]. unfold SubdomainDiscovery._test_subdomain.
      rewrite Hlookup. by destruct e. }
    rewrite Hperm in Hin.
    apply elem_of_lookup_imap in Hin as (j & sub' & Htest & Hj).
    unfold SubdomainDiscovery._test_subdomain in Htest.
    destruct (SubdomainDiscovery.lookup net j (sub' ++ "." ++ target))
      as [ip|e''] eqn:Hl; [done|].
    exists e', j, sub'. rewrite Hcollect.
    assert (e'' = e' /\ e' ≠ socket_gaierror) as [-> Hne'].
    { destruct e''; try discriminate Htest; injection Htest as Heq;
        subst e'; done. }
    done.
  - intros d Hd. unfold SubdomainDiscovery._resolve_subdomain.
    by rewrite Hd.
Qed.

Lemma lookup_error_aborts_batch_witness :
  SubdomainDiscovery._test_subdomain dotted_wordlist "example.org" 0 "www"
  = Return (Some "www.example.org")
  /\ SubdomainDiscovery.discover dotted_wordlist (@rev _) elements
       "example.org" (Some "words.txt") ∅ = Raise UnicodeError
  /\ SubdomainDiscovery._resolve_subdomain dotted_wordlist "dev..example.org"
     = "N/A".
Proof.
  destruct (lookup_error_aborts_batch dotted_wordlist (@rev _) elements
              "example.org" (Some "words.txt") ∅ 1 "dev." UnicodeError)
    as [(e' & j & sub' & Hne & Hj & Hlookup & _ & Hdiscover) Hsibling].
  - intros l. symmetry. apply Permutation_rev.
  - reflexivity.
  - reflexivity.
  - discriminate.
  - split; [reflexivity|]. split; [|by apply Hsibling].
    rewrite Hdiscover. f_equal.
    destruct j as [|[|j]]; simpl in Hj; try discriminate Hj.
    + injection Hj as <-. discriminate Hlookup.
    + injection Hj as <-. injection Hlookup as <-. reflexivity.
Defined.

(** * Further properties *)

(** ** The matcher *)

Lemma match_here_plus a rest c s :
  Re.rep a = Re.Plus ->
  Re.match_here (a :: rest) (String c s)
  = if Re.cls a c then
      match Re.match_here (a :: rest) s with
      | Some g => Some (Re.capture a c g)
      | None => Re.capture a c <$> Re.match_here rest s
      end
    else None.
Proof. intros Hrep. cbn [Re.match_here]. by rewrite Hrep. Qed.

Lemma match_here_one a rest c s :
  Re.rep a = Re.One ->
  Re.match_here (a :: rest) (String c s)
  = if Re.cls a c then Re.capture a c <$> Re.match_here rest s else None.
Proof. intros Hrep. cbn [Re.match_here]. by rewrite Hrep. Qed.

Lemma match_here_empty a rest : Re.match_here (a :: rest) "" = None.
Proof. cbn [Re.match_here]. by destruct (Re.rep a). Qed.

(** One atom of a match: what holds of the rest of the pattern on the
    rest of the text carries over one character at a time. *)
Lemma match_here_atom (a : Re.atom) (rest : list Re.atom)
    (Q R : string -> string -> Prop) :
  (forall s g, Re.match_here rest s = Some g -> Q s g) ->
  (forall c s g, Re.cls a c = true -> Q s g ->
                 R (String c s) (Re.capture a c g)) ->
  (forall c s g, Re.cls a c = true -> R s g ->
                 R (String c s) (Re.capture a c g)) ->
  forall s g, Re.match_here (a :: rest) s = Some g -> R s g.
Proof.
  intros Hrest Hfirst Hmore s. destruct (Re.rep a) eqn:Hrep.
  - intros g. destruct s as [|c s]; [by rewrite match_here_empty|].
    rewrite match_here_one by done.
    destruct (Re.cls a c) eqn:Hc; [|done].
    destruct (Re.match_here rest s) as [g'|] eqn:Hg'; [|done].
    intros [= <-]. apply Hfirst; [done|]. by apply Hrest.
  - induction s as [|c s IH]; intros g; [by rewrite match_here_empty|].
    rewrite match_here_plus by done.
    destruct (Re.cls a c) eqn:Hc; [|done].
    destruct (Re.match_here (a :: rest) s) as [g'|] eqn:Hg'.
    + intros [= <-]. apply Hmore; [done|]. by apply IH.
    + destruct (Re.match_here rest s) as [g'|] eqn:Hg''; [|done].
      intros [= <-]. apply Hfirst; [done|]. by apply Hrest.
Qed.

Lemma match_no_group pat s g :
  no_group pat = true -> Re.match_here pat s = Some g -> g = "".
Proof.
  revert s g. induction pat as [|a rest IH]; intros s g.
  - by intros _ [= <-].
  - simpl. intros [Ha Hrest]%andb_prop. apply negb_true_iff in Ha.
    revert s g. apply (match_here_atom a rest (fun _ g => g = "")).
    + intros s g. by apply IH.
    + intros c s g _ ->. unfold Re.capture. by rewrite Ha.
    + intros c s g _ ->. unfold Re.capture. by rewrite Ha.
Qed.

Lemma match_group_first pat s g :
  group_first pat = true -> Re.match_here pat s = Some g ->
  exists post, s = g ++ post.
Proof.
  revert s g. induction pat as [|a rest IH]; intros s g.
  - intros _ [= <-]. by exists s.
  - cbn [group_first]. destruct (Re.grp a) eqn:Ha.
    + intros Hrest. revert s g.
      apply (match_here_atom a rest (fun s g => exists post, s = g ++ post)).
      * intros s g. by apply IH.
      * intros c s g _ [post ->]. unfold Re.capture. rewrite Ha. by exists post.
      * intros c s g _ [post ->]. unfold Re.capture. rewrite Ha. by exists post.
    + intros Hno Hm. rewrite (match_no_group _ _ _ Hno Hm). by exists s.
Qed.

Lemma match_one_group pat s g :
  one_group pat = true -> Re.match_here pat s = Some g ->
  exists pre post, s = pre ++ g ++ post.
Proof.
  revert s g. induction pat as [|a rest IH]; intros s g.
  - intros _ [= <-]. by exists "", s.
  - cbn [one_group]. destruct (Re.grp a) eqn:Ha.
    + intros Hrest Hm.
      assert (group_first (a :: rest) = true) as Hgf
        by (cbn [group_first]; by rewrite Ha).
      destruct (match_group_first _ _ _ Hgf Hm) as [post ->]. by exists "", post.
    + intros Hrest. revert s g.
      apply (match_here_atom a rest
               (fun s g => exists pre post, s = pre ++ g ++ post)).
      * intros s g. by apply IH.
      * intros c s g _ (pre & post & ->). unfold Re.capture. rewrite Ha.
        by exists (String c pre), post.
      * intros c s g _ (pre & post & ->). unfold Re.capture. rewrite Ha.
        by exists (String c pre), post.
Qed.

Lemma search_one_group pat s g :
  one_group pat = true -> Re.search pat s = Some g ->
  exists pre post, s = pre ++ g ++ post.
Proof.
  intros Hpat. induction s as [|c s IH]; cbn [Re.search].
  - destruct (Re.match_here pat "") as [g'|] eqn:Hm; [|done].
    intros [= <-]. by eapply match_one_group.
  - destruct (Re.match_here pat (String c s)) as [g'|] eqn:Hm.
    + intros [= <-]. by eapply match_one_group.
    + intros (pre & post & ->)%IH. by exists (String c pre), post.
Qed.

(** A match of a pattern with a group captures at least one character. *)
Lemma match_group_nonempty pat s g :
  existsb Re.grp pat = true -> Re.match_here pat s = Some g -> g ≠ "".
Proof.
  revert s g. induction pat as [|a rest IH]; intros s g; [done|].
  cbn [existsb]. destruct (Re.grp a) eqn:Ha; cbn [orb].
  - intros _. revert s g.
    apply (match_here_atom a rest (fun _ _ => True)); [done|..];
      intros c s g _ _; unfold Re.capture; by rewrite Ha.
  - intros Hrest. revert s g.
    apply (match_here_atom a rest (fun _ g => g ≠ "")).
    + intros s g. by apply IH.
    + intros c s g _ Hg. unfold Re.capture. by rewrite Ha.
    + intros c s g _ Hg. unfold Re.capture. by rewrite Ha.
Qed.

Lemma match_group_one_line pat s g :
  group_on_one_line pat -> Re.match_here pat s = Some g ->
  Py.has_char "010" g = false.
Proof.
  revert s g. induction pat as [|a rest IH]; intros s g.
  - by intros _ [= <-].
  - intros [Ha Hrest]%Forall_cons. revert s g.
    assert (forall c g, Re.cls a c = true -> Py.has_char "010" g = false ->
                        Py.has_char "010" (Re.capture a c g) = false) as Hcap.
    { intros c g Hc Hg. unfold Re.capture.
      destruct (Re.grp a) eqn:Hgrp; [|done]. cbn [Py.has_char].
      rewrite Hg, orb_false_r. apply Ascii.eqb_neq. by apply Ha. }
    apply (match_here_atom a rest (fun _ g => Py.has_char "010" g = false)).
    + intros s g. by apply IH.
    + intros c s g Hc Hg. by apply Hcap.
    + intros c s g Hc Hg. by apply Hcap.
Qed.

Lemma search_match pat s g :
  Re.search pat s = Some g -> exists s', Re.match_here pat s' = Some g.
Proof.
  induction s as [|c s IH]; cbn [Re.search].
  - destruct (Re.match_here pat "") eqn:Hm; [|done]. intros [= <-]. eauto.
  - destruct (Re.match_here pat (String c s)) eqn:Hm.
    + intros [= <-]. eauto.
    + apply IH.
Qed.

(** ** Version extraction *)

Lemma first_match_search pats banner g :
  ServiceDetector.first_match pats banner = Some g ->
  exists pat, pat ∈ pats /\ Re.search pat banner = Some g.
Proof.
  induction pats as [|pat pats IH]; simpl; [done|].
  destruct (Re.search pat banner) as [g'|] eqn:Hs.
  - intros [= <-]. exists pat. split; [|done]. apply list_elem_of_here.
  - intros (pat' & Hin & Hs')%IH. exists pat'. split; [|done].
    by apply list_elem_of_further.
Qed.

Lemma patterns_shape :
  Forall (fun pat => one_group pat = true /\ existsb Re.grp pat = true)
         ServiceDetector.patterns.
Proof. repeat constructor. Qed.

Lemma patterns_one_line : Forall group_on_one_line ServiceDetector.patterns.
Proof.
  unfold group_on_one_line, ServiceDetector.patterns.
  repeat first [apply Forall_nil_2 | apply Forall_cons_2];
    intros Hgrp c Hc ->; vm_compute in Hgrp, Hc; congruence.
Qed.

Lemma split_head_prefix sep s :
  exists rest, s = default "" (head (Py.split sep s)) ++ rest.
Proof.
  induction s as [|c s [rest IH]]; cbn [Py.split]; [by exists ""|].
  destruct (Ascii.eqb c sep); [by exists (String c s)|].
  pose proof (split_nonempty sep s) as Hne.
  destruct (Py.split sep s) as [|h t]; [done|]. simpl in *.
  exists rest. by rewrite append_cons, <- IH.
Qed.

Lemma split_head_no_sep sep s :
  Py.has_char sep (default "" (head (Py.split sep s))) = false.
Proof.
  induction s as [|c s IH]; cbn [Py.split]; [done|].
  destruct (Ascii.eqb c sep) eqn:Hc; [done|].
  pose proof (split_nonempty sep s) as Hne.
  destruct (Py.split sep s) as [|h t]; [done|]. simpl in *.
  by rewrite Hc, IH.
Qed.

Lemma take_prefix n s : exists rest, s = Py.take n s ++ rest.
Proof.
  revert s. induction n as [|n IH]; intros s; [by exists s|].
  destruct s as [|c s]; [by exists ""|]. destruct (IH s) as [rest Hrest].
  exists rest. cbn [Py.take]. by rewrite append_cons, <- Hrest.
Qed.

Lemma take_has_char c n s :
  Py.has_char c s = false -> Py.has_char c (Py.take n s) = false.
Proof.
  revert s. induction n as [|n IH]; intros s; [done|].
  destruct s as [|d s]; [done|]. cbn [Py.take Py.has_char].
  intros [Hd Hs]%orb_false_elim. by rewrite Hd, IH.
Qed.

(** X1. The version is "Unknown" or a piece of the banner: a text that
    occurs in it. *)
Theorem extract_version_occurs banner :
  ServiceDetector._extract_version banner = "Unknown"
  \/ exists pre post,
       banner = pre ++ ServiceDetector._extract_version banner ++ post.
Proof.
  unfold ServiceDetector._extract_version.
  destruct (String.eqb banner ""); [by left|].
  destruct (ServiceDetector.first_match ServiceDetector.patterns banner)
    as [g|] eqn:Hm.
  - right. apply first_match_search in Hm as (pat & Hin & Hs).
    pose proof patterns_shape as Hshape. rewrite Forall_forall in Hshape.
    destruct (Hshape _ Hin) as [Hone _]. by eapply search_one_group.
  - match goal with |- context [String.eqb ?l ""] =>
      destruct (String.eqb l ""); [by left|right] end.
    destruct (split_head_prefix "010" banner) as [rest Hrest].
    destruct (take_prefix 50 (default "" (head (Py.split "010" banner))))
      as [rest' Hrest'].
    exists "", (rest' ++ rest).
    rewrite append_nil, <- append_assoc, <- Hrest'. exact Hrest.
Qed.

(** X2. The version is never the empty string and never spans lines. *)
Theorem extract_version_one_line banner :
  ServiceDetector._extract_version banner ≠ ""
  /\ Py.has_char "010" (ServiceDetector._extract_version banner) = false.
Proof.
  unfold ServiceDetector._extract_version.
  destruct (String.eqb banner ""); [done|].
  destruct (ServiceDetector.first_match ServiceDetector.patterns banner)
    as [g|] eqn:Hm.
  - apply first_match_search in Hm as (pat & Hin & Hs).
    apply search_match in Hs as [s' Hs'].
    pose proof patterns_shape as Hshape. rewrite Forall_forall in Hshape.
    pose proof patterns_one_line as Hline. rewrite Forall_forall in Hline.
    destruct (Hshape _ Hin) as [_ Hgrp]. split.
    + by eapply match_group_nonempty.
    + eapply match_group_one_line; [|done]. by apply Hline.
  - match goal with |- context [String.eqb ?l ""] =>
      destruct (String.eqb_spec l "") as [|Hne]; [done|] end.
    split; [done|]. apply take_has_char, split_head_no_sep.
Qed.

(** ** Service identification and detection *)

Lemma lower_empty s : Py.lower s = "" <-> s = "".
Proof. by destruct s. Qed.

(** X3. Two banners that differ in letter case only are identified
    alike. *)
Theorem identify_service_case_insensitive p banner banner' :
  Py.lower banner = Py.lower banner' ->
  ServiceDetector._identify_service p banner
  = ServiceDetector._identify_service p banner'.
Proof.
  intros Hlower. unfold ServiceDetector._identify_service.
  destruct (String.eqb_spec banner "") as [->|Hne],
    (String.eqb_spec banner' "") as [->|Hne']; try done.
  - exfalso. apply Hne', lower_empty. by rewrite <- Hlower.
  - exfalso. apply Hne, lower_empty. by rewrite Hlower.
  - by rewrite Hlower.
Qed.

Lemma identify_service_case_insensitive_witness :
  ServiceDetector._identify_service 2222 "OpenSSH"
  = ServiceDetector._identify_service 2222 "OPENssh".
Proof.
  apply (identify_service_case_insensitive 2222 "OpenSSH" "OPENssh").
  reflexivity.
Defined.

Lemma port_services_named p svc :
  ServiceDetector.port_services !! p = Some svc -> svc ≠ "Unknown".
Proof.
  unfold ServiceDetector.port_services.
  intros Hin%elem_of_list_to_map_2.
  rewrite !elem_of_cons, elem_of_nil in Hin.
  repeat (destruct Hin as [Hin|Hin]; [congruence|]). done.
Qed.

(** X4. The service is "Unknown" exactly when no keyword occurs in the
    banner and the port is not in the port table; in particular it is
    never "Unknown" on a port of the default detection list. *)
Theorem identify_service_unknown p banner :
  (ServiceDetector._identify_service p banner = "Unknown"
   <-> (forall kw svc, (kw, svc) ∈ keywords -> ~ keyword_match kw banner)
       /\ ServiceDetector.port_services !! p = None)
  /\ (p ∈ ServiceDetector.default_ports ->
      ServiceDetector._identify_service p banner ≠ "Unknown").
Proof.
  assert (ServiceDetector._identify_service p banner = "Unknown"
          <-> (forall kw svc, (kw, svc) ∈ keywords -> ~ keyword_match kw banner)
              /\ ServiceDetector.port_services !! p = None) as Hiff.
  { rewrite identify_service_table. unfold identify_by_table.
    destruct (list_find _ keywords) as [[i [kw svc]]|] eqn:Hfind.
    - apply list_find_Some in Hfind as (Hi & Hkw & _). simpl in Hkw.
      apply list_elem_of_lookup_2 in Hi. split.
      + intros ->. exfalso. unfold keywords in Hi.
        rewrite !elem_of_cons, elem_of_nil in Hi.
        repeat (destruct Hi as [Hi|Hi]; [congruence|]). done.
      + intros [Hnone _]. exfalso. apply (Hnone kw svc Hi).
        by apply contains_lower.
    - apply list_find_None in Hfind. rewrite Forall_forall in Hfind.
      assert (forall kw svc, (kw, svc) ∈ keywords -> ~ keyword_match kw banner)
        as Hnone.
      { intros kw svc Hin. rewrite <- contains_lower. by apply (Hfind (kw, svc)). }
      destruct (ServiceDetector.port_services !! p) as [svc|] eqn:Hp; simpl.
      + split; [|by intros [_ ?]].
        intros ->. by apply port_services_named in Hp.
      + done. }
  split; [done|].
  intros Hp Hunknown. apply Hiff in Hunknown as [_ Hnone].
  unfold ServiceDetector.default_ports in Hp.
  rewrite !elem_of_cons, elem_of_nil in Hp.
  repeat (destruct Hp as [->|Hp]; [by vm_compute in Hnone|]). done.
Qed.

Lemma identify_service_unknown_witness :
  ServiceDetector._identify_service 443 "garbled" ≠ "Unknown".
Proof.
  apply (proj2 (identify_service_unknown 443 "garbled")).
  unfold ServiceDetector.default_ports. rewrite !elem_of_cons. tauto.
Defined.

(** X5. [detect] reports, in the order of its input, exactly the ports
    that accept a connection, one entry for each occurrence, and counts
    them. *)
Theorem detect_reports_open_ports net ports :
  ServiceDetector.port
    <$> ServiceDetector.services (ServiceDetector.detect net ports)
  = filter (fun p => ServiceDetector._is_port_open net p = true)
           (default ServiceDetector.default_ports ports)
  /\ ServiceDetector.total_services (ServiceDetector.detect net ports)
     = length (filter (fun p => ServiceDetector._is_port_open net p = true)
                      (default ServiceDetector.default_ports ports)).
Proof.
  assert (forall l : list Z,
            ServiceDetector.port <$> omap (ServiceDetector._detect_service net) l
            = filter (fun p => ServiceDetector._is_port_open net p = true) l)
    as Hports.
  { induction l as [|p l IH]; [done|]. cbn [omap list_omap].
    rewrite filter_cons. unfold ServiceDetector._detect_service at 1.
    destruct (decide (ServiceDetector._is_port_open net p = true)) as [Ho|Ho].
    - rewrite Ho. simpl. by rewrite <- IH.
    - apply not_true_is_false in Ho. rewrite Ho. exact IH. }
  unfold ServiceDetector.detect. simpl. split; [apply Hports|].
  by rewrite <- Hports, length_fmap.
Qed.

(** ** Stripping *)

Lemma lstrip_starts s : starts_space (Py.lstrip s) = false.
Proof.
  induction s as [|c s IH]; [done|]. cbn [Py.lstrip].
  destruct (Py.isspace c) eqn:Hc; [done|]. simpl. exact Hc.
Qed.

Lemma lstrip_id s : starts_space s = false -> Py.lstrip s = s.
Proof. destruct s as [|c s]; [done|]. simpl. by intros ->. Qed.

Lemma rstrip_all_space s :
  Py.all_space s = false -> Py.all_space (Py.rstrip s) = false.
Proof.
  induction s as [|c s IH]; [done|]. intros Hs.
  cbn [Py.rstrip]. rewrite Hs. cbn [Py.all_space] in *.
  destruct (Py.isspace c); [|done]. simpl in *. by apply IH.
Qed.

Lemma rstrip_empty s : Py.rstrip s = "" -> Py.all_space s = true.
Proof.
  destruct s as [|c s]; [done|]. cbn [Py.rstrip].
  by destruct (Py.all_space (String c s)).
Qed.

Lemma rstrip_idem s : Py.rstrip (Py.rstrip s) = Py.rstrip s.
Proof.
  induction s as [|c s IH]; [done|]. cbn [Py.rstrip].
  destruct (Py.all_space (String c s)) eqn:Hs; [done|].
  pose proof (rstrip_all_space _ Hs) as Hs'. cbn [Py.rstrip] in Hs'.
  rewrite Hs in Hs'. cbn [Py.rstrip]. by rewrite Hs', IH.
Qed.

Lemma rstrip_starts s :
  starts_space s = false -> starts_space (Py.rstrip s) = false.
Proof.
  destruct s as [|c s]; [done|]. cbn [Py.rstrip].
  by destruct (Py.all_space (String c s)).
Qed.

Lemma rstrip_ends s : ends_space (Py.rstrip s) = false.
Proof.
  induction s as [|c s IH]; [done|]. cbn [Py.rstrip].
  destruct (Py.all_space (String c s)) eqn:Hs; [done|].
  cbn [ends_space]. destruct (Py.rstrip s) as [|d r] eqn:Hr; [|exact IH].
  apply rstrip_empty in Hr. cbn [Py.all_space] in Hs. rewrite Hr in Hs.
  by rewrite andb_true_r in Hs.
Qed.

(** [strip] leaves no whitespace at either end, and stripping twice is
    stripping once. *)
Lemma strip_stripped s :
  starts_space (Py.strip s) = false
  /\ ends_space (Py.strip s) = false
  /\ Py.strip (Py.strip s) = Py.strip s.
Proof.
  unfold Py.strip. split; [|split].
  - apply rstrip_starts, lstrip_starts.
  - apply rstrip_ends.
  - rewrite lstrip_id by apply rstrip_starts, lstrip_starts.
    apply rstrip_idem.
Qed.

(** X6. A banner grabbed on a port other than 443 and 8443 has no
    whitespace at either end; on those two ports the text received is
    returned as it came, whitespace included. *)
Theorem grab_banner_stripped net p :
  (p ∉ [443; 8443]%Z ->
   starts_space (ServiceDetector._grab_banner net p) = false
   /\ ends_space (ServiceDetector._grab_banner net p) = false
   /\ Py.strip (ServiceDetector._grab_banner net p)
      = ServiceDetector._grab_banner net p)
  /\ (p ∈ [443; 8443]%Z ->
      forall text, ServiceDetector.recv_banner net p = Return text ->
                   ServiceDetector._grab_banner net p = text).
Proof.
  unfold ServiceDetector._grab_banner. split.
  - intros Hp. rewrite bool_decide_eq_false_2 by done.
    destruct (ServiceDetector.recv_banner net p); [apply strip_stripped|done].
  - intros Hp text ->. by rewrite bool_decide_eq_true_2.
Qed.

Lemma grab_banner_stripped_witness :
  ServiceDetector._grab_banner (ssh_host " SSH-2.0-OpenSSH_8.2p1
") 22 = "SSH-2.0-OpenSSH_8.2p1"
  /\ ServiceDetector._grab_banner (ssh_host "HTTP/1.1 200 OK
") 443 = "HTTP/1.1 200 OK
".
Proof.
  split.
  - assert (22%Z ∉ [443; 8443]%Z) as Hp.
    { rewrite !not_elem_of_cons. repeat split; [lia..|apply not_elem_of_nil]. }
    destruct (proj1 (grab_banner_stripped
                       (ssh_host " SSH-2.0-OpenSSH_8.2p1
") 22) Hp) as (_ & _ & <-).
    reflexivity.
  - apply (proj2 (grab_banner_stripped (ssh_host "HTTP/1.1 200 OK
") 443)).
    + rewrite elem_of_cons. by left.
    + reflexivity.
Defined.

(** ** The word list *)

(** X7. No candidate label of the brute force is empty or has whitespace
    around it, whether it comes from the file or from the defaults. *)
Theorem wordlist_labels_stripped net wordlist sub :
  sub ∈ SubdomainDiscovery.load_wordlist net wordlist ->
  sub ≠ "" /\ Py.strip sub = sub.
Proof.
  assert (forall sub, sub ∈ SubdomainDiscovery.default_subdomains ->
                      sub ≠ "" /\ Py.strip sub = sub) as Hdefault.
  { intros sub' Hin. unfold SubdomainDiscovery.default_subdomains in Hin.
    rewrite !elem_of_cons, elem_of_nil in Hin.
    repeat (destruct Hin as [->|Hin]; [by split|]). done. }
  unfold SubdomainDiscovery.load_wordlist.
  destruct wordlist as [path|]; [|apply Hdefault].
  destruct (String.eqb path ""); [apply Hdefault|].
  destruct (SubdomainDiscovery.read_wordlist net path) as [lines|];
    [|apply Hdefault].
  intros (line & -> & [Hline _]%list_elem_of_filter)%list_elem_of_fmap.
  split; [done|]. apply strip_stripped.
Qed.

Lemma wordlist_labels_stripped_witness :
  "mail" ≠ "" /\ Py.strip "mail" = "mail".
Proof.
  apply (wordlist_labels_stripped refusing_zone (Some "words.txt") "mail").
  simpl. rewrite !elem_of_cons. tauto.
Defined.

(** ** Sources of subdomain names *)

Lemma transfer_from_asked net target ns_records found :
  (SubdomainDiscovery.transfer_from net target ns_records found).2
  = ns_records.
Proof.
  revert found. induction ns_records as [|ns rest IH]; intros found; [done|].
  cbn [SubdomainDiscovery.transfer_from].
  match goal with
  | |- context [SubdomainDiscovery.transfer_from net target rest ?f] =>
      specialize (IH f);
      destruct (SubdomainDiscovery.transfer_from net target rest f)
  end.
  simpl in *. by rewrite IH.
Qed.

Lemma transfer_from_elem net target ns_records found d :
  d ∈ (SubdomainDiscovery.transfer_from net target ns_records found).1
  <-> d ∈ found
      \/ exists ns zone name,
           ns ∈ ns_records /\ SubdomainDiscovery.xfr net ns = Return zone
           /\ name ∈ zone /\ d = name ++ "." ++ target.
Proof.
  revert found. induction ns_records as [|ns rest IH]; intros found.
  - simpl. split; [by left|]. intros [?|(? & ? & ? & []%elem_of_nil & _)]. done.
  - cbn [SubdomainDiscovery.transfer_from].
    match goal with
    | |- context [SubdomainDiscovery.transfer_from net target rest ?f] =>
        specialize (IH f);
        destruct (SubdomainDiscovery.transfer_from net target rest f)
          as [found'' asked]
    end.
    cbn [fst] in *. rewrite IH. clear IH.
    destruct (SubdomainDiscovery.xfr net ns) as [zone|e] eqn:Hxfr.
    + rewrite elem_of_union, elem_of_list_to_set, list_elem_of_fmap. split.
      * intros [[(name & -> & Hname)|Hd]|(ns' & zone' & name & Hns & H)].
        -- right. exists ns, zone, name. rewrite elem_of_cons. eauto.
        -- by left.
        -- right. exists ns', zone', name. rewrite elem_of_cons. eauto.
      * intros [Hd|(ns' & zone' & name & Hns & Hx & Hname & ->)]; [eauto|].
        apply elem_of_cons in Hns as [->|Hns].
        -- left. left. exists name. split; [done|]. congruence.
        -- right. exists ns', zone', name. eauto.
    + split.
      * intros [Hd|(ns' & zone' & name & Hns & H)]; [by left|].
        right. exists ns', zone', name. rewrite elem_of_cons. eauto.
      * intros [Hd|(ns' & zone' & name & Hns & Hx & H)]; [by left|].
        apply elem_of_cons in Hns as [->|Hns]; [congruence|].
        right. exists ns', zone', name. eauto.
Qed.

Lemma attempt_zone_transfer_origin net target found :
  exists found' asked,
    SubdomainDiscovery._attempt_zone_transfer net target found
    = Return (found', asked)
    /\ found ⊆ found'
    /\ forall d, d ∈ found' ->
         d ∈ found
         \/ exists ns zone name,
              SubdomainDiscovery.xfr net ns = Return zone
              /\ name ∈ zone /\ d = name ++ "." ++ target.
Proof.
  unfold SubdomainDiscovery._attempt_zone_transfer.
  destruct (SubdomainDiscovery.resolve_ns net) as [ns_records|e]; simpl.
  - pose proof (transfer_from_elem net target ns_records found) as Helem.
    destruct (SubdomainDiscovery.transfer_from net target ns_records found)
      as [found' asked].
    simpl in Helem. exists found', asked. split; [done|]. split.
    + intros d Hd. apply Helem. by left.
    + intros d [Hd|(ns & zone & name & _ & Hx)]%Helem; [by left|].
      right. by exists ns, zone, name.
  - exists found, []. split; [done|]. split; [done|]. by left.
Qed.

(** X8. [_attempt_zone_transfer] always returns and never removes a
    name.  It asks every name server of the NS answer, in order,
    whatever the earlier ones answered, and none when the NS query
    fails.  A name it adds is a node name of a zone that one of those
    transfer calls returned, with the target appended; so when every
    transfer call raises (a refusal, or [AttributeError] where
    [dns.zone] is not loaded) the set is unchanged. *)
Theorem zone_transfer_collects net target found :
  exists found' asked,
    SubdomainDiscovery._attempt_zone_transfer net target found
    = Return (found', asked)
    /\ found ⊆ found'
    /\ (forall ns_records,
          SubdomainDiscovery.resolve_ns net = Return ns_records ->
          asked = ns_records)
    /\ ((exists e, SubdomainDiscovery.resolve_ns net = Raise e) ->
        asked = [] /\ found' = found)
    /\ (forall d,
          d ∈ found' ->
          d ∈ found
          \/ exists ns zone name,
               ns ∈ asked
               /\ SubdomainDiscovery.xfr net ns = Return zone
               /\ name ∈ zone /\ d = name ++ "." ++ target)
    /\ ((forall ns, ns ∈ asked ->
                    exists e, SubdomainDiscovery.xfr net ns = Raise e) ->
        found' = found).
Proof.
  unfold SubdomainDiscovery._attempt_zone_transfer.
  destruct (SubdomainDiscovery.resolve_ns net) as [ns_records|e]; simpl.
  - pose proof (transfer_from_asked net target ns_records found) as Hasked.
    pose proof (transfer_from_elem net target ns_records found) as Helem.
    pose proof (transfer_from_grows net target ns_records found) as Hsub.
    pose proof (transfer_refused net target ns_records found) as Href.
    destruct (SubdomainDiscovery.transfer_from net target ns_records found)
      as [found' asked].
    simpl in *. subst asked. exists found', ns_records.
    split; [done|]. split; [done|]. split; [by intros ? [= <-]|].
    split; [by intros [? ?]|]. split; [intros d; apply Helem|].
    intros Hall. assert ((found', ns_records) = (found, ns_records)) as Heq.
    { apply Href, Forall_forall, Hall. }
    by injection Heq.
  - exists found, []. split; [done|]. split; [done|]. split; [done|].
    split; [done|]. split; [by left|done].
Qed.

Lemma zone_transfer_collects_witness :
  SubdomainDiscovery._attempt_zone_transfer refusing_zone "example.org"
    {[ "old.example.org" ]}
  = Return ({[ "old.example.org" ]},
            ["ns1.example.org."; "ns2.example.org."]).
Proof.
  destruct (zone_transfer_collects refusing_zone "example.org"
              {[ "old.example.org" ]})
    as (found' & asked & -> & _ & Hasked & _ & _ & Hsame).
  rewrite (Hasked ["ns1.example.org."; "ns2.example.org."] eq_refl) in *.
  rewrite Hsame; [reflexivity|].
  intros ns _. exists DNSException. reflexivity.
Defined.

Lemma valid_names_elem target name_value d :
  d ∈ SubdomainDiscovery.valid_names target name_value ->
  Py.endswith d target = true /\ Py.has_char "*" d = false /\ Py.strip d = d.
Proof.
  unfold SubdomainDiscovery.valid_names.
  intros [[Hend Hstar] (line & -> & _)%list_elem_of_fmap]%list_elem_of_filter.
  split; [done|]. split; [done|]. apply strip_stripped.
Qed.

Lemma add_certificates_elem target data found d :
  d ∈ SubdomainDiscovery.add_certificates target data found ->
  d ∈ found
  \/ (Py.endswith d target = true /\ Py.has_char "*" d = false
      /\ Py.strip d = d).
Proof.
  revert found. induction data as [|[nv|] data IH]; intros found; simpl;
    [by left| |by left].
  intros [Hd|Hd]%IH; [|by right].
  apply elem_of_union in Hd as [Hd|Hd]; [|by left].
  right. apply elem_of_list_to_set in Hd. by eapply valid_names_elem.
Qed.

Lemma add_certificates_grows target data found :
  found ⊆ SubdomainDiscovery.add_certificates target data found.
Proof.
  revert found. induction data as [|[nv|] data IH]; intros found; simpl;
    [done| |done].
  etrans; [|apply IH]. apply union_subseteq_r.
Qed.

Lemma check_cert_transparency_cases net target found :
  exists found',
    SubdomainDiscovery._check_cert_transparency net target found
    = Return found'
    /\ (found' = found
        \/ exists data,
             found' = SubdomainDiscovery.add_certificates target data found).
Proof.
  unfold SubdomainDiscovery._check_cert_transparency.
  destruct (SubdomainDiscovery.crt_sh net) as [[status [data|e]]|e]; simpl;
    try destruct (status =? 200)%Z; simpl; eauto.
Qed.

(** X9. The certificate-transparency query always returns and never
    removes a name; a name it adds ends with the target, has no asterisk
    and no whitespace around it; with a status other than 200 it adds
    nothing. *)
Theorem cert_transparency_filter net target found :
  exists found',
    SubdomainDiscovery._check_cert_transparency net target found
    = Return found'
    /\ found ⊆ found'
    /\ (forall d, d ∈ found' ->
          d ∈ found
          \/ (Py.endswith d target = true /\ Py.has_char "*" d = false
              /\ Py.strip d = d))
    /\ (forall status body,
          SubdomainDiscovery.crt_sh net = Return (status, body) ->
          status ≠ 200%Z -> found' = found).
Proof.
  unfold SubdomainDiscovery._check_cert_transparency.
  destruct (SubdomainDiscovery.crt_sh net) as [[status [data|e]]|e]; simpl;
    try destruct (Z.eqb_spec status 200) as [->|Hne]; simpl;
    try (exists found; split; [done|]; split; [done|];
         split; [by left|]; by intros ? ? [= <- <-]).
  exists (SubdomainDiscovery.add_certificates target data found).
  split; [done|]. split; [apply add_certificates_grows|].
  split; [intros d; apply add_certificates_elem|].
  by intros ? ? [= <- <-].
Qed.

Lemma cert_transparency_filter_witness :
  exists found',
    SubdomainDiscovery._check_cert_transparency refusing_zone "example.org"
      {[ "www.example.org" ]} = Return found'
    /\ "www.example.org" ∈ found'.
Proof.
  destruct (cert_transparency_filter refusing_zone "example.org"
              {[ "www.example.org" ]}) as (found' & Hct & Hsub & _).
  exists found'. split; [exact Hct|]. apply Hsub.
  apply elem_of_singleton. reflexivity.
Defined.

Lemma collect_Return_all completed found found' :
  SubdomainDiscovery.collect completed found = Return found' ->
  Forall (fun r => exists o, r = Return o) completed.
Proof.
  revert found. induction completed as [|[[d|]|e] completed IH];
    intros found; simpl; [constructor| | |done].
  - destruct (String.eqb d ""); intros H; (constructor; [by eexists|]);
      by eapply IH.
  - intros H. constructor; [by eexists|]. by eapply IH.
Qed.

Lemma brute_force_elem net as_completed target wordlist found found1 :
  (forall l, as_completed l ≡ₚ l) ->
  SubdomainDiscovery._brute_force_subdomains net as_completed target wordlist
    found = Return found1 ->
  forall d, d ∈ found1 <->
    d ∈ found \/
    exists i sub ip,
      SubdomainDiscovery.load_wordlist net wordlist !! i = Some sub
      /\ d = sub ++ "." ++ target
      /\ SubdomainDiscovery.lookup net i d = Return ip.
Proof.
  intros Hperm. unfold SubdomainDiscovery._brute_force_subdomains.
  set (subs := SubdomainDiscovery.load_wordlist net wordlist).
  set (futures := imap (SubdomainDiscovery._test_subdomain net target) subs).
  intros Hret d.
  destruct (collect_returns (as_completed futures) found
              (collect_Return_all _ _ _ Hret)) as (found' & Hret' & Hfound').
  rewrite Hret in Hret'. injection Hret' as <-.
  rewrite Hfound', Hperm. unfold futures. rewrite elem_of_lookup_imap.
  split; (intros [?|H]; [by left|right]).
  - destruct H as [(i & sub & Ht & Hsub) _]. symmetry in Ht.
    apply test_subdomain_found in Ht as [-> [ip Hip]]. by exists i, sub, ip.
  - destruct H as (i & sub & ip & Hsub & -> & Hip). split.
    + exists i, sub. split; [|done]. symmetry.
      apply test_subdomain_found. eauto.
    + apply full_domain_nonempty.
Qed.

(** X10. Where the names of [discover] come from. Every name that was in
    the set is reported, the count is the number of entries, and a
    reported name was in the set, or resolved in the brute force, or is
    a node of a transferred zone, or ends with the target and has no
    asterisk (the certificate filter). *)
Theorem discover_provenance net as_completed set_iter target wordlist found r :
  (forall l, as_completed l ≡ₚ l) ->
  (forall X, set_iter X ≡ₚ elements X) ->
  SubdomainDiscovery.discover net as_completed set_iter target wordlist found
  = Return r ->
  (forall d, d ∈ found ->
     d ∈ SubdomainDiscovery.subdomain <$> SubdomainDiscovery.subdomains r)
  /\ SubdomainDiscovery.total_found r
     = length (SubdomainDiscovery.subdomains r)
  /\ forall d,
       d ∈ SubdomainDiscovery.subdomain <$> SubdomainDiscovery.subdomains r ->
       d ∈ found
       \/ (exists i sub ip,
             SubdomainDiscovery.load_wordlist net wordlist !! i = Some sub
             /\ d = sub ++ "." ++ target
             /\ SubdomainDiscovery.lookup net i d = Return ip)
       \/ (exists ns zone name,
             SubdomainDiscovery.xfr net ns = Return zone
             /\ name ∈ zone /\ d = name ++ "." ++ target)
       \/ (Py.endswith d target = true /\ Py.has_char "*" d = false).
Proof.
  intros Hperm Hit. unfold SubdomainDiscovery.discover.
  destruct (SubdomainDiscovery._brute_force_subdomains net as_completed target
              wordlist found) as [found1|] eqn:Hbrute; simpl; [|done].
  pose proof (brute_force_elem _ _ _ _ _ _ Hperm Hbrute) as H1.
  destruct (attempt_zone_transfer_origin net target found1)
    as (found2 & asked & -> & Hsub2 & H2).
  simpl.
  destruct (check_cert_transparency_cases net target found2)
    as (found3 & -> & Hcases).
  assert (found2 ⊆ found3
          /\ forall d, d ∈ found3 ->
               d ∈ found2
               \/ (Py.endswith d target = true /\ Py.has_char "*" d = false
                   /\ Py.strip d = d)) as [Hsub3 H3].
  { destruct Hcases as [->|[data ->]].
    - split; [done|]. by left.
    - split; [apply add_certificates_grows|].
      intros d. apply add_certificates_elem. }
  simpl. intros [= <-].
  assert (forall d,
            d ∈ SubdomainDiscovery.subdomain
                  <$> SubdomainDiscovery.subdomains
                        (SubdomainDiscovery.compile_results net set_iter found3)
            <-> d ∈ found3) as Hnames.
  { intros d. rewrite compile_results_names, sorted_perm, Hit.
    apply elem_of_elements. }
  split; [|split].
  - intros d Hd. apply Hnames, Hsub3, Hsub2, H1. by left.
  - done.
  - intros d Hd%Hnames. apply H3 in Hd as [Hd|(? & ? & _)]; [|by auto].
    apply H2 in Hd as [Hd|Hd]; [|by auto].
    apply H1 in Hd as [Hd|Hd]; by auto.
Qed.

Lemma discover_provenance_witness :
  exists r,
    SubdomainDiscovery.discover refusing_zone id elements "example.org" None
      {[ "old.example.org" ]} = Return r
    /\ "old.example.org"
       ∈ SubdomainDiscovery.subdomain <$> SubdomainDiscovery.subdomains r.
Proof.
  destruct (brute_force_returns refusing_zone id "example.org" None
              {[ "old.example.org" ]}) as (found1 & Hbrute & _).
  - intros l. reflexivity.
  - intros i name e. simpl.
    destruct (String.eqb name "www.example.org"); [discriminate|].
    intros H. injection H as <-. reflexivity.
  - destruct (discover_returns refusing_zone id elements "example.org" None
                {[ "old.example.org" ]} found1 Hbrute) as [r Hr].
    exists r. split; [exact Hr|].
    apply (discover_provenance refusing_zone id elements "example.org" None
             {[ "old.example.org" ]} r).
    + intros l. reflexivity.
    + intros X. reflexivity.
    + exact Hr.
    + apply elem_of_singleton. reflexivity.
Defined.

(** ** The port scanner as a whole *)

Lemma parse_parts_raises parts port_list e :
  PortScanner.parse_parts parts port_list = Raise e -> e = ValueError.
Proof.
  revert port_list. induction parts as [|part rest IH]; intros port_list;
    simpl; [done|].
  destruct (PortScanner.parse_part part) as [ps|e'] eqn:Hpart; simpl.
  - apply IH.
  - intros [= <-]. by eapply parse_part_raises.
Qed.

Lemma custom_scan_ports_requested net as_completed ports scan_type
    port_list :
  (forall l, as_completed l ≡ₚ l) ->
  PortScanner._parse_port_range ports = Return port_list ->
  exists l,
    (PortScanner._custom_scan net as_completed ports scan_type).1 = Return l
    /\ PortScanner.port <$> l ⊆+ port_list.
Proof.
  intros Hperm Hparse.
  destruct (custom_scan_returns net as_completed ports scan_type port_list
              Hperm Hparse) as (l & Hl & Hlperm).
  exists l. split; [by rewrite Hl|].
  rewrite Hlperm. apply sublist_submseteq, open_ports_sublist.
  by intros i p e ->%scan_port_Some.
Qed.

(** X11. The ports that the custom scan reports are among the ports
    parsed from the specification, each at most as often as it was
    named. *)
Theorem custom_scan_reports_requested net as_completed ports scan_type
    port_list :
  (forall l, as_completed l ≡ₚ l) ->
  PortScanner._parse_port_range ports = Return port_list ->
  exists l,
    (PortScanner._custom_scan net as_completed ports scan_type).1 = Return l
    /\ PortScanner.port <$> l ⊆+ port_list
    /\ length l <= length port_list.
Proof.
  intros Hperm Hparse.
  destruct (custom_scan_ports_requested net as_completed ports scan_type
              port_list Hperm Hparse) as (l & Hl & Hsub).
  exists l. split; [done|]. split; [done|].
  apply submseteq_length in Hsub. by rewrite length_fmap in Hsub.
Qed.

Lemma custom_scan_reports_requested_witness :
  exists l,
    (PortScanner._custom_scan (quiet_host [22; 80]%Z) (@rev _) "80,22,80" "tcp").1
    = Return l
    /\ length l <= 3.
Proof.
  destruct (custom_scan_reports_requested (quiet_host [22; 80]%Z) (@rev _)
              "80,22,80" "tcp" [80; 22; 80]%Z) as (l & Hl & _ & Hlen).
  - intros l. symmetry. apply Permutation_rev.
  - reflexivity.
  - exists l. split; [exact Hl|exact Hlen].
Defined.

(** X12. How [scan] ends.  It raises in two ways only, both before
    any socket call: with an exception that [_check_nmap] does not
    catch, at its first or second call, or with [ValueError] on the
    custom path when the port specification does not parse.  When both
    calls of [_check_nmap] return, it raises exactly in the second case.
    When [scan] returns, the count is the number of entries, the method
    recorded is that of the first call, the entries are those of nmap
    on the nmap path, and on the custom path the ports reported are
    among the ports named. *)
Theorem scan_outcome h net as_completed ports scan_type :
  (forall l, as_completed l ≡ₚ l) ->
  (forall e,
     (PortScanner.scan h net as_completed ports scan_type).1 = Raise e ->
     (PortScanner.scan h net as_completed ports scan_type).2 = []
     /\ (PortScanner._check_nmap (PortScanner.nmap_version h 0) = Raise e
         \/ PortScanner._check_nmap (PortScanner.nmap_version h 1) = Raise e
         \/ (e = ValueError
             /\ PortScanner._parse_port_range ports = Raise ValueError
             /\ exists found_nmap,
                  PortScanner._check_nmap (PortScanner.nmap_version h 1)
                  = Return found_nmap
                  /\ found_nmap && String.eqb scan_type "syn" = false)))
  /\ (forall e,
        PortScanner._check_nmap (PortScanner.nmap_version h 0) = Raise e
        \/ ((exists found_first,
               PortScanner._check_nmap (PortScanner.nmap_version h 0)
               = Return found_first)
            /\ PortScanner._check_nmap (PortScanner.nmap_version h 1)
               = Raise e) ->
        PortScanner.scan h net as_completed ports scan_type = (Raise e, []))
  /\ (forall found_first found_nmap,
        PortScanner._check_nmap (PortScanner.nmap_version h 0)
        = Return found_first ->
        PortScanner._check_nmap (PortScanner.nmap_version h 1)
        = Return found_nmap ->
        ((exists e,
            (PortScanner.scan h net as_completed ports scan_type).1 = Raise e)
         <-> found_nmap && String.eqb scan_type "syn" = false
             /\ exists e, PortScanner._parse_port_range ports = Raise e)
        /\ forall r,
             (PortScanner.scan h net as_completed ports scan_type).1
             = Return r ->
             PortScanner.total_open_ports r
             = length (PortScanner.open_ports r)
             /\ PortScanner.scan_method r
                = (if found_first then "nmap" else "custom")
             /\ (found_nmap && String.eqb scan_type "syn" = true ->
                 PortScanner.open_ports r = PortScanner.nmap_scan h ports)
             /\ (found_nmap && String.eqb scan_type "syn" = false ->
                 exists port_list,
                   PortScanner._parse_port_range ports = Return port_list
                   /\ PortScanner.port <$> PortScanner.open_ports r
                      ⊆+ port_list)).
Proof.
  intros Hperm.
  assert (forall found_first found_nmap,
    PortScanner._check_nmap (PortScanner.nmap_version h 0)
    = Return found_first ->
    PortScanner._check_nmap (PortScanner.nmap_version h 1)
    = Return found_nmap ->
    ((exists e,
        (PortScanner.scan h net as_completed ports scan_type).1 = Raise e)
     <-> found_nmap && String.eqb scan_type "syn" = false
         /\ exists e, PortScanner._parse_port_range ports = Raise e)
    /\ (forall e,
          (PortScanner.scan h net as_completed ports scan_type).1 = Raise e ->
          (PortScanner.scan h net as_completed ports scan_type).2 = []
          /\ e = ValueError
          /\ PortScanner._parse_port_range ports = Raise ValueError
          /\ found_nmap && String.eqb scan_type "syn" = false)
    /\ forall r,
         (PortScanner.scan h net as_completed ports scan_type).1 = Return r ->
         PortScanner.total_open_ports r = length (PortScanner.open_ports r)
         /\ PortScanner.scan_method r
            = (if found_first then "nmap" else "custom")
         /\ (found_nmap && String.eqb scan_type "syn" = true ->
             PortScanner.open_ports r = PortScanner.nmap_scan h ports)
         /\ (found_nmap && String.eqb scan_type "syn" = false ->
             exists port_list,
               PortScanner._parse_port_range ports = Return port_list
               /\ PortScanner.port <$> PortScanner.open_ports r
                  ⊆+ port_list)) as Hboth.
  { intros found_first found_nmap H0 H1. unfold PortScanner.scan.
    rewrite H0, H1.
    destruct (found_nmap && String.eqb scan_type "syn") eqn:Hpath.
    - simpl. split; [|split].
      + split; [by intros [e ?]|by intros [? _]].
      + done.
      + intros r [= <-]. done.
    - destruct (PortScanner._parse_port_range ports) as [port_list|e]
        eqn:Hparse.
      + destruct (custom_scan_ports_requested net as_completed ports
                    scan_type port_list Hperm Hparse) as (l & Hl & Hsub).
        destruct (PortScanner._custom_scan net as_completed ports scan_type)
          as [found calls]. simpl in Hl. subst found. simpl.
        split; [|split].
        * split; [by intros [e ?]|by intros [_ [e ?]]].
        * done.
        * intros r [= <-]. simpl. split; [done|]. split; [done|].
          split; [done|]. intros _. by exists port_list.
      + unfold PortScanner._custom_scan. rewrite Hparse. simpl.
        pose proof Hparse as He. unfold PortScanner._parse_port_range in He.
        apply parse_parts_raises in He as ->.
        split; [|split].
        * split; [by eauto|by eauto].
        * by intros e' [= <-].
        * done. }
  split; [|split].
  - intros e He.
    destruct (PortScanner._check_nmap (PortScanner.nmap_version h 0))
      as [found_first|e0] eqn:H0.
    + destruct (PortScanner._check_nmap (PortScanner.nmap_version h 1))
        as [found_nmap|e1] eqn:H1.
      * destruct (Hboth _ _ eq_refl eq_refl) as (_ & Hraise & _).
        destruct (Hraise e He) as (Hcalls & -> & Hparse & Hpath).
        split; [done|]. right. right. split; [done|]. split; [done|].
        by exists found_nmap.
      * unfold PortScanner.scan in He |- *. rewrite H0, H1 in He |- *.
        simpl in He |- *. injection He as <-.
        split; [done|]. right. by left.
    + unfold PortScanner.scan in He |- *. rewrite H0 in He |- *.
      simpl in He |- *. injection He as <-.
      split; [done|]. by left.
  - intros e [H0|[[found_first H0] H1]]; unfold PortScanner.scan.
    + by rewrite H0.
    + by rewrite H0, H1.
  - intros found_first found_nmap H0 H1.
    destruct (Hboth _ _ H0 H1) as (Hiff & _ & Hret). by split.
Qed.

Lemma scan_outcome_witness :
  PortScanner.scan locked_nmap (quiet_host [22]%Z) id "22" "tcp"
  = (Raise OSError, [])
  /\ exists e, (PortScanner.scan no_nmap (quiet_host []) id "80,http" "syn").1
               = Raise e.
Proof.
  split.
  - apply (proj1 (proj2 (scan_outcome locked_nmap (quiet_host [22]%Z) id "22"
                           "tcp" (fun l => reflexivity l)))).
    left. reflexivity.
  - apply (proj1 (proj2 (proj2 (scan_outcome no_nmap (quiet_host []) id
                                  "80,http" "syn" (fun l => reflexivity l)))
                    false false eq_refl eq_refl)).
    split; [reflexivity|]. exists ValueError. reflexivity.
Defined.

(** ** The nmap backend *)

Lemma parse_ports_ok ports open_ports :
  Forall (fun el => NmapBackend.is_open el = true -> is_Some (open_portid el))
         ports ->
  exists found,
    NmapBackend.parse_ports ports open_ports = Return (open_ports ++ found)%list
    /\ NmapBackend.port <$> found = omap open_portid ports
    /\ Forall (fun e => NmapBackend.state e = "open") found.
Proof.
  intros Hall. revert open_ports.
  induction Hall as [|el ports Hel _ IH]; intros open_ports.
  - exists []. by rewrite app_nil_r.
  - cbn [NmapBackend.parse_ports omap list_omap]. unfold open_portid in *.
    destruct (NmapBackend.is_open el).
    + destruct (Hel eq_refl) as [n Hn].
      destruct (NmapBackend.int_portid el) as [n'|]; [|done].
      simpl in Hn. injection Hn as ->. simpl.
      match goal with
      | |- context [NmapBackend.parse_ports ports ?acc] =>
          destruct (IH acc) as (found & -> & Hports & Hstate)
      end.
      exists ({| NmapBackend.port := n;
                 NmapBackend.protocol := NmapBackend.elem_protocol el;
                 NmapBackend.state := "open";
                 NmapBackend.service := NmapBackend.service_name el |}
              :: found).
      rewrite <- app_assoc. split; [done|].
      split; [by rewrite fmap_cons, Hports|]. by constructor.
    + apply IH.
Qed.

Lemma parse_ports_bad ports open_ports :
  Exists (fun el => NmapBackend.is_open el = true /\ open_portid el = None)
         ports ->
  exists e, NmapBackend.parse_ports ports open_ports = Raise e.
Proof.
  intros Hex. revert open_ports.
  induction ports as [|el ports IH]; intros open_ports.
  - by apply Exists_nil in Hex.
  - cbn [NmapBackend.parse_ports].
    destruct (NmapBackend.is_open el) eqn:Hopen.
    + destruct (NmapBackend.int_portid el) as [n|e] eqn:Hint; simpl;
        [|by eexists].
      apply Exists_cons in Hex as [[_ Hbad]|Hex]; [|by apply IH].
      unfold open_portid in Hbad. by rewrite Hopen, Hint in Hbad.
    + apply Exists_cons in Hex as [[Hbad _]|Hex]; [congruence|]. by apply IH.
Qed.

(** X13. The nmap backend reports the open port elements of the XML, in
    document order and all with state "open", when each of them has an
    integer [portid]; one open element without an integer [portid]
    leaves it with no port at all. Elements that are not open are not
    looked at. *)
Theorem nmap_scan_all_or_nothing t ports stdout elems :
  NmapBackend.run t ports = NmapBackend.Completed stdout ->
  NmapBackend.fromstring t stdout = NmapBackend.Parsed elems ->
  (Forall (fun el => NmapBackend.is_open el = true -> is_Some (open_portid el))
          elems ->
   NmapBackend.port <$> NmapBackend._nmap_scan t ports
   = omap open_portid elems
   /\ Forall (fun e => NmapBackend.state e = "open")
             (NmapBackend._nmap_scan t ports))
  /\ (Exists (fun el => NmapBackend.is_open el = true /\ open_portid el = None)
             elems ->
      NmapBackend._nmap_scan t ports = []).
Proof.
  intros Hrun Hxml. unfold NmapBackend._nmap_scan.
  rewrite Hrun, Hxml. simpl. split.
  - intros Hall. destruct (parse_ports_ok elems [] Hall)
      as (found & -> & Hports & Hstate). done.
  - intros Hex. by destruct (parse_ports_bad elems [] Hex) as [e ->].
Qed.

Lemma nmap_scan_all_or_nothing_witness :
  NmapBackend.port
    <$> NmapBackend._nmap_scan
          (nmap_run [port_element "open" "22"; port_element "closed" "x";
                     port_element "open" "443"]) "1-1000"
  = [22; 443]%Z
  /\ NmapBackend._nmap_scan
       (nmap_run [port_element "open" "22"; port_element "open" "x"]) "1-1000"
     = [].
Proof.
  split.
  - apply (proj1 (nmap_scan_all_or_nothing
                    (nmap_run [port_element "open" "22";
                               port_element "closed" "x";
                               port_element "open" "443"])
                    "1-1000" "<nmaprun/>" _ eq_refl eq_refl)).
    repeat first [apply Forall_nil_2 | apply Forall_cons_2];
      intros Hopen; vm_compute in Hopen |- *; by eauto.
  - apply (proj2 (nmap_scan_all_or_nothing
                    (nmap_run [port_element "open" "22";
                               port_element "open" "x"])
                    "1-1000" "<nmaprun/>" _ eq_refl eq_refl)).
    apply Exists_cons_tl, Exists_cons_hd. split; reflexivity.
Defined.

(** ** DNS enumeration *)

Lemma dict_set_fresh {V} (k : string) (v : V) (d : list (string * V)) :
  k ∉ d.*1 -> DNSEnumerator.dict_set k v d = (d ++ [(k, v)])%list.
Proof.
  induction d as [|[k' v'] d IH]; [done|]. simpl.
  intros [Hne Hk]%not_elem_of_cons.
  destruct (String.eqb_spec k' k) as [->|_]; [done|]. by rewrite IH.
Qed.

Lemma stored_records_key resolve record_type kv :
  stored_records resolve record_type = Some kv -> kv.1 = record_type.
Proof.
  unfold stored_records.
  destruct (DNSEnumerator._query_record_type resolve record_type);
    [done|by intros [= <-]].
Qed.

Lemma omap_stored_keys resolve types key :
  key ∈ (omap (stored_records resolve) types).*1 -> key ∈ types.
Proof.
  intros (kv & -> & (T & HT & Hkv)%list_elem_of_omap)%list_elem_of_fmap.
  by rewrite (stored_records_key _ _ _ Hkv).
Qed.

Lemma query_all_stored resolve types recs :
  NoDup types ->
  (forall record_type, record_type ∈ types -> record_type ∉ recs.*1) ->
  DNSEnumerator.query_all resolve types recs
  = (recs ++ omap (stored_records resolve) types)%list.
Proof.
  intros Hnd. revert recs.
  induction Hnd as [|T types HT _ IH]; intros recs Hfresh;
    [by rewrite app_nil_r|].
  cbn [DNSEnumerator.query_all omap list_omap].
  pose proof (eq_refl (stored_records resolve T)) as Hst.
  unfold stored_records at 2 in Hst.
  destruct (DNSEnumerator._query_record_type resolve T) as [|r rs] eqn:Hq;
    rewrite Hst.
  - apply IH. intros T' HT'. apply Hfresh. by apply list_elem_of_further.
  - rewrite dict_set_fresh by (apply Hfresh, list_elem_of_here).
    rewrite IH.
    + by rewrite <- app_assoc.
    + intros T' HT'. rewrite fmap_app.
      intros [Hin|Heq%list_elem_of_singleton]%elem_of_app.
      * eapply Hfresh; [|done]. by apply list_elem_of_further.
      * simpl in Heq. by subst T'.
Qed.

Lemma parse_record_tagged record_type rd r :
  DNSEnumerator._parse_record record_type rd = Some r ->
  head r = Some ("type", DNSEnumerator.FStr record_type).
Proof.
  unfold DNSEnumerator._parse_record, DNSEnumerator.parse_record_body.
  repeat match goal with
         | |- context [String.eqb record_type ?T] =>
             destruct (String.eqb_spec record_type T) as [->|_]
         end;
    repeat match goal with
           | |- context [mbind _ ?x] => destruct x; simpl; try done
           end;
    by intros [= <-].
Qed.

Lemma query_record_type_tagged resolve record_type r :
  r ∈ DNSEnumerator._query_record_type resolve record_type ->
  head r = Some ("type", DNSEnumerator.FStr record_type).
Proof.
  unfold DNSEnumerator._query_record_type.
  destruct (resolve record_type) as [answers|]; [|by intros ?%elem_of_nil].
  intros (rd & _ & Hrd)%list_elem_of_omap.
  destruct (DNSEnumerator._parse_record record_type rd) as [r'|] eqn:Hp;
    [|done].
  destruct (DNSEnumerator.truthy r'); [|done]. injection Hrd as <-.
  by eapply parse_record_tagged.
Qed.

Lemma enumerate_stored resolve :
  DNSEnumerator.records (DNSEnumerator.enumerate resolve)
  = omap (stored_records resolve) DNSEnumerator.record_types.
Proof.
  unfold DNSEnumerator.enumerate. cbn [DNSEnumerator.records].
  rewrite query_all_stored; [done|..].
  - apply (bool_decide_unpack _). by vm_compute.
  - intros T _. apply not_elem_of_nil.
Qed.

Lemma stored_keys resolve (types : list string) :
  (omap (stored_records resolve) types).*1
  = filter (fun T => DNSEnumerator._query_record_type resolve T ≠ []) types.
Proof.
  induction types as [|T types IH]; [done|].
  cbn [omap list_omap]. rewrite filter_cons. unfold stored_records at 1.
  destruct (DNSEnumerator._query_record_type resolve T) eqn:Hq.
  - rewrite decide_False; [exact IH|]. intros H. by apply H.
  - rewrite decide_True by done. by rewrite fmap_cons, IH.
Qed.

Lemma stored_total resolve (types : list string) :
  foldr Nat.add 0
        (map (fun kv : string * list DNSEnumerator.record => length kv.2)
             (omap (stored_records resolve) types))
  = sum_list ((fun T => length (DNSEnumerator._query_record_type resolve T))
                <$> types).
Proof.
  induction types as [|T types IH]; [done|].
  cbn [omap list_omap]. rewrite fmap_cons. cbn [sum_list sum_list_with].
  unfold stored_records at 1.
  destruct (DNSEnumerator._query_record_type resolve T) eqn:Hq; simpl.
  - exact IH.
  - by rewrite IH.
Qed.

(** X14. The records of [enumerate]: the types that have at least one
    record, in the order of the type list, each with the records its own
    query gave, whatever the queries of the other types ran into; every
    record carries the type it is stored under; the total is the number
    of records. *)
Theorem enumerate_records resolve :
  (DNSEnumerator.records (DNSEnumerator.enumerate resolve)).*1
  = filter (fun T => DNSEnumerator._query_record_type resolve T ≠ [])
           DNSEnumerator.record_types
  /\ (forall T found,
        (T, found) ∈ DNSEnumerator.records (DNSEnumerator.enumerate resolve)
        <-> T ∈ DNSEnumerator.record_types
            /\ found = DNSEnumerator._query_record_type resolve T
            /\ found ≠ [])
  /\ (forall T found r,
        (T, found) ∈ DNSEnumerator.records (DNSEnumerator.enumerate resolve) ->
        r ∈ found -> head r = Some ("type", DNSEnumerator.FStr T))
  /\ DNSEnumerator.total_records (DNSEnumerator.enumerate resolve)
     = sum_list ((fun T => length (DNSEnumerator._query_record_type resolve T))
                   <$> DNSEnumerator.record_types).
Proof.
  assert (forall T found,
            (T, found) ∈ DNSEnumerator.records (DNSEnumerator.enumerate resolve)
            <-> T ∈ DNSEnumerator.record_types
                /\ found = DNSEnumerator._query_record_type resolve T
                /\ found ≠ []) as Helem.
  { intros T found. rewrite enumerate_stored, list_elem_of_omap.
    unfold stored_records. split.
    - intros (T' & HT' & Hst).
      destruct (DNSEnumerator._query_record_type resolve T') eqn:Hq; [done|].
      injection Hst as <- <-. by rewrite Hq.
    - intros (HT & -> & Hne). exists T. split; [done|].
      by destruct (DNSEnumerator._query_record_type resolve T). }
  split; [|split; [done|split]].
  - rewrite enumerate_stored. apply stored_keys.
  - intros T found r (_ & -> & _)%Helem.
    apply query_record_type_tagged.
  - rewrite <- stored_total, <- enumerate_stored. reflexivity.
Qed.

Lemma enumerate_records_witness :
  ("NS", [ [("type", DNSEnumerator.FStr "NS");
            ("nameserver", DNSEnumerator.FStr "ns1.example.org.")] ])
  ∈ DNSEnumerator.records (DNSEnumerator.enumerate small_zone).
Proof.
  apply (proj2 (proj1 (proj2 (enumerate_records small_zone)) "NS" _)).
  split; [|split; [reflexivity|discriminate]].
  unfold DNSEnumerator.record_types. rewrite !elem_of_cons. tauto.
Defined.

(** ** WHOIS fields *)

Lemma format_date_range str date_value :
  WhoisLookup._format_date str date_value = WhoisLookup.PNone
  \/ exists s, WhoisLookup._format_date str date_value = WhoisLookup.PStr s.
Proof.
  unfold WhoisLookup._format_date, WhoisLookup.format_one.
  destruct date_value as [|[|[] ?]| | |]; eauto.
Qed.

(** X15. A date attribute read with [_safe_get] and formatted with
    [_format_date] is [None] or a string. It is [None] exactly when the
    attribute is missing, [None], the empty list or the list [[None]]; a
    date, alone or first in a list, gives its ISO format. *)
Theorem format_date_of_safe_get str attr key :
  (WhoisLookup._format_date str (WhoisLookup._safe_get attr key)
   = WhoisLookup.PNone
   <-> (exists e, attr key = Raise e)
       \/ attr key = Return WhoisLookup.PNone
       \/ attr key = Return (WhoisLookup.PList [])
       \/ attr key = Return (WhoisLookup.PList [WhoisLookup.PNone]))
  /\ (WhoisLookup._format_date str (WhoisLookup._safe_get attr key)
      = WhoisLookup.PNone
      \/ exists s,
           WhoisLookup._format_date str (WhoisLookup._safe_get attr key)
           = WhoisLookup.PStr s)
  /\ (forall iso rest,
        attr key
        = Return (WhoisLookup.PList (WhoisLookup.PDateTime iso :: rest)) ->
        WhoisLookup._format_date str (WhoisLookup._safe_get attr key)
        = WhoisLookup.PStr iso)
  /\ (forall iso,
        attr key = Return (WhoisLookup.PDateTime iso) ->
        WhoisLookup._format_date str (WhoisLookup._safe_get attr key)
        = WhoisLookup.PStr iso).
Proof.
  split; [|split; [apply format_date_range|split]].
  - unfold WhoisLookup._safe_get, WhoisLookup._format_date,
      WhoisLookup.format_one.
    destruct (attr key) as [[|[|[|[|[] ?]| | |] [|? ?]]| | |]|e];
      split; try done; try (intros _; by eauto 6);
      intros [[? ?]|[?|[?|?]]]; done.
  - intros iso rest Hattr. unfold WhoisLookup._safe_get. rewrite Hattr.
    by destruct rest.
  - intros iso Hattr. unfold WhoisLookup._safe_get. by rewrite Hattr.
Qed.

Lemma format_date_of_safe_get_witness :
  WhoisLookup._format_date (fun _ => "?")
    (WhoisLookup._safe_get
       (fun _ => Return (WhoisLookup.PList
                           [WhoisLookup.PDateTime "1997-09-15T04:00:00";
                            WhoisLookup.PDateTime "1997-09-15T07:00:00"]))
       "creation_date")
  = WhoisLookup.PStr "1997-09-15T04:00:00".
Proof.
  apply (proj1 (proj2 (proj2 (format_date_of_safe_get (fun _ => "?")
                                (fun _ => Return _) "creation_date")))
           "1997-09-15T04:00:00" [WhoisLookup.PDateTime "1997-09-15T07:00:00"]).
  reflexivity.
Defined.

(** X16. [lookup] always gives the fourteen fields in their order, or no
    field and the error text; its three date fields are [None] or
    strings. *)
Theorem lookup_fields str exn_str whois :
  (forall w, whois = Return w ->
     (WhoisLookup.whois_data (WhoisLookup.lookup str exn_str whois)).*1
     = WhoisLookup.whois_keys
     /\ WhoisLookup.error (WhoisLookup.lookup str exn_str whois) = None
     /\ forall key v,
          (key, v)
          ∈ WhoisLookup.whois_data (WhoisLookup.lookup str exn_str whois) ->
          (key ∈ WhoisLookup.date_keys ->
           v = WhoisLookup.PNone \/ exists s, v = WhoisLookup.PStr s)
          /\ (key ∉ WhoisLookup.date_keys -> v = WhoisLookup._safe_get w key))
  /\ (forall e, whois = Raise e ->
        WhoisLookup.whois_data (WhoisLookup.lookup str exn_str whois) = []
        /\ WhoisLookup.error (WhoisLookup.lookup str exn_str whois)
           = Some (exn_str e)).
Proof.
  split.
  - intros w ->. unfold WhoisLookup.lookup. cbn [WhoisLookup.whois_data
      WhoisLookup.error].
    split; [|split; [done|]].
    + rewrite <- list_fmap_compose. apply list_fmap_id.
    + intros key v (key' & [= -> ->] & _)%list_elem_of_fmap. split.
      * intros Hdate. rewrite bool_decide_eq_true_2 by done.
        apply format_date_range.
      * intros Hdate. by rewrite bool_decide_eq_false_2.
  - by intros e ->.
Qed.

Lemma lookup_fields_witness :
  WhoisLookup.whois_data
    (WhoisLookup.lookup (fun _ => "?") (fun _ => "failed") (Raise OSError))
  = [].
Proof.
  apply (proj2 (lookup_fields (fun _ => "?") (fun _ => "failed")
                  (Raise OSError)) OSError).
  reflexivity.
Defined.

(** ** The tree writers of the output handler *)

Lemma pyval_induction_deep (P : OutputHandler.pyval -> Prop) :
  (forall id, P (OutputHandler.VAtom id)) ->
  (forall items, Forall P items -> P (OutputHandler.VList items)) ->
  (forall entries,
     Forall (fun kv : string * OutputHandler.pyval =>
               P kv.2
               /\ forall items, kv.2 = OutputHandler.VList items ->
                                Forall P items) entries ->
     P (OutputHandler.VDict entries)) ->
  forall v, P v.
Proof.
  intros Hatom Hlist Hdict v.
  enough (P v /\ forall items, v = OutputHandler.VList items -> Forall P items)
    as [H _] by exact H.
  induction v as [id|items IH|entries IH] using OutputHandler.pyval_induction.
  - split; [apply Hatom|done].
  - assert (Forall P items) as Hitems.
    { eapply Forall_impl; [exact IH|]. by intros x [H _]. }
    split; [by apply Hlist|]. by intros ? [= <-].
  - split; [|done]. apply Hdict. exact IH.
Qed.

Lemma replace_char_removes old new s :
  old <> new ->
  Py.has_char old (OutputHandler.replace_char old new s) = false.
Proof.
  intros Hne. induction s as [|c s IH]; [done|]. simpl. rewrite IH, orb_false_r.
  destruct (Ascii.eqb c old) eqn:Hc.
  - apply Ascii.eqb_neq. congruence.
  - exact Hc.
Qed.

Lemma replace_char_keeps c old new s :
  c <> new ->
  Py.has_char c s = false ->
  Py.has_char c (OutputHandler.replace_char old new s) = false.
Proof.
  intros Hne. induction s as [|d s IH]; [done|]. simpl.
  intros [Hd Hs]%orb_false_elim. rewrite (IH Hs), orb_false_r.
  destruct (Ascii.eqb d old); [|exact Hd].
  apply Ascii.eqb_neq. congruence.
Qed.

Lemma sanitize_clean key :
  OutputHandler.clean_tag (OutputHandler.sanitize key) = true.
Proof.
  unfold OutputHandler.clean_tag, OutputHandler.sanitize.
  rewrite replace_char_removes by done.
  rewrite replace_char_keeps; [done..|].
  by apply replace_char_removes.
Qed.

Lemma all_tags_add_child ok parent child :
  OutputHandler.all_tags ok parent = true ->
  OutputHandler.all_tags ok child = true ->
  OutputHandler.all_tags ok (OutputHandler.add_child parent child) = true.
Proof.
  destruct parent as [tag text children]. simpl.
  intros [Htag Hch]%andb_true_iff Hchild.
  rewrite Htag, forallb_app, Hch. simpl. by rewrite Hchild.
Qed.

Lemma all_tags_set_text ok parent text :
  OutputHandler.all_tags ok parent = true ->
  OutputHandler.all_tags ok (OutputHandler.set_text parent text) = true.
Proof. by destruct parent. Qed.

Lemma dict_to_xml_tag str parent data :
  OutputHandler.tag_of (OutputHandler._dict_to_xml str parent data)
  = OutputHandler.tag_of parent.
Proof.
  destruct data as [id|items|entries]; try by destruct parent.
  simpl. revert parent. induction entries as [|[key value] entries IH];
    intros parent; [done|].
  simpl. rewrite IH. by destruct value, parent.
Qed.

Lemma list_items_clean str items list_elem :
  Forall (fun item => forall parent,
            OutputHandler.all_tags OutputHandler.clean_tag parent = true ->
            OutputHandler.all_tags OutputHandler.clean_tag
              (OutputHandler._dict_to_xml str parent item) = true) items ->
  OutputHandler.all_tags OutputHandler.clean_tag list_elem = true ->
  OutputHandler.all_tags OutputHandler.clean_tag
    (fold_left
       (fun list_elem item =>
          OutputHandler.add_child list_elem
            (OutputHandler._dict_to_xml str
               (OutputHandler.Element "item" None []) item))
       items list_elem) = true.
Proof.
  intros Hitems. revert list_elem.
  induction Hitems as [|item items Hitem _ IH]; intros list_elem Hle; [done|].
  simpl. apply IH. apply all_tags_add_child; [done|]. by apply Hitem.
Qed.

(** X17. No tag that [_dict_to_xml] creates, at any depth, has a space
    or a hyphen in it: below a parent whose tags have none, the whole
    tree has none, whatever the keys of the data are. *)
Theorem dict_to_xml_tags_clean str parent data :
  OutputHandler.all_tags OutputHandler.clean_tag parent = true ->
  OutputHandler.all_tags OutputHandler.clean_tag
    (OutputHandler._dict_to_xml str parent data) = true.
Proof.
  revert parent.
  induction data as [id|items _|entries IH] using pyval_induction_deep;
    intros parent Hparent; try by apply all_tags_set_text.
  simpl. revert parent Hparent.
  induction IH as [|[key value] entries [Hvalue Hitems] _ IH];
    intros parent Hparent; [done|].
  simpl. apply IH. simpl in Hvalue, Hitems.
  pose proof (sanitize_clean key) as Hkey.
  destruct value as [id|items|inner].
  - apply all_tags_add_child; [done|]. simpl. by rewrite Hkey.
  - apply all_tags_add_child; [done|]. apply list_items_clean.
    + by apply Hitems.
    + simpl. by rewrite Hkey.
  - apply all_tags_add_child; [done|]. apply Hvalue. simpl. by rewrite Hkey.
Qed.

Lemma dict_to_xml_tags_clean_witness :
  OutputHandler.all_tags OutputHandler.clean_tag
    (OutputHandler._dict_to_xml (fun _ => "ssh")
       (OutputHandler.Element "SpotterResults" None [])
       (OutputHandler.VDict
          [("open ports",
            OutputHandler.VList
              [OutputHandler.VDict
                 [("service-name", OutputHandler.VAtom "ssh")]])]))
  = true.
Proof.
  apply (dict_to_xml_tags_clean (fun _ => "ssh")
           (OutputHandler.Element "SpotterResults" None [])).
  reflexivity.
Defined.

Lemma list_items_children str key items children :
  exists cs,
    fold_left
      (fun list_elem item =>
         OutputHandler.add_child list_elem
           (OutputHandler._dict_to_xml str
              (OutputHandler.Element "item" None []) item))
      items (OutputHandler.Element key None children)
    = OutputHandler.Element key None (children ++ cs)
    /\ OutputHandler.tag_of <$> cs = replicate (length items) "item".
Proof.
  revert children. induction items as [|item items IH]; intros children.
  - exists []. by rewrite app_nil_r.
  - simpl. destruct (IH (children ++
      [OutputHandler._dict_to_xml str (OutputHandler.Element "item" None [])
         item])%list) as (cs & -> & Htags).
    eexists (_ :: cs). split.
    + by rewrite <- app_assoc.
    + by rewrite fmap_cons, Htags, dict_to_xml_tag.
Qed.

Lemma dict_entries_children str tag text children entries :
  exists cs,
    OutputHandler._dict_to_xml str (OutputHandler.Element tag text children)
      (OutputHandler.VDict entries)
    = OutputHandler.Element tag text (children ++ cs)
    /\ Forall2
         (fun (kv : string * OutputHandler.pyval) c =>
            OutputHandler.tag_of c = OutputHandler.sanitize kv.1
            /\ match kv.2 with
               | OutputHandler.VAtom _ =>
                   c = OutputHandler.Element (OutputHandler.sanitize kv.1)
                         (Some (str kv.2)) []
               | OutputHandler.VList items =>
                   OutputHandler.tag_of <$> OutputHandler.children_of c
                   = replicate (length items) "item"
               | OutputHandler.VDict _ =>
                   c = OutputHandler._dict_to_xml str
                         (OutputHandler.Element (OutputHandler.sanitize kv.1)
                            None []) kv.2
               end)
         entries cs.
Proof.
  revert children. induction entries as [|[key value] entries IH];
    intros children.
  - exists []. by rewrite app_nil_r.
  - cbn [OutputHandler._dict_to_xml fold_left] in *.
    destruct value as [id|items|inner].
    + cbn [OutputHandler.add_child].
      destruct (IH (children ++ [OutputHandler.Element
        (OutputHandler.sanitize key)
        (Some (str (OutputHandler.VAtom id))) []])%list) as (cs & -> & Hcs).
      eexists (_ :: cs). split; [by rewrite <- app_assoc|].
      by apply Forall2_cons.
    + destruct (list_items_children str (OutputHandler.sanitize key) items [])
        as (ics & Hfold & Htags).
      rewrite Hfold. cbn [OutputHandler.add_child].
      destruct (IH (children ++ [OutputHandler.Element
        (OutputHandler.sanitize key) None ([] ++ ics)])%list)
        as (cs & -> & Hcs).
      eexists (_ :: cs). split; [by rewrite <- app_assoc|].
      by apply Forall2_cons.
    + cbn [OutputHandler.add_child].
      destruct (IH (children ++ [OutputHandler._dict_to_xml str
        (OutputHandler.Element (OutputHandler.sanitize key) None [])
        (OutputHandler.VDict inner)])%list) as (cs & -> & Hcs).
      eexists (_ :: cs). split; [by rewrite <- app_assoc|].
      constructor; [|done]. split; [|done]. apply dict_to_xml_tag.
Qed.

(** X18. [_dict_to_xml] on a dictionary leaves the parent its tag, text
    and children and appends one element for each key, in the order of
    the keys, under the sanitised key. The element of a plain value
    holds its [str()] and nothing else, that of a list has one "item"
    child for each item, and that of a dictionary one child for each of
    its keys. *)
Theorem dict_to_xml_children str tag text children entries :
  exists cs,
    OutputHandler._dict_to_xml str (OutputHandler.Element tag text children)
      (OutputHandler.VDict entries)
    = OutputHandler.Element tag text (children ++ cs)
    /\ OutputHandler.tag_of <$> cs
       = (fun kv => OutputHandler.sanitize kv.1) <$> entries
    /\ forall i key value, entries !! i = Some (key, value) ->
         exists c, cs !! i = Some c
           /\ match value with
              | OutputHandler.VAtom _ =>
                  c = OutputHandler.Element (OutputHandler.sanitize key)
                        (Some (str value)) []
              | OutputHandler.VList items =>
                  OutputHandler.tag_of <$> OutputHandler.children_of c
                  = replicate (length items) "item"
              | OutputHandler.VDict inner =>
                  OutputHandler.tag_of <$> OutputHandler.children_of c
                  = (fun kv => OutputHandler.sanitize kv.1) <$> inner
              end.
Proof.
  assert (forall entries cs,
    Forall2
      (fun (kv : string * OutputHandler.pyval) c =>
         OutputHandler.tag_of c = OutputHandler.sanitize kv.1
         /\ match kv.2 with
            | OutputHandler.VAtom _ =>
                c = OutputHandler.Element (OutputHandler.sanitize kv.1)
                      (Some (str kv.2)) []
            | OutputHandler.VList items =>
                OutputHandler.tag_of <$> OutputHandler.children_of c
                = replicate (length items) "item"
            | OutputHandler.VDict _ =>
                c = OutputHandler._dict_to_xml str
                      (OutputHandler.Element (OutputHandler.sanitize kv.1)
                         None []) kv.2
            end) entries cs ->
    OutputHandler.tag_of <$> cs
    = (fun kv => OutputHandler.sanitize kv.1) <$> entries) as Htags.
  { intros es cs H. induction H as [|kv c es cs [Htag _] _ IH]; [done|].
    by rewrite !fmap_cons, Htag, IH. }
  destruct (dict_entries_children str tag text children entries)
    as (cs & Heq & Hcs).
  exists cs. split; [done|]. split; [by apply Htags|].
  intros i key value Hi.
  destruct (Forall2_lookup_l _ _ _ _ _ Hcs Hi) as (c & Hc & _ & Hvalue).
  exists c. split; [done|]. cbn [fst snd] in Hvalue.
  destruct value as [id|items|inner]; [done..|].
  destruct (dict_entries_children str (OutputHandler.sanitize key) None []
              inner) as (ics & Hinner & Hics).
  rewrite Hvalue, Hinner. cbn [OutputHandler.children_of app].
  by apply Htags.
Qed.

Lemma indent_str_add n k :
  OutputHandler.indent_str (n + k)
  = OutputHandler.indent_str n ++ OutputHandler.indent_str k.
Proof.
  induction n as [|n IH]; [done|].
  cbn [Nat.add OutputHandler.indent_str]. by rewrite IH, append_assoc.
Qed.

Lemma deeper_line n k chunk :
  (exists body,
     chunk = OutputHandler.indent_str (n + k) ++ body ++ OutputHandler.nl) ->
  exists body, chunk = OutputHandler.indent_str n ++ body ++ OutputHandler.nl.
Proof.
  intros [body ->]. exists (OutputHandler.indent_str k ++ body).
  by rewrite indent_str_add, <- !append_assoc.
Qed.

(** X19. Every string that [_write_dict_as_text] writes begins with the
    indentation of the call and ends with a newline; this holds for what
    the nested calls write too, so nothing below a key is indented less
    than the key. *)
Theorem write_dict_as_text_lines str data indent :
  Forall (fun chunk =>
            exists body,
              chunk = OutputHandler.indent_str indent ++ body
                      ++ OutputHandler.nl)
    (OutputHandler._write_dict_as_text str data indent).
Proof.
  revert indent.
  induction data as [id|items _|entries IH] using pyval_induction_deep;
    intros indent; try (apply Forall_singleton; by eexists).
  cbn [OutputHandler._write_dict_as_text].
  induction IH as [|[key value] entries [Hvalue Hitems] _ IH]; [done|].
  cbn [flat_map]. apply Forall_app. split; [|exact IH]. clear IH.
  cbn [fst snd] in Hvalue, Hitems.
  destruct value as [id|items|inner].
  - apply Forall_singleton. exists (key ++ ": " ++ str (OutputHandler.VAtom id)).
    by rewrite <- !append_assoc.
  - apply Forall_cons. split.
    { exists (key ++ ":"). by rewrite <- !append_assoc. }
    specialize (Hitems items eq_refl). clear Hvalue.
    match goal with |- Forall ?P (?each 1 items) =>
      cut (forall i, Forall P (each i items)); [by intros H|] end.
    induction Hitems as [|item items Hitem _ IH]; intros i; [done|].
    apply Forall_app. split; [|apply IH].
    destruct item as [id|inner|inner].
    + apply Forall_singleton.
      exists ("  - " ++ str (OutputHandler.VAtom id)).
      by rewrite <- !append_assoc.
    + apply Forall_singleton.
      exists ("  - " ++ str (OutputHandler.VList inner)).
      by rewrite <- !append_assoc.
    + apply Forall_cons. split.
      { exists ("  [" ++ Py.str (Z.of_nat i) ++ "]").
        by rewrite <- !append_assoc. }
      eapply Forall_impl; [apply Hitem|]. intros chunk. apply deeper_line.
  - apply Forall_cons. split.
    { exists (key ++ ":"). by rewrite <- !append_assoc. }
    eapply Forall_impl; [apply Hvalue|]. intros chunk. apply deeper_line.
Qed.
